(** * Frontier Online Training Academy API: a shallow embedding of main.py

    The request handlers of [main.py] are embedded as functions in a state
    and exception monad over a document store.  The store stands for the
    MongoDB database behind [database.db]; the helper module [database]
    ([create_document], [get_documents]) is modelled from the specification.

    Python values are modelled as follows.
    - [int] is [Z]; [str] is [string]; [dict] is a finite map from keys to
      values; [None] is the absence of a result.
    - [float] is IEEE binary64.  A finite double is represented by the
      rational number it denotes ([Q], in lowest terms).  Integer true
      division and [round(x, 2)] are correctly rounded (ties to even): the
      module [PyFloat] computes them with a 53 bit significand.  Container
      sizes are below 2^63, so the exponent range of binary64 is never
      left and the exponent is not bounded in the model.
    - [random.randint] and [datetime.utcnow] are inputs of the handlers.

    The store answers every query: a collection is the list of its
    documents in insertion order, [find_one] returns the first match, and
    the errors a database raises by itself (a lost connection, a query it
    rejects) are not modelled.  Handlers are functions of the request: the
    serialisation of their result by the web framework is not modelled. *)

From Stdlib Require Import ZArith QArith Qabs Lia String Ascii DecimalString HexadecimalString.
From stdpp Require Import gmap strings list pretty.

(** ** Binary64 arithmetic *)

Module PyFloat.
Local Open Scope Z_scope.

(** The integer nearest to [a / b], ties to the even one ([0 < b]). *)
Definition div_rhe (a b : Z) : Z :=
  let q := a / b in
  match 2 * (a mod b) ?= b with
  | Lt => q
  | Gt => q + 1
  | Eq => if Z.even q then q else q + 1
  end.

(** [floor (log2 (a / b))] for [0 < a] and [0 < b]. *)
Definition ilog2 (a b : Z) : Z :=
  if b * 2 ^ Z.log2 a <=? a * 2 ^ Z.log2 b
  then Z.log2 a - Z.log2 b else Z.log2 a - Z.log2 b - 1.

(** The double nearest to [a / b] ([0 < b]), as a significand [m] and an
    exponent [e]: the value is [m * 2 ^ e].  Both sides of the quotient
    [a / (b * 2 ^ e)] are scaled by [2 ^ s], which makes the powers
    non-negative. *)
Definition nearest (a b : Z) : Z * Z :=
  if a =? 0 then (0, 0) else
  let e := ilog2 (Z.abs a) b - 52 in
  let s := Z.log2 b + 53 in
  (div_rhe (a * 2 ^ s) (b * 2 ^ (e + s)), e).

Definition to_Q (x : Z * Z) : Q :=
  let (m, e) := x in
  Qred (if 0 <=? e then inject_Z (m * 2 ^ e) else Qmake m (Z.to_pos (2 ^ (- e)))).

(** [a / b] on two ints, [b <> 0]. *)
Definition truediv (a b : Z) : Q := to_Q (nearest (a * Z.sgn b) (Z.abs b)).

(** [round(x, 2)]: the double nearest to the two-decimal number nearest
    to [x]. *)
Definition hundredths (x : Q) : Z := div_rhe (100 * Qnum x) (Zpos (Qden x)).
Definition round2 (x : Q) : Q := to_Q (nearest (hundredths x) 100).
End PyFloat.

(** ** Values, documents and the store *)

(** The values held in documents and JSON bodies.  Lists are typed as the
    schemas of [schemas.py] type them: [List[str]] and [List[dict]]. *)
#[warnings="-register-all"]
Inductive value : Type :=
| VNone
| VBool (b : bool)
| VInt (z : Z)
| VFloat (q : Q)
| VStr (s : string)
| VOid (n : N)
| VDate (t : Z)
| VStrs (l : list string)
| VDicts (l : list (list (string * value))).

(** A nested dict, as found in [Quiz.questions]. *)
Abbreviation question := (list (string * value)).

Fixpoint dict_get (k : string) (d : list (string * value)) : option value :=
  match d with
  | [] => None
  | (k', v) :: d' => if String.eqb k k' then Some v else dict_get k d'
  end.

Section list_eqb.
Context {A : Type} (eqb : A → A → bool).
Fixpoint list_eqb (l1 l2 : list A) : bool :=
  match l1, l2 with
  | [], [] => true
  | x :: l1', y :: l2' => eqb x y && list_eqb l1' l2'
  | _, _ => false
  end.
End list_eqb.

(** Equality of two stored values as the store compares them: numbers by
    value, everything else by structure. *)
Fixpoint value_eqb (a b : value) {struct a} : bool :=
  match a, b with
  | VNone, VNone => true
  | VBool x, VBool y => Bool.eqb x y
  | VInt x, VInt y => Z.eqb x y
  | VFloat x, VFloat y => Qeq_bool x y
  | VInt x, VFloat y => Qeq_bool (inject_Z x) y
  | VFloat x, VInt y => Qeq_bool x (inject_Z y)
  | VStr x, VStr y => String.eqb x y
  | VOid x, VOid y => N.eqb x y
  | VDate x, VDate y => Z.eqb x y
  | VStrs x, VStrs y => list_eqb String.eqb x y
  | VDicts x, VDicts y =>
      list_eqb (list_eqb (λ p q, String.eqb p.1 q.1 && value_eqb p.2 q.2)) x y
  | _, _ => false
  end.

(** Document identifiers: the ObjectIds the database generates, and strings. *)
Inductive ident : Type :=
| ObjectId (n : N)
| StrId (s : string).

Definition id_value (i : ident) : value :=
  match i with ObjectId n => VOid n | StrId s => VStr s end.

(** [str] of an ObjectId: its 24 hexadecimal digits. *)
Definition oid_hex (n : N) : string :=
  let h := HexadecimalString.NilZero.string_of_uint (N.to_hex_uint n) in
  String.concat "" (replicate (24 - String.length h) "0") +:+ h.

Definition id_str (i : ident) : string :=
  match i with ObjectId n => oid_hex n | StrId s => s end.

(** A stored document: every document of a collection carries its [_id];
    [doc_body] holds the other fields. *)
Record document : Type := Document { doc_id : ident; doc_body : gmap string value }.

(** The dict a query returns for a stored document. *)
Definition to_dict (d : document) : gmap string value :=
  <["_id" := id_value (doc_id d)]> (doc_body d).

Definition doc_get (d : document) (k : string) : option value :=
  if String.eqb k "_id" then Some (id_value (doc_id d)) else doc_body d !! k.

(** The database: named collections in insertion order, and the next
    ObjectId to hand out. *)
Record store : Type := Store { colls : gmap string (list document); next_oid : N }.

Definition coll (s : store) (name : string) : list document :=
  default [] (colls s !! name).

Definition empty_store : store := Store ∅ 0.

(** ** Exceptions and the handler monad *)

Inductive exn : Type :=
| HTTPException (status_code : Z) (detail : string)
| TypeError (msg : string)
| AttributeError (msg : string)
| ZeroDivisionError.

Inductive result (A : Type) : Type :=
| Ok (a : A)
| Raise (e : exn).
Arguments Ok {A} a.
Arguments Raise {A} e.

(** [database.db]: [None] when no database is configured. *)
Definition world : Type := option store.

(** A computation reads and writes the database and returns or raises. *)
Definition M (A : Type) : Type := world → result A * world.

#[export] Instance M_ret : MRet M := λ A a w, (Ok a, w).
#[export] Instance M_bind : MBind M := λ A B f m w,
  match m w with
  | (Ok a, w') => f a w'
  | (Raise e, w') => (Raise e, w')
  end.
#[export] Instance M_fmap : FMap M := λ A B f m, a ← m; mret (f a).

Definition raise {A : Type} (e : exn) : M A := λ w, (Raise e, w).
Definition modify_store (f : store → store) : M unit := λ w, (Ok tt, f <$> w).

Fixpoint for_each {A : Type} (body : A → M unit) (l : list A) : M unit :=
  match l with
  | [] => mret tt
  | x :: l' => _ ← body x; for_each body l'
  end.

(** [a or b] on two lookups: [b] is evaluated only when [a] found nothing
    (a found document has an [_id], so it is a non-empty dict and truthy). *)
Definition or_else {A : Type} (a b : M (option A)) : M (option A) :=
  x ← a; match x with Some _ => mret x | None => b end.

(** ** Python builtins used by the handlers *)

(** [f"{n}"] for an int. *)
Definition str_of_int (z : Z) : string :=
  DecimalString.NilZero.string_of_int (Z.to_int z).

(** [a / b] on ints. *)
Definition py_truediv (a b : Z) : M Q :=
  if Z.eqb b 0 then raise ZeroDivisionError else mret (PyFloat.truediv a b).

(** [round(x, 2)]. *)
Definition py_round2 (x : Q) : Q := PyFloat.round2 x.

(** [set(v)] for a stored value [v]: the elements of a list of strings, the
    characters of a string; a dict is unhashable and the scalars are not
    iterable. *)
Definition py_set (v : value) : M (gset string) :=
  match v with
  | VStrs l => mret (list_to_set l)
  | VStr s => mret (list_to_set ((λ c, String c EmptyString) <$> list_ascii_of_string s))
  | VDicts [] => mret ∅
  | VDicts (_ :: _) => raise (TypeError "unhashable type: 'dict'")
  | _ => raise (TypeError "object is not iterable")
  end.

(** [n == v] for an int [n] and a stored value [v] ([None] when a key is
    missing): numbers compare by value, [True] is 1 and [False] is 0. *)
Definition py_eq_int (n : Z) (v : option value) : bool :=
  match v with
  | Some (VInt m) => Z.eqb n m
  | Some (VFloat q) => Qeq_bool (inject_Z n) q
  | Some (VBool b) => Z.eqb n (if b then 1 else 0)
  | _ => false
  end.

(** The elements met when iterating over a stored value. *)
Inductive item : Type :=
| IStr (s : string)
| IDict (d : question).

Definition py_iter (v : value) : M (list item) :=
  match v with
  | VStrs l => mret (IStr <$> l)
  | VStr s => mret ((λ c, IStr (String c EmptyString)) <$> list_ascii_of_string s)
  | VDicts l => mret (IDict <$> l)
  | _ => raise (TypeError "object is not iterable")
  end.

(** [float(d)] for a dict [d]. *)
Definition py_float_of_dict (d : gmap string value) : M Q :=
  raise (TypeError "float() argument must be a string or a real number, not 'dict'").

(** [x.get(k, dflt)] on a float [x]: floats have no such attribute. *)
Definition py_float_get (x : Q) (k : string) (dflt : value) : M value :=
  raise (AttributeError "'float' object has no attribute 'get'").

(** ** Queries *)

(** A condition on one field, as the handlers write them: a plain value
    (equality), [{"$regex": p, "$options": o}] and [{"$oid": s}]. *)
Inductive cond : Type :=
| CEq (v : value)
| CRegex (pattern options : string)
| COid (s : string).

(** ** Request bodies *)

Record EnrollmentReq : Type :=
  { enr_user_id : string; enr_course_id : string }.

Record ProgressUpdate : Type :=
  { pu_user_id : string; pu_course_id : string; pu_lesson_id : string }.

Record QuizSubmission : Type :=
  { qs_quiz_id : string; qs_answers : list Z }.

Record PaymentInit : Type :=
  { pay_user_id : string; pay_course_id : string;
    pay_gateway : string; pay_currency : string }.

Record CreateLesson : Type :=
  { cl_course_id : string; cl_title : string; cl_content_type : string;
    cl_video_url : option string; cl_pdf_url : option string;
    cl_notes : option string; cl_order : Z }.

Record CreateCourse : Type :=
  { cc_title : string; cc_category : string; cc_description : string;
    cc_instructor : string; cc_level : string; cc_tags : list string; cc_price : Q;
    cc_thumbnail_url : option string; cc_promo_video_url : option string }.

Record CreateQuiz : Type :=
  { cq_course_id : string; cq_title : string; cq_questions : list question }.

Definition opt_str (o : option string) : value :=
  match o with Some s => VStr s | None => VNone end.

(** The five courses of [seed_data]. *)
Definition sample_course (title category description instructor level : string)
    (tags : list string) (price : Q) (thumbnail_url : string) : gmap string value :=
  {[ "title" := VStr title; "category" := VStr category;
     "description" := VStr description; "instructor" := VStr instructor;
     "level" := VStr level; "tags" := VStrs tags; "price" := VFloat price;
     "thumbnail_url" := VStr thumbnail_url ]}.

Definition sample_courses : list (gmap string value) :=
  [ sample_course "IELTS Mastery Program" "IELTS"
      "Comprehensive IELTS prep with practice tests and feedback."
      "Dr. Aisha Khan" "Intermediate" ["IELTS"; "Exam"] 149
      "https://images.unsplash.com/photo-1523580846011-d3a5bc25702b";
    sample_course "British Accent & Spoken English" "Accent & Spoken English"
      "Refine pronunciation, rhythm and intonation with native patterns."
      "James Parker" "Beginner" ["Accent"; "Speaking"] 129
      "https://images.unsplash.com/photo-1529078155058-5d716f45d604";
    sample_course "Personality Development & Soft Skills" "Personality Development"
      "Boost confidence, presence and workplace communication."
      "Neha Sharma" "Beginner" ["Soft Skills"; "Confidence"] 99
      "https://images.unsplash.com/photo-1522071820081-009f0129c71c";
    sample_course "Leadership & Corporate Communication"
      "Leadership & Corporate Communication"
      "Lead with clarity: executive presence, influence and storytelling."
      "Rahul Verma" "Advanced" ["Leadership"; "Corporate"] 199
      "https://images.unsplash.com/photo-1521791136064-7986c2920216";
    sample_course "CPHQ & Healthcare Quality Training" "CPHQ & Healthcare Quality"
      "Prepare for CPHQ with quality frameworks, patient safety and analytics."
      "Dr. Sara Malik" "Advanced" ["CPHQ"; "Healthcare"] 249
      "https://images.unsplash.com/photo-1584982751687-51f29c073f0f" ].

(** The two questions [get_quiz] seeds. *)
Definition seed_questions : list question :=
  [ [ ("question", VStr "Effective communication is primarily about?");
      ("options", VStrs ["Speaking"; "Listening"; "Grammar"; "Accent"]);
      ("answer", VInt 1) ];
    [ ("question", VStr "IELTS stands for?");
      ("options", VStrs ["International English Language Testing System";
                         "Indian English Language Test Suite";
                         "Integrated ELT System"; "None"]);
      ("answer", VInt 0) ] ].

(** The two operators the store evaluates for the service: the search of
    a pattern (with options) in a string, and [{"$oid": s}] on a field.
    What the store makes of them is its own business: the handlers are
    embedded for any store. *)
Class StoreOps : Type :=
  { regex_search : string → string → string → bool;
    oid_cond : string → value → bool }.

Section Service.
Context `{!StoreOps}.

(** A condition on the value of a field ([None] when the document has no
    such field).  The fields the service queries are scalars (schemas.py):
    equality is the equality of two values, and a pattern applies to a
    string. *)
Definition cond_holds (c : cond) (fv : option value) : bool :=
  match c, fv with
  | CEq VNone, None => true
  | CEq v, Some w => value_eqb v w
  | CRegex p o, Some (VStr s) => regex_search p o s
  | COid s, Some w => oid_cond s w
  | _, _ => false
  end.

(** A document matches a filter when every condition of the filter holds
    of the field it names. *)
Definition Matches (f : gmap string cond) (d : document) : Prop :=
  map_Forall (λ k c, cond_holds c (doc_get d k) = true) f.

#[export] Instance Matches_dec f d : Decision (Matches f d).
Proof. unfold Matches. apply _. Defined.

(** *** pymongo: the methods of [collection(name)] *)

(** [collection(name)] of main.py. *)
Definition collection (name : string) : M (list document) := λ w,
  match w with
  | None => (Raise (HTTPException 500 "Database not available"), w)
  | Some s => (Ok (coll s name), w)
  end.

Definition find_one (name : string) (f : gmap string cond) : M (option document) :=
  c ← collection name; mret (head (filter (Matches f) c)).

Definition count_documents (name : string) (f : gmap string cond) : M Z :=
  c ← collection name; mret (Z.of_nat (length (filter (Matches f) c))).

Definition set_fields (upd : gmap string value) (d : document) : document :=
  Document (doc_id d) (upd ∪ doc_body d).

Fixpoint update_first (f : gmap string cond) (upd : gmap string value)
    (c : list document) : option (list document) :=
  match c with
  | [] => None
  | d :: c' =>
      if decide (Matches f d) then Some (set_fields upd d :: c')
      else (d ::.) <$> update_first f upd c'
  end.

Definition insert_one (name : string) (body : gmap string value) (s : store) : store :=
  Store (<[name := coll s name ++ [Document (ObjectId (next_oid s)) body]]> (colls s))
        (N.succ (next_oid s)).

(** The fields an upsert takes from the equality conditions of its filter. *)
Definition eq_fields (f : gmap string cond) : gmap string value :=
  delete "_id" (omap (λ c, match c with CEq v => Some v | _ => None end) f).

Definition set_coll (name : string) (c : list document) (s : store) : store :=
  Store (<[name := c]> (colls s)) (next_oid s).

Definition apply_update (name : string) (f : gmap string cond)
    (upd : gmap string value) (upsert : bool) (s : store) : store :=
  match update_first f upd (coll s name) with
  | Some c' => set_coll name c' s
  | None => if upsert then insert_one name (upd ∪ eq_fields f) s else s
  end.

(** [update_one(f, {"$set": upd}, upsert=upsert)]: the first match is
    updated in place; without a match an upsert inserts a new document
    made of the equality fields of the filter and of [upd]. *)
Definition update_one (name : string) (f : gmap string cond)
    (upd : gmap string value) (upsert : bool) : M unit :=
  _ ← collection name; modify_store (apply_update name f upd upsert).

(** *** database.py *)

(** Modelled from the spec: [database.create_document] is not among the
    sources.  It stores the document under a database-generated
    identifier and returns that identifier (as a string, since the
    handlers put it in their JSON bodies); without a database it fails. *)
Definition create_document (name : string) (data : gmap string value) : M string := λ w,
  match w with
  | Some s => (Ok (oid_hex (next_oid s)), Some (insert_one name data s))
  | None => (Raise (HTTPException 500 "Database not available"), w)
  end.

(** Modelled from the spec: [database.get_documents] is not among the
    sources.  It is the find-many of the store: the documents of the
    collection that match the filter, in the order of the collection, at
    most [limit] of them. *)
Definition get_documents (name : string) (f : gmap string cond) (limit : nat)
    : M (list (gmap string value)) :=
  c ← collection name; mret (to_dict <$> take limit (filter (Matches f) c)).

(** *** main.py: startup *)

Definition seed_data : M unit := λ w,
  match w with
  | None => (Ok tt, w)
  | Some _ =>
      (n ← count_documents "course" ∅;
       if Z.eqb n 0
       then for_each (λ c, _ ← create_document "course" c; mret tt) sample_courses
       else mret tt) w
  end.

(** *** main.py: public endpoints *)

Definition pair_filter (user_id course_id : string) : gmap string cond :=
  {[ "user_id" := CEq (VStr user_id); "course_id" := CEq (VStr course_id) ]}.

(** A [str] is truthy when it is not empty. *)
Definition given (o : option string) : option string :=
  match o with Some "" => None | _ => o end.

(** The filter [list_courses] builds. *)
Definition course_filter (category q : option string) : gmap string cond :=
  let filt : gmap string cond := ∅ in
  let filt := match given category with
              | Some c => <["category" := CEq (VStr c)]> filt
              | None => filt
              end in
  let filt := match given q with
              | Some p => <["title" := CRegex p "i"]> filt
              | None => filt
              end in
  filt.

Definition list_courses (category q : option string) : M (list (gmap string value)) :=
  get_documents "course" (course_filter category q) 100.

Definition course_detail (course_id : string) : M (gmap string value) :=
  doc ← or_else (find_one "course" {[ "_id" := COid course_id ]})
                (find_one "course" {[ "_id" := CEq (VStr course_id) ]});
  match doc with
  | None => raise (HTTPException 404 "Course not found")
  | Some d => mret (to_dict d)
  end.

Definition enroll (enr : EnrollmentReq) : M (gmap string value) :=
  existing ← find_one "enrollment" (pair_filter (enr_user_id enr) (enr_course_id enr));
  match existing with
  | Some d => mret (to_dict d)
  | None =>
      _id ← create_document "enrollment"
              {[ "user_id" := VStr (enr_user_id enr);
                 "course_id" := VStr (enr_course_id enr);
                 "status" := VStr "enrolled"; "progress" := VFloat 0 ]};
      mret {[ "_id" := VStr _id; "status" := VStr "enrolled" ]}
  end.

Definition lessons (course_id : string) : M (list (gmap string value)) :=
  get_documents "lesson" {[ "course_id" := CEq (VStr course_id) ]} 200.

(** The dict [data] of [mark_progress]. *)
Definition progress_data (p : ProgressUpdate) (completed : gset string) (now : Z)
    : gmap string value :=
  {[ "user_id" := VStr (pu_user_id p); "course_id" := VStr (pu_course_id p);
     "completed_lessons" := VStrs (elements completed);
     "last_lesson_id" := VStr (pu_lesson_id p); "updated_at" := VDate now ]}.

Definition mark_progress (p : ProgressUpdate) (now : Z) : M (gmap string value) :=
  pr ← find_one "progress" (pair_filter (pu_user_id p) (pu_course_id p));
  completed ← match pr with
              | Some d => py_set (default (VStrs []) (doc_body d !! "completed_lessons"))
              | None => mret ∅
              end;
  let completed : gset string := completed ∪ {[ pu_lesson_id p ]} in
  let data := progress_data p completed now in
  _ ← match pr with
      | Some d => update_one "progress" {[ "_id" := CEq (id_value (doc_id d)) ]} data false
      | None => _ ← create_document "progress" data; mret tt
      end;
  n ← count_documents "lesson" {[ "course_id" := CEq (VStr (pu_course_id p)) ]};
  let total_lessons := if Z.eqb n 0 then 1%Z else n in
  x ← py_truediv (100 * Z.of_nat (size completed)) total_lessons;
  let percent := py_round2 x in
  _ ← update_one "enrollment" (pair_filter (pu_user_id p) (pu_course_id p))
        {[ "progress" := VFloat percent ]} true;
  mret {[ "progress" := VFloat percent ]}.

(** *** main.py: quizzes *)

Definition get_quiz (course_id : string) : M (option (gmap string value)) :=
  qz ← find_one "quiz" {[ "course_id" := CEq (VStr course_id) ]};
  match qz with
  | Some d => mret (Some (to_dict d))
  | None =>
      qz_id ← create_document "quiz"
                {[ "course_id" := VStr course_id; "title" := VStr "Quick Check";
                   "questions" := VDicts seed_questions ]};
      qz ← or_else (find_one "quiz" {[ "_id" := CEq (VStr qz_id) ]})
                   (find_one "quiz" {[ "course_id" := CEq (VStr course_id) ]});
      mret (to_dict <$> qz)
  end.

(** The loop of [submit_quiz]: [idx] is the index [enumerate] gives to the
    head of [qs], [correct] the counter. *)
Fixpoint count_correct (answers : list Z) (idx : nat) (qs : list item) (correct : Z) : M Z :=
  match qs with
  | [] => mret correct
  | q :: qs' =>
      hit ← match answers !! idx with
            | None => mret false
            | Some a =>
                match q with
                | IDict d => mret (py_eq_int a (dict_get "answer" d))
                | IStr _ => raise (AttributeError "'str' object has no attribute 'get'")
                end
            end;
      count_correct answers (S idx) qs' (if hit : bool then correct + 1 else correct)%Z
  end.

Definition submit_quiz (payload : QuizSubmission) : M (gmap string value) :=
  qz ← or_else (find_one "quiz" {[ "_id" := CEq (VStr (qs_quiz_id payload)) ]})
               (find_one "quiz" {[ "_id" := COid (qs_quiz_id payload) ]});
  match qz with
  | None => raise (HTTPException 404 "Quiz not found")
  | Some d =>
      let questions := default (VStrs []) (doc_body d !! "questions") in
      qs ← py_iter questions;
      correct ← count_correct (qs_answers payload) 0 qs 0;
      x ← py_truediv (100 * correct) (Z.max 1 (Z.of_nat (length qs)));
      let score := py_round2 x in
      mret {[ "quiz_id" := VStr (id_str (doc_id d)); "score" := VFloat score ]}
  end.

(** *** main.py: certificates and payments *)

(** [r] is the value [random.randint(100000, 999999)] returns. *)
Definition issue_certificate (user_id course_id : string) (r now : Z)
    : M (gmap string value) :=
  let code := "FO-" +:+ str_of_int r in
  existing ← find_one "certificate" (pair_filter user_id course_id);
  match existing with
  | Some d => mret (to_dict d)
  | None =>
      _id ← create_document "certificate"
              {[ "user_id" := VStr user_id; "course_id" := VStr course_id;
                 "certificate_code" := VStr code; "issued_at" := VDate now;
                 "url" := VStr ("https://certs.frontier.example/" +:+ code) ]};
      mret {[ "_id" := VStr _id; "certificate_code" := VStr code ]}
  end.

(** The "amount" entry is [float(found or {}).get("price", 0.0)]: [float]
    is applied to the dict, and [.get] to what [float] returns. *)
Definition create_payment_session (req : PaymentInit) (r : Z) : M (gmap string value) :=
  let session_id := "sess_" +:+ str_of_int r in
  found ← find_one "course" {[ "_id" := COid (pay_course_id req) ]};
  x ← py_float_of_dict (match found with Some d => to_dict d | None => ∅ end);
  amount ← py_float_get x "price" (VFloat 0);
  _id ← create_document "payment"
          {[ "user_id" := VStr (pay_user_id req); "course_id" := VStr (pay_course_id req);
             "amount" := amount; "currency" := VStr (pay_currency req);
             "gateway" := VStr (pay_gateway req); "status" := VStr "created";
             "session_id" := VStr session_id ]};
  mret {[ "session_id" := VStr session_id; "payment_id" := VStr _id ]}.

(** *** main.py: admin endpoints *)

Definition admin_create_lesson (payload : CreateLesson) : M (gmap string value) :=
  _id ← create_document "lesson"
          {[ "course_id" := VStr (cl_course_id payload); "title" := VStr (cl_title payload);
             "content_type" := VStr (cl_content_type payload);
             "video_url" := opt_str (cl_video_url payload);
             "pdf_url" := opt_str (cl_pdf_url payload);
             "notes" := opt_str (cl_notes payload); "order" := VInt (cl_order payload) ]};
  mret {[ "_id" := VStr _id ]}.

Definition admin_create_course (payload : CreateCourse) : M (gmap string value) :=
  _id ← create_document "course"
          {[ "title" := VStr (cc_title payload); "category" := VStr (cc_category payload);
             "description" := VStr (cc_description payload);
             "instructor" := VStr (cc_instructor payload);
             "level" := VStr (cc_level payload); "tags" := VStrs (cc_tags payload);
             "price" := VFloat (cc_price payload);
             "thumbnail_url" := opt_str (cc_thumbnail_url payload);
             "promo_video_url" := opt_str (cc_promo_video_url payload) ]};
  mret {[ "_id" := VStr _id ]}.

Definition admin_create_quiz (payload : CreateQuiz) : M (gmap string value) :=
  _id ← create_document "quiz"
          {[ "course_id" := VStr (cq_course_id payload); "title" := VStr (cq_title payload);
             "questions" := VDicts (cq_questions payload) ]};
  mret {[ "_id" := VStr _id ]}.

End Service.

(** ** A reference store

    An instance of [StoreOps] for running the handlers: [{"$oid": s}] holds
    of the ObjectId whose hexadecimal form is [s], and patterns are read in
    the fragment of the regular expressions made of literal characters and
    the wildcard [.] (a pattern with another metacharacter matches nothing
    here). *)

Definition lower (c : ascii) : ascii :=
  let n := nat_of_ascii c in
  if (65 <=? n)%nat && (n <=? 90)%nat then ascii_of_nat (n + 32) else c.

Definition is_meta (c : ascii) : bool :=
  bool_decide (c ∈ list_ascii_of_string "\.^$*+?()[]{}|").

Inductive atom : Type :=
| Lit (c : ascii)
| Any.

Fixpoint parse_pattern (p : list ascii) : option (list atom) :=
  match p with
  | [] => Some []
  | c :: p' =>
      if Ascii.eqb c "." then (Any ::.) <$> parse_pattern p'
      else if is_meta c then None
      else (Lit c ::.) <$> parse_pattern p'
  end.

Definition atom_matches (ci : bool) (a : atom) (c : ascii) : bool :=
  match a with
  | Any => negb (Ascii.eqb c "010")
  | Lit l => if ci then Ascii.eqb (lower l) (lower c) else Ascii.eqb l c
  end.

Fixpoint match_here (ci : bool) (p : list atom) (s : list ascii) : bool :=
  match p, s with
  | [], _ => true
  | a :: p', c :: s' => atom_matches ci a c && match_here ci p' s'
  | _ :: _, [] => false
  end.

Fixpoint search_from (ci : bool) (p : list atom) (s : list ascii) : bool :=
  match_here ci p s || match s with [] => false | _ :: s' => search_from ci p s' end.

Definition regex_lite (pattern options subject : string) : bool :=
  match parse_pattern (list_ascii_of_string pattern) with
  | Some p =>
      search_from (bool_decide ("i"%char ∈ list_ascii_of_string options)) p
        (list_ascii_of_string subject)
  | None => false
  end.

Definition oid_by_hex (s : string) (v : value) : bool :=
  match v with VOid n => String.eqb (oid_hex n) s | _ => false end.

Definition ref_ops : StoreOps :=
  {| regex_search := regex_lite; oid_cond := oid_by_hex |}.

(** ** Notions the claims are stated with *)

(** [t] contains [q] as a substring, ignoring the case of ASCII letters. *)
Definition ci_substring (q t : string) : Prop :=
  ∃ pre post : list ascii,
    lower <$> list_ascii_of_string t = pre ++ (lower <$> list_ascii_of_string q) ++ post.

(** A pattern without metacharacters. *)
Definition literal (q : string) : Prop :=
  Forall (λ c, is_meta c = false) (list_ascii_of_string q).

(** The first document of a collection that satisfies a filter. *)
Definition lookup `{!StoreOps} (s : store) (name : string) (f : gmap string cond)
    : option document :=
  head (filter (Matches f) (coll s name)).

(** The completed lessons recorded for a pair. *)
Definition completed_of `{!StoreOps} (s : store) (user_id course_id : string) : gset string :=
  match lookup s "progress" (pair_filter user_id course_id) with
  | Some d =>
      match doc_body d !! "completed_lessons" with
      | Some (VStrs l) => list_to_set l
      | _ => ∅
      end
  | None => ∅
  end.

(** The number of lesson documents of a course. *)
Definition lesson_count `{!StoreOps} (s : store) (course_id : string) : Z :=
  Z.of_nat (length (filter (Matches {[ "course_id" := CEq (VStr course_id) ]}) (coll s "lesson"))).

(** What the store guarantees of a collection: identifiers are unique, and
    the ObjectIds in use are below the next one to be generated. *)
Definition ids_ok (next : N) (c : list document) : Prop :=
  NoDup (doc_id <$> c) ∧ ∀ n, ObjectId n ∈ doc_id <$> c → (n < next)%N.

(** The progress collection is typed by the schema [Progress]:
    [completed_lessons] is a list of strings. *)
Definition progress_typed (d : document) : Prop :=
  match doc_body d !! "completed_lessons" with
  | Some (VStrs _) | None => True
  | Some _ => False
  end.

Definition store_ok (s : store) : Prop :=
  (∀ name, ids_ok (next_oid s) (coll s name)) ∧ Forall progress_typed (coll s "progress").

(** [d] has the string [c] in field [k]. *)
Definition has_str (k c : string) (d : document) : Prop :=
  doc_body d !! k = Some (VStr c).

#[export] Instance has_str_dec k c d : Decision (has_str k c d).
Proof.
  unfold has_str. destruct (doc_body d !! k) as [[]|];
    try (right; discriminate).
  destruct (decide (s = c)) as [->|Hne]; [by left | right; congruence].
Defined.

(** [d] passes the category filter of [list_courses]: every document when
    no category, or an empty one, is given. *)
Definition in_category (category : option string) (d : document) : Prop :=
  match given category with
  | Some c => has_str "category" c d
  | None => True
  end.

(** The quiz [submit_quiz] scores: the one its two lookups find. *)
Definition quiz_lookup `{!StoreOps} (s : store) (quiz_id : string) : option document :=
  match lookup s "quiz" {[ "_id" := CEq (VStr quiz_id) ]} with
  | Some d => Some d
  | None => lookup s "quiz" {[ "_id" := COid quiz_id ]}
  end.

(** The number of positions at which the submitted answer equals the
    stored one.  [zip] stops at the shorter list: a question without a
    submitted answer does not count. *)
Definition hits (answers : list Z) (qs : list question) : Z :=
  Z.of_nat (length (filter (λ aq, py_eq_int aq.1 (dict_get "answer" aq.2) = true)
                           (zip answers qs))).

(** 100 * correct / total, with a denominator of at least 1, rounded to two
    decimals. *)
Definition quiz_score (answers : list Z) (qs : list question) : Q :=
  py_round2 (PyFloat.truediv (100 * hits answers qs) (Z.max 1 (Z.of_nat (length qs)))).

(** 100 * n / total, with denominator 1 for a course without lessons,
    rounded to two decimals. *)
Definition percent_of (n : nat) (total : Z) : Q :=
  py_round2 (PyFloat.truediv (100 * Z.of_nat n) (if Z.eqb total 0 then 1 else total)).

(** The store after [mark_progress] has written the progress record. *)
Definition progress_written `{!StoreOps} (p : ProgressUpdate) (completed : gset string)
    (now : Z) (s : store) : store :=
  match lookup s "progress" (pair_filter (pu_user_id p) (pu_course_id p)) with
  | Some d =>
      apply_update "progress" {[ "_id" := CEq (id_value (doc_id d)) ]}
        (progress_data p completed now) false s
  | None => insert_one "progress" (progress_data p completed now) s
  end.

(** The documents [enroll] and [issue_certificate] create. *)
Definition enrollment_doc (u c : string) : gmap string value :=
  {[ "user_id" := VStr u; "course_id" := VStr c;
     "status" := VStr "enrolled"; "progress" := VFloat 0 ]}.

Definition certificate_doc (u c : string) (r now : Z) : gmap string value :=
  {[ "user_id" := VStr u; "course_id" := VStr c;
     "certificate_code" := VStr ("FO-" +:+ str_of_int r); "issued_at" := VDate now;
     "url" := VStr ("https://certs.frontier.example/" +:+ ("FO-" +:+ str_of_int r)) ]}.

(** The store after [seed_data] has inserted the sample courses. *)
Definition seeded (s : store) : store :=
  foldl (λ s c, insert_one "course" c s) s sample_courses.

(** ** Example stores *)

(** Four lessons of course c1, nothing else. *)
Definition four_lessons : store :=
  foldl (λ s c, insert_one "lesson" c s) empty_store
    (replicate 4 ({[ "course_id" := VStr "c1" ]} : gmap string value)).

(** One lesson of course c1, and one completed lesson recorded for u1. *)
Definition one_lesson_done : store :=
  insert_one "progress"
    {[ "user_id" := VStr "u1"; "course_id" := VStr "c1"; "completed_lessons" := VStrs ["L1"] ]}
    (insert_one "lesson" {[ "course_id" := VStr "c1" ]} empty_store).

(** The quiz [get_quiz] seeds for course c1 in an empty database. *)
Definition seeded_quiz : store :=
  insert_one "quiz"
    {[ "course_id" := VStr "c1"; "title" := VStr "Quick Check";
       "questions" := VDicts seed_questions ]} empty_store.

(** [n] lessons of course c1, and [n] completed lessons recorded for u1
    (lesson ids that are not lessons of the course: nothing checks them). *)
Definition many_lessons (n : nat) : list document :=
  (λ i, Document (ObjectId (N.of_nat i)) {[ "course_id" := VStr "c1" ]}) <$> seq 0 n.

Definition many_completed (n : nat) : list string :=
  (λ i, "L" +:+ pretty i) <$> seq 0 n.

Definition crowded_progress (n : nat) : document :=
  Document (ObjectId (N.of_nat n))
    {[ "user_id" := VStr "u1"; "course_id" := VStr "c1";
       "completed_lessons" := VStrs (many_completed n) ]}.

Definition crowded_store (n : nat) : store :=
  Store {[ "lesson" := many_lessons n; "progress" := [crowded_progress n] ]} (N.of_nat (S n)).

(** ** Notions for the properties beyond the claims *)

(** What every handler raises when no database is configured. *)
Definition unavailable : exn := HTTPException 500 "Database not available".

(** The documents the admin endpoints store: [payload.model_dump()]. *)
Definition course_doc (payload : CreateCourse) : gmap string value :=
  {[ "title" := VStr (cc_title payload); "category" := VStr (cc_category payload);
     "description" := VStr (cc_description payload);
     "instructor" := VStr (cc_instructor payload);
     "level" := VStr (cc_level payload); "tags" := VStrs (cc_tags payload);
     "price" := VFloat (cc_price payload);
     "thumbnail_url" := opt_str (cc_thumbnail_url payload);
     "promo_video_url" := opt_str (cc_promo_video_url payload) ]}.

Definition lesson_doc (payload : CreateLesson) : gmap string value :=
  {[ "course_id" := VStr (cl_course_id payload); "title" := VStr (cl_title payload);
     "content_type" := VStr (cl_content_type payload);
     "video_url" := opt_str (cl_video_url payload);
     "pdf_url" := opt_str (cl_pdf_url payload);
     "notes" := opt_str (cl_notes payload); "order" := VInt (cl_order payload) ]}.

Definition quiz_doc (payload : CreateQuiz) : gmap string value :=
  {[ "course_id" := VStr (cq_course_id payload); "title" := VStr (cq_title payload);
     "questions" := VDicts (cq_questions payload) ]}.

(** The quiz [get_quiz] seeds for a course. *)
Definition seed_quiz_doc (course_id : string) : gmap string value :=
  {[ "course_id" := VStr course_id; "title" := VStr "Quick Check";
     "questions" := VDicts seed_questions ]}.

(** One call of a handler, on a database [s], leaves the database [s']. *)
Inductive handler_step `{!StoreOps} (s s' : store) : Prop :=
| step_seed_data r :
    seed_data (Some s) = (r, Some s') → handler_step s s'
| step_list_courses category q r :
    list_courses category q (Some s) = (r, Some s') → handler_step s s'
| step_course_detail course_id r :
    course_detail course_id (Some s) = (r, Some s') → handler_step s s'
| step_enroll enr r :
    enroll enr (Some s) = (r, Some s') → handler_step s s'
| step_lessons course_id r :
    lessons course_id (Some s) = (r, Some s') → handler_step s s'
| step_mark_progress p now r :
    mark_progress p now (Some s) = (r, Some s') → handler_step s s'
| step_get_quiz course_id r :
    get_quiz course_id (Some s) = (r, Some s') → handler_step s s'
| step_submit_quiz payload r :
    submit_quiz payload (Some s) = (r, Some s') → handler_step s s'
| step_issue_certificate user_id course_id rnd now r :
    issue_certificate user_id course_id rnd now (Some s) = (r, Some s') → handler_step s s'
| step_create_payment_session req rnd r :
    create_payment_session req rnd (Some s) = (r, Some s') → handler_step s s'
| step_admin_create_course payload r :
    admin_create_course payload (Some s) = (r, Some s') → handler_step s s'
| step_admin_create_lesson payload r :
    admin_create_lesson payload (Some s) = (r, Some s') → handler_step s s'
| step_admin_create_quiz payload r :
    admin_create_quiz payload (Some s) = (r, Some s') → handler_step s s'.

(** No document is removed and no identifier changes: in every
    collection the identifiers of [s], in order, come first in [s']. *)
Definition keeps_ids (s s' : store) : Prop :=
  (next_oid s <= next_oid s')%N ∧
  ∀ name, doc_id <$> coll s name `prefix_of` doc_id <$> coll s' name.

(** Every identifier of the collection is an ObjectId. *)
Definition generated_ids (s : store) (name : string) : Prop :=
  Forall (λ d, ∃ n, doc_id d = ObjectId n) (coll s name).

(** At most one enrollment, one progress record and one certificate for
    each pair of a user and a course. *)
Definition one_per_pair `{!StoreOps} (s : store) : Prop :=
  ∀ name u c, name ∈ ["enrollment"; "progress"; "certificate"] →
    length (filter (Matches (pair_filter u c)) (coll s name)) ≤ 1.

(** A course of the IELTS category, for the admin endpoint. *)
Definition demo_course : CreateCourse :=
  {| cc_title := "IELTS Writing Clinic"; cc_category := "IELTS";
     cc_description := "Task 1 and task 2, with feedback."; cc_instructor := "Dr. Aisha Khan";
     cc_level := "Beginner"; cc_tags := []; cc_price := 0;
     cc_thumbnail_url := None; cc_promo_video_url := None |}.

(** The four lessons of course c1, and u1 enrolled in it. *)
Definition four_lessons_enrolled : store :=
  insert_one "enrollment" (enrollment_doc "u1" "c1") four_lessons.

(** * Properties *)

(** ** Binary64 rounding *)


Module PyFloatFacts.
Import PyFloat.
Local Open Scope Z_scope.

Lemma div_rhe_lower a b n : 0 < b → (2 * n - 1) * b < 2 * a → n <= div_rhe a b.
Proof.
  intros Hb H. unfold div_rhe.
  pose proof (Z.div_mod a b ltac:(lia)) as Hdm.
  pose proof (Z.mod_pos_bound a b Hb) as Hm.
  destruct (Z.compare_spec (2 * (a mod b)) b) as [Hc|Hc|Hc]; [destruct (Z.even (a / b)) |..]; nia.
Qed.

Lemma div_rhe_ge a b n : 0 < b → n * b <= a → n <= div_rhe a b.
Proof. intros Hb H. apply div_rhe_lower; [done | nia]. Qed.

Lemma ilog2_spec a b :
  0 < a → 0 < b →
  let e := ilog2 a b - 52 in let s := Z.log2 b + 53 in
  0 <= e + s ∧ 2 ^ 52 * (b * 2 ^ (e + s)) <= a * 2 ^ s.
Proof.
  intros Ha Hb e s.
  pose proof (Z.log2_spec a Ha) as [Ha1 Ha2]. pose proof (Z.log2_spec b Hb) as [Hb1 Hb2].
  pose proof (Z.log2_nonneg a) as Hla. pose proof (Z.log2_nonneg b) as Hlb.
  subst e s. unfold ilog2.
  destruct (Z.leb_spec (b * 2 ^ Z.log2 a) (a * 2 ^ Z.log2 b)) as [Ht|Ht].
  - split; [lia|].
    replace (Z.log2 a - Z.log2 b - 52 + (Z.log2 b + 53)) with (Z.log2 a + 1) by lia.
    replace (Z.log2 b + 53) with (Z.log2 b + 1 + 52) by lia.
    rewrite !Z.pow_add_r by lia. nia.
  - split; [lia|].
    replace (Z.log2 a - Z.log2 b - 1 - 52 + (Z.log2 b + 53)) with (Z.log2 a) by lia.
    replace (Z.log2 b + 53) with (Z.log2 b + 1 + 52) by lia.
    rewrite !Z.pow_add_r by lia.
    rewrite Z.pow_succ_r in Hb2 by lia.
    assert (0 < 2 ^ Z.log2 a) by (apply Z.pow_pos_nonneg; lia).
    assert (0 < 2 ^ Z.log2 b) by (apply Z.pow_pos_nonneg; lia).
    nia.
Qed.

Lemma nearest_sig a b M J m e :
  0 < b → 0 < M < 2 ^ 53 → 0 <= J → M * b <= a * 2 ^ J →
  nearest a b = (m, e) →
  (0 <= e → M <= m * 2 ^ e * 2 ^ J) ∧ (e < 0 → M * 2 ^ (- e) <= m * 2 ^ J).
Proof.
  intros Hb HM HJ Hle. unfold nearest.
  assert (0 < 2 ^ J) as HpJ by (apply Z.pow_pos_nonneg; lia).
  assert (0 < a) as Ha by nia.
  destruct (Z.eqb_spec a 0) as [|_]; [lia|].
  rewrite (Z.abs_eq a) by lia.
  destruct (ilog2_spec a b Ha Hb) as [Hs H52].
  set (e0 := ilog2 a b - 52) in *. set (s := Z.log2 b + 53) in *.
  intros [= <- <-].
  assert (0 < 2 ^ (e0 + s)) as HpE by (apply Z.pow_pos_nonneg; lia).
  assert (0 < b * 2 ^ (e0 + s)) as HD by nia.
  set (m := div_rhe (a * 2 ^ s) (b * 2 ^ (e0 + s))).
  assert (2 ^ 52 <= m) as Hm by (apply div_rhe_ge; [done | lia]).
  split; intros He.
  - assert (0 < 2 ^ e0) as Hpe by (apply Z.pow_pos_nonneg; lia).
    destruct (decide (e0 = 0 ∧ J = 0)) as [[He0 HJ0]|Hne].
    + assert (M <= m) as HMm.
      { apply div_rhe_ge; [exact HD|]. replace (e0 + s) with s by lia.
        rewrite HJ0, Z.pow_0_r in Hle.
        assert (0 < 2 ^ s) by (apply Z.pow_pos_nonneg; lia). nia. }
      rewrite He0, HJ0, !Z.pow_0_r. lia.
    + assert (2 <= 2 ^ e0 * 2 ^ J); [|nia].
      rewrite <- Z.pow_add_r by lia.
      change 2 with (2 ^ 1) at 1. apply Z.pow_le_mono_r; lia.
  - assert (0 < 2 ^ (- e0)) as Hpe by (apply Z.pow_pos_nonneg; lia).
    destruct (Z.le_gt_cases J (- e0)) as [Hc|Hc].
    + assert (M * 2 ^ (- e0 - J) <= m) as HN.
      { apply div_rhe_ge; [exact HD|].
        assert (2 ^ s = 2 ^ (e0 + s) * 2 ^ (- e0 - J) * 2 ^ J) as ->.
        { rewrite <- !Z.pow_add_r by lia. f_equal. lia. }
        assert (0 < 2 ^ (- e0 - J)) by (apply Z.pow_pos_nonneg; lia).
        nia. }
      assert (2 ^ (- e0) = 2 ^ (- e0 - J) * 2 ^ J) as ->.
      { rewrite <- Z.pow_add_r by lia. f_equal. lia. }
      nia.
    + assert (2 ^ J = 2 ^ (J + e0) * 2 ^ (- e0)) as ->.
      { rewrite <- Z.pow_add_r by lia. f_equal. lia. }
      assert (2 <= 2 ^ (J + e0)) as H2.
      { change 2 with (2 ^ 1) at 1. apply Z.pow_le_mono_r; lia. }
      assert (2 ^ 53 <= m * 2 ^ (J + e0)) as H53.
      { change (2 ^ 53) with (2 ^ 52 * 2). apply Z.mul_le_mono_nonneg; lia. }
      rewrite Z.mul_assoc. apply Z.mul_le_mono_nonneg_r; lia.
Qed.

Lemma nearest_ge a b M J :
  0 < b → 0 < M < 2 ^ 53 → 0 <= J → M * b <= a * 2 ^ J →
  (M # Z.to_pos (2 ^ J) <= to_Q (nearest a b))%Q.
Proof.
  intros Hb HM HJ Hle.
  destruct (nearest a b) as [m e] eqn:Hn.
  destruct (nearest_sig a b M J m e Hb HM HJ Hle Hn) as [H1 H2].
  assert (0 < 2 ^ J) as HpJ by (apply Z.pow_pos_nonneg; lia).
  unfold to_Q. rewrite Qred_correct.
  destruct (Z.leb_spec 0 e) as [He|He].
  - unfold Qle, inject_Z; cbn [Qnum Qden]. rewrite Z2Pos.id by done.
    specialize (H1 He). lia.
  - assert (0 < 2 ^ (- e)) as Hpe by (apply Z.pow_pos_nonneg; lia).
    unfold Qle; cbn [Qnum Qden]. rewrite !Z2Pos.id by done.
    specialize (H2 He). lia.
Qed.

Lemma hundredths_ge x M J K :
  0 <= J → (2 * K - 1) * 2 ^ J < 200 * M →
  (M # Z.to_pos (2 ^ J) <= x)%Q → K <= hundredths x.
Proof.
  intros HJ HK Hx. unfold hundredths.
  assert (0 < 2 ^ J) as HpJ by (apply Z.pow_pos_nonneg; lia).
  destruct x as [p q]. unfold Qle in Hx; cbn [Qnum Qden] in *.
  rewrite Z2Pos.id in Hx by done.
  apply div_rhe_lower; [lia|]. nia.
Qed.

(** [round(100 * n / t, 2)] when [n] is at least [t]. *)
Lemma round2_truediv_ge_100 n t :
  0 < t → t <= n → (100 <= round2 (truediv (100 * n) t))%Q.
Proof.
  intros Ht Hn. unfold round2, truediv.
  rewrite Z.sgn_pos, Z.abs_eq, Z.mul_1_r by lia.
  assert (10000 <= hundredths (to_Q (nearest (100 * n) t))) as Hh.
  { apply (hundredths_ge _ 100 0); [lia | lia |].
    apply (nearest_ge _ _ 100 0); lia. }
  apply (nearest_ge _ _ 100 0); lia.
Qed.

(** The same when [n] exceeds [t] and [t] is below 20000: the quotient is
    then above 100.005. *)
Lemma round2_truediv_gt_100 n t :
  0 < t < 20000 → t < n → (100 < round2 (truediv (100 * n) t))%Q.
Proof.
  intros Ht Hn. unfold round2, truediv.
  rewrite Z.sgn_pos, Z.abs_eq, Z.mul_1_r by lia.
  assert (10001 <= hundredths (to_Q (nearest (100 * n) t))) as Hh.
  { apply (hundredths_ge _ 1677805487 24); [lia | lia |].
    apply (nearest_ge _ _ 1677805487 24); lia. }
  apply Qlt_le_trans with (12801 # Z.to_pos (2 ^ 7)); [reflexivity|].
  apply (nearest_ge _ _ 12801 7); lia.
Qed.
Lemma div_rhe_near a b : 0 < b → 2 * Z.abs (div_rhe a b * b - a) <= b.
Proof.
  intros Hb. unfold div_rhe.
  pose proof (Z.div_mod a b ltac:(lia)) as Hdm.
  pose proof (Z.mod_pos_bound a b Hb) as Hm.
  destruct (Z.compare_spec (2 * (a mod b)) b) as [Hc|Hc|Hc]; [destruct (Z.even (a / b)) |..]; nia.
Qed.

Lemma nearest_near a b m e :
  0 < a → 0 < b → nearest a b = (m, e) →
  (0 <= e → 2 ^ 53 * Z.abs (m * 2 ^ e * b - a) <= a) ∧
  (e < 0 → 2 ^ 53 * Z.abs (m * b - a * 2 ^ (- e)) <= a * 2 ^ (- e)).
Proof.
  intros Ha Hb. unfold nearest.
  destruct (Z.eqb_spec a 0) as [|_]; [lia|].
  rewrite (Z.abs_eq a) by lia.
  destruct (ilog2_spec a b Ha Hb) as [Hs H52].
  set (e0 := ilog2 a b - 52) in *. set (s := Z.log2 b + 53) in *.
  intros [= <- <-].
  assert (0 <= s) as Hs0 by (pose proof (Z.log2_nonneg b); lia).
  assert (0 < 2 ^ (e0 + s)) as HpE by (apply Z.pow_pos_nonneg; lia).
  assert (0 < 2 ^ s) as Hps by (apply Z.pow_pos_nonneg; lia).
  assert (0 < b * 2 ^ (e0 + s)) as HD by nia.
  pose proof (div_rhe_near (a * 2 ^ s) (b * 2 ^ (e0 + s)) HD) as Hnear.
  set (m := div_rhe (a * 2 ^ s) (b * 2 ^ (e0 + s))) in *.
  change (2 ^ 53) with (2 * 2 ^ 52).
  split; intros He.
  - assert (2 ^ (e0 + s) = 2 ^ e0 * 2 ^ s) as Hsplit by (apply Z.pow_add_r; lia).
    rewrite Hsplit in *.
    assert (m * (b * (2 ^ e0 * 2 ^ s)) - a * 2 ^ s = (m * 2 ^ e0 * b - a) * 2 ^ s) as Heq by ring.
    rewrite Heq, Z.abs_mul, (Z.abs_eq (2 ^ s)) in Hnear by lia.
    nia.
  - assert (2 ^ s = 2 ^ (e0 + s) * 2 ^ (- e0)) as Hsplit.
    { rewrite <- Z.pow_add_r by lia. f_equal. lia. }
    assert (0 < 2 ^ (- e0)) as Hpe by (apply Z.pow_pos_nonneg; lia).
    rewrite Hsplit in Hnear, H52.
    assert (m * (b * 2 ^ (e0 + s)) - a * (2 ^ (e0 + s) * 2 ^ (- e0))
            = (m * b - a * 2 ^ (- e0)) * 2 ^ (e0 + s)) as Heq by ring.
    rewrite Heq, Z.abs_mul, (Z.abs_eq (2 ^ (e0 + s))) in Hnear by lia.
    nia.
Qed.

(** The double nearest to [a / b] is within a relative error of 2^-53. *)
Lemma truediv_near a b :
  0 <= a → 0 < b →
  (Qabs (truediv a b * inject_Z b - inject_Z a) * inject_Z (2 ^ 53) <= inject_Z a)%Q.
Proof.
  intros Ha Hb. unfold truediv. rewrite Z.sgn_pos, Z.abs_eq, Z.mul_1_r by lia.
  destruct (Z.eq_dec a 0) as [->|Hne]; [by vm_compute|].
  destruct (nearest a b) as [m e] eqn:Hn.
  destruct (nearest_near a b m e ltac:(lia) Hb Hn) as [H1 H2].
  unfold to_Q. rewrite Qred_correct.
  destruct (Z.leb_spec 0 e) as [He|He].
  - specialize (H1 He).
    unfold Qle, Qabs, Qminus, Qplus, Qmult, Qopp, inject_Z; cbn [Qnum Qden].
    rewrite !Z.mul_1_r.
    replace (m * 2 ^ e * b + - a) with (m * 2 ^ e * b - a) by ring.
    lia.
  - specialize (H2 He).
    assert (0 < 2 ^ (- e)) as Hpe by (apply Z.pow_pos_nonneg; lia).
    unfold Qle, Qabs, Qminus, Qplus, Qmult, Qopp, inject_Z; cbn [Qnum Qden].
    rewrite !Pos.mul_1_r, !Z.mul_1_r, Z2Pos.id by done.
    replace (m * b + - a * 2 ^ (- e)) with (m * b - a * 2 ^ (- e)) by ring.
    lia.
Qed.

(** [round(x, 2)] takes the nearest number of hundredths. *)
Lemma hundredths_near x : (Qabs (100 * x - inject_Z (hundredths x)) <= 1 # 2)%Q.
Proof.
  unfold hundredths. destruct x as [p q].
  pose proof (div_rhe_near (100 * p) (Z.pos q) ltac:(lia)) as Hnear. cbn [Qnum Qden].
  set (k := div_rhe (100 * p) (Z.pos q)) in *.
  unfold Qle, Qabs, Qminus, Qplus, Qmult, Qopp, inject_Z; cbn [Qnum Qden].
  rewrite !Pos.mul_1_r, !Z.mul_1_r, !Pos.mul_1_l. lia.
Qed.

Lemma truediv_nonneg a b : 0 <= a → 0 < b → (0 <= truediv a b)%Q.
Proof.
  intros Ha Hb. unfold truediv. rewrite Z.sgn_pos, Z.abs_eq, Z.mul_1_r by lia.
  unfold nearest. destruct (Z.eqb_spec a 0) as [|Hne]; [by vm_compute|].
  rewrite (Z.abs_eq a) by lia.
  destruct (ilog2_spec a b ltac:(lia) Hb) as [Hs _].
  set (e := ilog2 a b - 52) in *. set (s := Z.log2 b + 53) in *.
  assert (0 <= s) as Hs0 by (pose proof (Z.log2_nonneg b); lia).
  assert (0 < 2 ^ (e + s)) as HpE by (apply Z.pow_pos_nonneg; lia).
  assert (0 < 2 ^ s) as Hps by (apply Z.pow_pos_nonneg; lia).
  assert (0 <= div_rhe (a * 2 ^ s) (b * 2 ^ (e + s))) as Hm by (apply div_rhe_ge; nia).
  unfold to_Q. rewrite Qred_correct.
  destruct (Z.leb_spec 0 e) as [He|He]; unfold Qle, inject_Z; cbn [Qnum Qden].
  - assert (0 < 2 ^ e) by (apply Z.pow_pos_nonneg; lia). nia.
  - lia.
Qed.

(** What [round(a / b, 2)] is: [x] is the double nearest to [a / b], [k] the
    number of hundredths nearest to [x], and the result the double nearest
    to [k / 100]. *)
Lemma round2_truediv_spec a b :
  0 <= a → 0 < b →
  let x := truediv a b in
  let k := hundredths x in
  round2 x = truediv k 100 ∧ 0 <= k ∧
  (Qabs (x * inject_Z b - inject_Z a) * inject_Z (2 ^ 53) <= inject_Z a)%Q ∧
  (Qabs (100 * x - inject_Z k) <= 1 # 2)%Q ∧
  (Qabs (round2 x * inject_Z 100 - inject_Z k) * inject_Z (2 ^ 53) <= inject_Z k)%Q.
Proof.
  intros Ha Hb x k.
  assert (round2 x = truediv k 100) as Hr.
  { unfold round2, truediv. change (Z.sgn 100) with 1. change (Z.abs 100) with 100.
    by rewrite Z.mul_1_r. }
  assert (0 <= k) as Hk.
  { pose proof (truediv_nonneg a b Ha Hb) as Hx. fold x in Hx. subst k. unfold hundredths.
    destruct x as [p q]. unfold Qle in Hx; cbn [Qnum Qden] in *.
    apply div_rhe_ge; lia. }
  split; [done|]. split; [done|]. split; [by apply truediv_near|].
  split; [apply hundredths_near|]. rewrite Hr. by apply truediv_near.
Qed.
End PyFloatFacts.

(** ** The store and the handlers *)

Section Facts.
Context `{!StoreOps}.

Lemma bind_run {A B} (m : M A) (k : A → M B) w :
  (m ≫= k) w = match m w with (Ok a, w') => k a w' | (Raise e, w') => (Raise e, w') end.
Proof. reflexivity. Qed.

Lemma find_one_run s name f : find_one name f (Some s) = (Ok (lookup s name f), Some s).
Proof. reflexivity. Qed.

Lemma or_else_run {A} (a b : M (option A)) w :
  or_else a b w
  = match a w with
    | (Ok (Some x), w') => (Ok (Some x), w')
    | (Ok None, w') => b w'
    | (Raise e, w') => (Raise e, w')
    end.
Proof. unfold or_else. rewrite bind_run. destruct (a w) as [[[x|]|e] w']; reflexivity. Qed.

Lemma value_eqb_str c w : value_eqb (VStr c) w = true ↔ w = VStr c.
Proof.
  destruct w; simpl; try (split; [discriminate | intros [=]]).
  rewrite String.eqb_eq. split; [by intros -> | by intros [= ->]].
Qed.

Lemma value_eqb_id i j : value_eqb (id_value i) (id_value j) = true ↔ i = j.
Proof.
  destruct i, j; simpl; try (split; [discriminate | intros [=]]).
  - rewrite N.eqb_eq. split; [by intros -> | by intros [= ->]].
  - rewrite String.eqb_eq. split; [by intros -> | by intros [= ->]].
Qed.

Lemma cond_holds_str c fv : cond_holds (CEq (VStr c)) fv = true ↔ fv = Some (VStr c).
Proof.
  destruct fv as [w|]; [|by split].
  change (cond_holds (CEq (VStr c)) (Some w)) with (value_eqb (VStr c) w).
  rewrite value_eqb_str. naive_solver.
Qed.

Lemma Matches_singleton k c d :
  Matches {[ k := c ]} d ↔ cond_holds c (doc_get d k) = true.
Proof. unfold Matches. by rewrite map_Forall_singleton. Qed.

Lemma Matches_empty d : Matches ∅ d.
Proof. apply map_Forall_empty. Qed.

Lemma Matches_id i d : Matches {[ "_id" := CEq (id_value i) ]} d ↔ doc_id d = i.
Proof.
  rewrite Matches_singleton. unfold doc_get; simpl.
  transitivity (value_eqb (id_value i) (id_value (doc_id d)) = true).
  - by destruct i.
  - rewrite value_eqb_id. naive_solver.
Qed.

Lemma Matches_eq_str k c d :
  k ≠ "_id" → Matches {[ k := CEq (VStr c) ]} d ↔ doc_body d !! k = Some (VStr c).
Proof.
  intros Hk. rewrite Matches_singleton. unfold doc_get.
  destruct (String.eqb_spec k "_id") as [|_]; [done|].
  apply cond_holds_str.
Qed.

Lemma Matches_pair u c d :
  Matches (pair_filter u c) d
  ↔ doc_body d !! "user_id" = Some (VStr u) ∧ doc_body d !! "course_id" = Some (VStr c).
Proof.
  unfold pair_filter, Matches. rewrite map_Forall_insert by done.
  rewrite map_Forall_singleton, !cond_holds_str. done.
Qed.

(** C1 (the code departs from the claim).  With a database, every call of
    [create_payment_session] raises [TypeError] while the payment document
    is being built, whether or not the course exists: [float] is applied
    to the dict, not to the price.  No payment document is recorded and
    nothing is returned. *)
Theorem create_payment_session_type_error s req r :
  create_payment_session req r (Some s)
  = (Raise (TypeError "float() argument must be a string or a real number, not 'dict'"),
     Some s).
Proof.
  unfold create_payment_session. rewrite bind_run, find_one_run.
  destruct (lookup s "course" {[ "_id" := COid (pay_course_id req) ]}) as [d|];
    rewrite bind_run; reflexivity.
Qed.

Lemma course_detail_run s course_id :
    match lookup s "course" {[ "_id" := COid course_id ]},
          lookup s "course" {[ "_id" := CEq (VStr course_id) ]} with
    | Some d, _ | None, Some d => course_detail course_id (Some s) = (Ok (to_dict d), Some s)
    | None, None =>
        course_detail course_id (Some s) = (Raise (HTTPException 404 "Course not found"), Some s)
    end.
Proof.
  unfold course_detail. rewrite bind_run, or_else_run, !find_one_run.
  destruct (lookup s "course" {[ "_id" := COid course_id ]}) as [d|]; [reflexivity|].
  destruct (lookup s "course" {[ "_id" := CEq (VStr course_id) ]}) as [d|]; reflexivity.
Qed.

Lemma create_document_run s name data :
  create_document name data (Some s) = (Ok (oid_hex (next_oid s)), Some (insert_one name data s)).
Proof. reflexivity. Qed.

Lemma coll_insert_one s name body name' :
  coll (insert_one name body s) name'
  = if decide (name = name')
    then coll s name ++ [Document (ObjectId (next_oid s)) body]
    else coll s name'.
Proof.
  unfold insert_one, coll at 1; simpl. case_decide as Hn.
  - subst. by rewrite lookup_insert_eq.
  - by rewrite lookup_insert_ne.
Qed.

Lemma head_filter_None {A} (P : A → Prop) `{!∀ x, Decision (P x)} (l : list A) :
  head (filter P l) = None → filter P l = [].
Proof. by destruct (filter P l). Qed.

Lemma lookup_insert_one s name body f :
  lookup (insert_one name body s) name f
  = match lookup s name f with
    | Some d => Some d
    | None =>
        if decide (Matches f (Document (ObjectId (next_oid s)) body))
        then Some (Document (ObjectId (next_oid s)) body) else None
    end.
Proof.
  unfold lookup. rewrite coll_insert_one, decide_True by done.
  rewrite filter_app. destruct (filter (Matches f) (coll s name)) as [|d l] eqn:E; [|done].
  simpl. rewrite filter_cons, filter_nil. by case_decide.
Qed.

Lemma lookup_insert_one_ne s name body name' f :
  name ≠ name' → lookup (insert_one name body s) name' f = lookup s name' f.
Proof. intros Hn. unfold lookup. by rewrite coll_insert_one, decide_False. Qed.

Lemma for_each_create s name (l : list (gmap string value)) :
  for_each (λ c, _ ← create_document name c; mret tt) l (Some s)
  = (Ok tt, Some (foldl (λ s c, insert_one name c s) s l)).
Proof.
  revert s. induction l as [|c l IH]; intros s; [reflexivity|].
  cbn [for_each foldl]. rewrite bind_run, bind_run, create_document_run.
  cbn [mret M_ret]. apply IH.
Qed.

Lemma next_oid_foldl_insert s name (l : list (gmap string value)) :
  next_oid (foldl (λ s c, insert_one name c s) s l) = (next_oid s + N.of_nat (length l))%N.
Proof.
  revert s. induction l as [|c l IH]; intros s; cbn [foldl length]; [lia|].
  rewrite IH. unfold insert_one; simpl. lia.
Qed.

Lemma coll_foldl_insert s name (l : list (gmap string value)) name' :
  coll (foldl (λ s c, insert_one name c s) s l) name'
  = if decide (name = name')
    then coll s name ++ imap (λ i c, Document (ObjectId (next_oid s + N.of_nat i)) c) l
    else coll s name'.
Proof.
  revert s. induction l as [|c l IH]; intros s; cbn [foldl imap].
  - case_decide; [subst; by rewrite app_nil_r | done].
  - rewrite IH. case_decide; [subst|by rewrite coll_insert_one, decide_False].
    rewrite coll_insert_one, decide_True by done.
    rewrite <- app_assoc. f_equal. cbn [app]. f_equal.
    + do 2 f_equal. lia.
    + apply imap_ext. intros i x _. unfold insert_one; simpl. do 2 f_equal. lia.
Qed.

Lemma fmap_imap_body n (l : list (gmap string value)) :
  doc_body <$> imap (λ i c, Document (ObjectId (n + N.of_nat i)) c) l = l.
Proof.
  rewrite fmap_imap. transitivity (imap (const id) l); [by apply imap_ext|].
  rewrite imap_const. apply list_fmap_id.
Qed.

(** C9.  At startup, [seed_data] on an empty course collection inserts the
    five sample courses, in order, and touches no other collection; on a
    non-empty course collection it leaves the database as it is.  (Without
    a database it returns at once.) *)
Theorem seed_data_spec s :
  seed_data None = (Ok tt, None) ∧
  match coll s "course" with
  | [] =>
      seed_data (Some s) = (Ok tt, Some (seeded s)) ∧
      doc_body <$> coll (seeded s) "course" = sample_courses ∧
      length (coll (seeded s) "course") = 5 ∧
      ∀ name, name ≠ "course" → coll (seeded s) name = coll s name
  | _ :: _ => seed_data (Some s) = (Ok tt, Some s)
  end.
Proof.
  split; [reflexivity|].
  destruct (coll s "course") as [|d c] eqn:Hc.
  - split; [|split; [|split]].
    + unfold seed_data, count_documents. rewrite bind_run, bind_run.
      change (collection "course" (Some s)) with (Ok (coll s "course"), Some s).
      rewrite Hc. cbn [mret M_ret filter list_filter length Z.of_nat Z.eqb].
      apply for_each_create.
    + unfold seeded. rewrite coll_foldl_insert, decide_True, Hc by done.
      apply fmap_imap_body.
    + unfold seeded. rewrite coll_foldl_insert, decide_True, Hc by done. reflexivity.
    + intros name Hn. unfold seeded. by rewrite coll_foldl_insert, decide_False.
  - unfold seed_data, count_documents. rewrite bind_run, bind_run.
    change (collection "course" (Some s)) with (Ok (coll s "course"), Some s).
    rewrite Hc. cbn [mret M_ret]. rewrite filter_cons, decide_True by apply Matches_empty.
    reflexivity.
Qed.

(** C5.  Two calls of [issue_certificate] for the same pair, one after the
    other, return the same certificate_code, whatever the two random draws
    are: the second call finds the certificate of the pair and writes
    nothing.  When the pair had no certificate, the code is the one drawn
    by the first call. *)
Theorem issue_certificate_twice s u c r1 now1 r2 now2 :
  ∃ d1 d2 s1,
    issue_certificate u c r1 now1 (Some s) = (Ok d1, Some s1) ∧
    issue_certificate u c r2 now2 (Some s1) = (Ok d2, Some s1) ∧
    d1 !! "certificate_code" = d2 !! "certificate_code" ∧
    match lookup s "certificate" (pair_filter u c) with
    | Some d => s1 = s ∧ d1 = to_dict d
    | None =>
        s1 = insert_one "certificate" (certificate_doc u c r1 now1) s ∧
        d1 !! "certificate_code" = Some (VStr ("FO-" +:+ str_of_int r1))
    end.
Proof.
  unfold issue_certificate. setoid_rewrite bind_run. setoid_rewrite find_one_run.
  destruct (lookup s "certificate" (pair_filter u c)) as [d|] eqn:Hl.
  - exists (to_dict d), (to_dict d), s. rewrite Hl. done.
  - setoid_rewrite bind_run. setoid_rewrite create_document_run.
    eexists _, _, _. split; [reflexivity|].
    rewrite lookup_insert_one, Hl, decide_True by (by apply Matches_pair).
    split; [reflexivity|]. done.
Qed.

(** C2 (amended).  For a pair without an enrollment, the first call of
    [enroll] stores a record with status "enrolled" and progress 0.0 and
    returns only its _id and its status; the second call returns the
    stored record, with status "enrolled" and progress 0.0, and writes
    nothing.  Neither call raises. *)
Theorem enroll_twice s enr :
  lookup s "enrollment" (pair_filter (enr_user_id enr) (enr_course_id enr)) = None →
  let s1 := insert_one "enrollment" (enrollment_doc (enr_user_id enr) (enr_course_id enr)) s in
  enroll enr (Some s)
  = (Ok {[ "_id" := VStr (oid_hex (next_oid s)); "status" := VStr "enrolled" ]}, Some s1) ∧
  ∃ d2, enroll enr (Some s1) = (Ok d2, Some s1) ∧
        d2 !! "_id" = Some (VOid (next_oid s)) ∧
        d2 !! "user_id" = Some (VStr (enr_user_id enr)) ∧
        d2 !! "course_id" = Some (VStr (enr_course_id enr)) ∧
        d2 !! "status" = Some (VStr "enrolled") ∧
        d2 !! "progress" = Some (VFloat 0).
Proof.
  intros Hl s1. unfold enroll. rewrite !bind_run, !find_one_run, Hl.
  rewrite bind_run, create_document_run. split; [reflexivity|].
  subst s1. rewrite lookup_insert_one, Hl, decide_True by (by apply Matches_pair).
  eexists. split; [reflexivity|]. done.
Qed.




Lemma count_correct_outcome answers idx qs c w :
  (∃ n, count_correct answers idx qs c w = (Ok n, w)) ∨
  count_correct answers idx qs c w
  = (Raise (AttributeError "'str' object has no attribute 'get'"), w).
Proof.
  revert idx c. induction qs as [|q qs IH]; intros idx c; cbn [count_correct].
  - left. by eexists.
  - rewrite bind_run. destruct (answers !! idx) as [a|]; [destruct q|]; cbn [mret M_ret raise];
      [by right | apply IH | apply IH].
Qed.

Lemma count_correct_dicts answers idx (qs : list question) c w :
  count_correct answers idx (IDict <$> qs) c w
  = (Ok (c + hits (drop idx answers) qs)%Z, w).
Proof.
  revert idx c. induction qs as [|q qs IH]; intros idx c; cbn [count_correct fmap list_fmap].
  - unfold hits. rewrite zip_with_nil_r. cbn. by rewrite Z.add_0_r.
  - rewrite bind_run. destruct (answers !! idx) as [a|] eqn:Ha; cbn [mret M_ret].
    + rewrite IH. rewrite (drop_S _ _ _ Ha). unfold hits. cbn [zip_with].
      rewrite filter_cons. cbn [fst snd].
      destruct (py_eq_int a (dict_get "answer" q)); [rewrite decide_True by done|rewrite decide_False by done];
        cbn [length]; do 2 f_equal; lia.
    + rewrite IH. apply lookup_ge_None in Ha.
      rewrite !drop_ge by lia. done.
Qed.

Lemma py_truediv_run a b w : b ≠ 0%Z → py_truediv a b w = (Ok (PyFloat.truediv a b), w).
Proof. intros Hb. unfold py_truediv. by destruct (Z.eqb_spec b 0). Qed.

Lemma submit_quiz_lookup s payload :
  submit_quiz payload (Some s)
  = match quiz_lookup s (qs_quiz_id payload) with
    | None => (Raise (HTTPException 404 "Quiz not found"), Some s)
    | Some d =>
        (qs ← py_iter (default (VStrs []) (doc_body d !! "questions"));
         correct ← count_correct (qs_answers payload) 0 qs 0;
         x ← py_truediv (100 * correct) (Z.max 1 (Z.of_nat (length qs)));
         mret {[ "quiz_id" := VStr (id_str (doc_id d)); "score" := VFloat (py_round2 x) ]})
          (Some s)
    end.
Proof.
  unfold submit_quiz, quiz_lookup. rewrite bind_run, or_else_run, !find_one_run.
  destruct (lookup s "quiz" {[ "_id" := CEq (VStr (qs_quiz_id payload)) ]}); [done|].
  destruct (lookup s "quiz" {[ "_id" := COid (qs_quiz_id payload) ]}); done.
Qed.

Lemma submit_quiz_found_not_404 s payload d :
  quiz_lookup s (qs_quiz_id payload) = Some d →
  (submit_quiz payload (Some s)).1 ≠ Raise (HTTPException 404 "Quiz not found").
Proof.
  intros Hd. rewrite submit_quiz_lookup, Hd, bind_run.
  destruct (default (VStrs []) (doc_body d !! "questions")); try discriminate;
    cbn [py_iter mret M_ret];
    rewrite bind_run;
    match goal with
    | |- context [count_correct ?a ?i ?q ?c ?w] =>
        destruct (count_correct_outcome a i q c w) as [[n ->]| ->]; [|discriminate]
    end;
    rewrite bind_run, py_truediv_run by lia; discriminate.
Qed.

(** C8.  With a database, [course_detail] raises the 404 error exactly when
    both of its lookups find no course, and returns the document found
    otherwise (the one of the first lookup when both find one);
    [submit_quiz] raises the 404 error exactly when both of its lookups
    find no quiz. *)
Theorem lookup_failure_is_404 :
  (∀ s course_id,
     match lookup s "course" {[ "_id" := COid course_id ]},
           lookup s "course" {[ "_id" := CEq (VStr course_id) ]} with
     | Some d, _ | None, Some d => course_detail course_id (Some s) = (Ok (to_dict d), Some s)
     | None, None =>
         course_detail course_id (Some s)
         = (Raise (HTTPException 404 "Course not found"), Some s)
     end) ∧
  (∀ s payload,
     (submit_quiz payload (Some s)).1 = Raise (HTTPException 404 "Quiz not found")
     ↔ lookup s "quiz" {[ "_id" := CEq (VStr (qs_quiz_id payload)) ]} = None ∧
       lookup s "quiz" {[ "_id" := COid (qs_quiz_id payload) ]} = None).
Proof.
  split; [apply course_detail_run|]. intros s payload. split.
  - intros H404. destruct (quiz_lookup s (qs_quiz_id payload)) as [d|] eqn:Hd.
    + by destruct (submit_quiz_found_not_404 s payload d Hd).
    + unfold quiz_lookup in Hd.
      destruct (lookup s "quiz" {[ "_id" := CEq (VStr (qs_quiz_id payload)) ]}); done.
  - intros [H1 H2]. rewrite submit_quiz_lookup. unfold quiz_lookup. by rewrite H1, H2.
Qed.

Lemma submit_quiz_run s payload d (qs : list question) :
  quiz_lookup s (qs_quiz_id payload) = Some d →
  default (VDicts []) (doc_body d !! "questions") = VDicts qs →
  submit_quiz payload (Some s)
  = (Ok {[ "quiz_id" := VStr (id_str (doc_id d));
           "score" := VFloat (py_round2 (PyFloat.truediv
                        (100 * hits (qs_answers payload) qs)
                        (Z.max 1 (Z.of_nat (length qs))))) ]},
     Some s).
Proof.
  intros Hd Hq. rewrite submit_quiz_lookup, Hd, bind_run.
  assert (py_iter (default (VStrs []) (doc_body d !! "questions")) (Some s)
          = (Ok (IDict <$> qs), Some s)) as ->.
  { destruct (doc_body d !! "questions") as [v|]; simpl in Hq; [by subst|].
    injection Hq as <-. done. }
  rewrite bind_run, count_correct_dicts, bind_run, py_truediv_run by lia.
  rewrite length_fmap, drop_0, Z.add_0_l. done.
Qed.



(** C4.  For a stored quiz whose questions are a list of dicts,
    [submit_quiz] compares the answers with the stored ones position by
    position, a question without a submitted answer counting as incorrect,
    and returns 100 * correct / total rounded to two decimals, with a
    denominator of at least 1.  Against the two seeded questions, the
    answers 1, 0 score 100.0 and the answers 0, 0 score 50.0. *)
Theorem submit_quiz_spec s payload d (qs : list question) :
  quiz_lookup s (qs_quiz_id payload) = Some d →
  default (VDicts []) (doc_body d !! "questions") = VDicts qs →
  submit_quiz payload (Some s)
  = (Ok {[ "quiz_id" := VStr (id_str (doc_id d));
           "score" := VFloat (quiz_score (qs_answers payload) qs) ]},
     Some s) ∧
  (0 <= hits (qs_answers payload) qs <= Z.of_nat (length qs))%Z ∧
  quiz_score [1; 0]%Z seed_questions = 100%Q ∧
  quiz_score [0; 0]%Z seed_questions = 50%Q.
Proof.
  intros Hd Hq. split; [by apply submit_quiz_run|]. split; [|split; reflexivity].
  unfold hits. split; [lia|]. apply Nat2Z.inj_le.
  etrans; [apply length_filter|]. rewrite length_zip_with. lia.
Qed.

Lemma coll_set_coll s name c name' :
  coll (set_coll name c s) name' = if decide (name = name') then c else coll s name'.
Proof.
  unfold set_coll, coll at 1; simpl. case_decide as Hn.
  - subst. by rewrite lookup_insert_eq.
  - by rewrite lookup_insert_ne.
Qed.

Lemma update_first_at f upd l1 d l2 :
  Forall (λ x, ¬ Matches f x) l1 → Matches f d →
  update_first f upd (l1 ++ d :: l2) = Some (l1 ++ set_fields upd d :: l2).
Proof.
  intros Hl1 Hd. induction Hl1 as [|x l1 Hx _ IH]; cbn [app update_first].
  - by rewrite decide_True.
  - by rewrite decide_False, IH.
Qed.

Lemma update_first_None f upd c :
  Forall (λ x, ¬ Matches f x) c → update_first f upd c = None.
Proof.
  induction 1 as [|x c Hx _ IH]; cbn [update_first]; [done|].
  by rewrite decide_False, IH.
Qed.

Lemma head_filter_at {A} (P : A → Prop) `{!∀ x, Decision (P x)} l1 d l2 :
  Forall (λ x, ¬ P x) l1 → P d → head (filter P (l1 ++ d :: l2)) = Some d.
Proof.
  intros Hl1 Hd. induction Hl1 as [|x l1 Hx _ IH]; cbn [app].
  - by rewrite filter_cons, decide_True.
  - by rewrite filter_cons, decide_False.
Qed.

Lemma filter_nil_Forall {A} (P : A → Prop) `{!∀ x, Decision (P x)} (l : list A) :
  filter P l = [] → Forall (λ x, ¬ P x) l.
Proof.
  intros Hf. apply Forall_forall. intros x Hx HP.
  assert (x ∈ filter P l) as Hin by (by apply list_elem_of_filter).
  rewrite Hf in Hin. by apply not_elem_of_nil in Hin.
Qed.

Lemma lookup_None_Forall s name f :
  lookup s name f = None → Forall (λ x, ¬ Matches f x) (coll s name).
Proof.
  intros Hl. apply (filter_nil_Forall (Matches f)).
  by apply (head_filter_None (Matches f)).
Qed.

Lemma lookup_Some_split s name f d :
  lookup s name f = Some d →
  Matches f d ∧ ∃ l1 l2, coll s name = l1 ++ d :: l2 ∧ Forall (λ x, ¬ Matches f x) l1.
Proof.
  intros Hl. split.
  - assert (d ∈ filter (Matches f) (coll s name)) as Hin.
    { unfold lookup in Hl. destruct (filter (Matches f) (coll s name)); [done|].
      injection Hl as ->. apply list_elem_of_here. }
    by apply list_elem_of_filter in Hin as [? _].
  - exact (head_filter_Some (Matches f) _ _ Hl).
Qed.

(** In a collection with unique identifiers, the filter on the [_id] of a
    document finds that document. *)
Lemma id_filter_at l1 d l2 :
  NoDup (doc_id <$> (l1 ++ d :: l2)) →
  Forall (λ x, ¬ Matches {[ "_id" := CEq (id_value (doc_id d)) ]} x) l1.
Proof.
  rewrite fmap_app, fmap_cons. intros Hnd.
  apply NoDup_app in Hnd as (_ & Hdis & _).
  apply Forall_forall. intros x Hx Hm. apply Matches_id in Hm.
  apply (Hdis (doc_id x)); [by apply list_elem_of_fmap_2|].
  rewrite Hm. apply list_elem_of_here.
Qed.

Lemma update_one_run s name f upd upsert :
  update_one name f upd upsert (Some s) = (Ok tt, Some (apply_update name f upd upsert s)).
Proof. reflexivity. Qed.

Lemma count_documents_run s name f :
  count_documents name f (Some s)
  = (Ok (Z.of_nat (length (filter (Matches f) (coll s name)))), Some s).
Proof. reflexivity. Qed.

Lemma coll_apply_update_ne s name f upd upsert name' :
  name ≠ name' → coll (apply_update name f upd upsert s) name' = coll s name'.
Proof.
  intros Hn. unfold apply_update.
  destruct (update_first f upd (coll s name)); [by rewrite coll_set_coll, decide_False|].
  destruct upsert; [by rewrite coll_insert_one, decide_False | done].
Qed.

Lemma coll_progress_written_ne p completed now s name :
  name ≠ "progress" → coll (progress_written p completed now s) name = coll s name.
Proof.
  intros Hn. unfold progress_written.
  destruct (lookup s "progress" _).
  - by apply coll_apply_update_ne.
  - by rewrite coll_insert_one, decide_False.
Qed.

Lemma py_set_typed d w :
  progress_typed d →
  py_set (default (VStrs []) (doc_body d !! "completed_lessons")) w
  = (Ok (match doc_body d !! "completed_lessons" with
         | Some (VStrs l) => list_to_set l
         | _ => ∅
         end), w).
Proof.
  unfold progress_typed. destruct (doc_body d !! "completed_lessons") as [[]|]; done.
Qed.

Lemma mark_progress_run s p now :
  Forall progress_typed (coll s "progress") →
  let u := pu_user_id p in
  let c := pu_course_id p in
  let completed := completed_of s u c ∪ {[ pu_lesson_id p ]} in
  let percent := percent_of (size completed) (lesson_count s c) in
  mark_progress p now (Some s)
  = (Ok {[ "progress" := VFloat percent ]},
     Some (apply_update "enrollment" (pair_filter u c) {[ "progress" := VFloat percent ]} true
             (progress_written p completed now s))).
Proof.
  intros Hty u c completed percent.
  unfold mark_progress. rewrite bind_run, find_one_run.
  assert ((match lookup s "progress" (pair_filter u c) with
     | Some d => py_set (default (VStrs []) (doc_body d !! "completed_lessons"))
     | None => mret ∅
     end) (Some s) = (Ok (completed_of s u c), Some s)) as Hset.
  { unfold completed_of.
    destruct (lookup s "progress" (pair_filter u c)) as [d|] eqn:Hl; [|done].
    apply py_set_typed. apply lookup_Some_split in Hl as (_ & l1 & l2 & Hc & _).
    rewrite Forall_forall in Hty. apply Hty. rewrite Hc. set_solver. }
  fold u c. cbv beta iota. rewrite bind_run, Hset. fold completed.
  rewrite bind_run.
  assert ((match lookup s "progress" (pair_filter u c) with
     | Some d => update_one "progress" {[ "_id" := CEq (id_value (doc_id d)) ]}
                   (progress_data p completed now) false
     | None => _ ← create_document "progress" (progress_data p completed now); mret tt
     end) (Some s) = (Ok tt, Some (progress_written p completed now s))) as ->.
  { unfold progress_written. fold u c.
    destruct (lookup s "progress" (pair_filter u c)) as [d|]; reflexivity. }
  rewrite bind_run, count_documents_run.
  rewrite coll_progress_written_ne by done.
  fold (lesson_count s c).
  rewrite bind_run, py_truediv_run by (destruct (Z.eqb_spec (lesson_count s c) 0); unfold lesson_count in *; lia).
  rewrite bind_run, update_one_run. reflexivity.
Qed.



Lemma update_first_ids f upd c c' :
  update_first f upd c = Some c' → doc_id <$> c' = doc_id <$> c.
Proof.
  revert c'. induction c as [|d c IH]; intros c'; cbn [update_first]; [done|].
  case_decide.
  - by intros [= <-].
  - destruct (update_first f upd c) as [c0|]; [|done].
    intros [= <-]. rewrite !fmap_cons. f_equal. by apply IH.
Qed.

Lemma update_first_Forall (P : document → Prop) f upd c c' :
  update_first f upd c = Some c' →
  (∀ d, P (set_fields upd d)) → Forall P c → Forall P c'.
Proof.
  intros Hu Hupd. revert c' Hu.
  induction c as [|d c IH]; intros c' Hu Hc; cbn [update_first] in Hu; [done|].
  apply Forall_cons in Hc as [Hd Hc]. case_decide.
  - injection Hu as <-. by apply Forall_cons.
  - destruct (update_first f upd c) as [c0|]; [|done].
    injection Hu as <-. apply Forall_cons. split; [done|]. by apply IH.
Qed.

Lemma ids_ok_mono n n' c : (n <= n')%N → ids_ok n c → ids_ok n' c.
Proof. intros Hn [Hnd Hlt]. split; [done|]. intros m Hm. specialize (Hlt m Hm). lia. Qed.

Lemma ids_ok_snoc n c body :
  ids_ok n c → ids_ok (N.succ n) (c ++ [Document (ObjectId n) body]).
Proof.
  intros [Hnd Hlt]. split.
  - rewrite fmap_app. apply NoDup_app. split; [done|]. split.
    + intros i Hi Hi'. apply list_elem_of_singleton in Hi'. simpl in Hi'. subst i.
      specialize (Hlt n Hi). lia.
    + apply NoDup_singleton.
  - intros m. rewrite fmap_app, elem_of_app. intros [Hm|Hm].
    + specialize (Hlt m Hm). lia.
    + apply list_elem_of_singleton in Hm. simpl in Hm. injection Hm as ->. lia.
Qed.

Lemma progress_typed_upd upd d l :
  upd !! "completed_lessons" = Some (VStrs l) → progress_typed (set_fields upd d).
Proof.
  intros Hu. unfold progress_typed, set_fields; simpl.
  by rewrite (lookup_union_Some_l _ _ _ _ Hu).
Qed.

Lemma store_ok_insert_one s name body :
  store_ok s →
  (name = "progress" → ∃ l, body !! "completed_lessons" = Some (VStrs l)) →
  store_ok (insert_one name body s).
Proof.
  intros [Hids Hty] Hbody. split.
  - intros name'. rewrite coll_insert_one. cbn [next_oid insert_one]. case_decide.
    + apply ids_ok_snoc, Hids.
    + apply (ids_ok_mono (next_oid s)); [lia | apply Hids].
  - rewrite coll_insert_one. case_decide as Hn; [|done].
    destruct (Hbody Hn) as [l Hl]. subst name.
    apply Forall_app. split; [done|]. apply Forall_singleton.
    unfold progress_typed; simpl. by rewrite Hl.
Qed.

Lemma store_ok_apply_update s name f upd upsert :
  store_ok s →
  (name = "progress" → ∃ l, upd !! "completed_lessons" = Some (VStrs l)) →
  store_ok (apply_update name f upd upsert s).
Proof.
  intros Hok Hupd. unfold apply_update.
  destruct (update_first f upd (coll s name)) as [c'|] eqn:Hu.
  - destruct Hok as [Hids Hty]. split.
    + intros name'. rewrite coll_set_coll. cbn [next_oid set_coll].
      case_decide; [|apply Hids].
      unfold ids_ok. rewrite (update_first_ids _ _ _ _ Hu). apply Hids.
    + rewrite coll_set_coll. case_decide as Hn; [|done]. subst name.
      destruct (Hupd eq_refl) as [l Hl].
      apply (update_first_Forall _ _ _ _ _ Hu); [|done].
      intros d. by apply (progress_typed_upd _ _ l).
  - destruct upsert; [|done]. apply store_ok_insert_one; [done|].
    intros Hn. destruct (Hupd Hn) as [l Hl]. exists l.
    by rewrite (lookup_union_Some_l _ _ _ _ Hl).
Qed.

Lemma store_ok_empty : store_ok empty_store.
Proof.
  split.
  - intros name. unfold coll, empty_store; simpl. rewrite lookup_empty. simpl.
    split; [apply NoDup_nil_2 | intros n Hn; by apply not_elem_of_nil in Hn].
  - unfold coll, empty_store; simpl. rewrite lookup_empty. by apply Forall_nil.
Qed.

Lemma store_ok_progress_written s p completed now :
  store_ok s → store_ok (progress_written p completed now s).
Proof.
  intros Hok. unfold progress_written.
  destruct (lookup s "progress" _).
  - apply store_ok_apply_update; [done|]. intros _. by eexists.
  - apply store_ok_insert_one; [done|]. intros _. by eexists.
Qed.

Lemma lookup_progress_written s p completed now :
  store_ok s →
  ∃ d, lookup (progress_written p completed now s) "progress"
         (pair_filter (pu_user_id p) (pu_course_id p)) = Some d ∧
       doc_body d !! "completed_lessons" = Some (VStrs (elements completed)).
Proof.
  intros [Hids _]. unfold progress_written.
  destruct (lookup s "progress" (pair_filter (pu_user_id p) (pu_course_id p)))
    as [d|] eqn:Hl.
  - apply lookup_Some_split in Hl as (Hd & l1 & l2 & Hc & Hl1).
    exists (set_fields (progress_data p completed now) d).
    destruct (Hids "progress") as [Hnd _]. rewrite Hc in Hnd.
    unfold lookup, apply_update. rewrite Hc.
    rewrite (update_first_at _ _ l1 d l2);
      [| by apply (id_filter_at l1 d l2) | by apply Matches_id].
    rewrite coll_set_coll, decide_True by done. split.
    + apply head_filter_at; [done|]. apply Matches_pair.
      unfold set_fields; simpl. split; by apply lookup_union_Some_l.
    + unfold set_fields; simpl. by apply lookup_union_Some_l.
  - exists (Document (ObjectId (next_oid s)) (progress_data p completed now)).
    rewrite lookup_insert_one, Hl, decide_True by (by apply Matches_pair). done.
Qed.

Lemma lookup_upsert s name f upd :
  (∀ d, Matches f d → Matches f (set_fields upd d)) →
  Matches f (Document (ObjectId (next_oid s)) (upd ∪ eq_fields f)) →
  ∃ e, lookup (apply_update name f upd true s) name f = Some e ∧
       ∀ k v, upd !! k = Some v → doc_body e !! k = Some v.
Proof.
  intros Hkeep Hnew. unfold apply_update.
  destruct (lookup s name f) as [d|] eqn:Hl.
  - apply lookup_Some_split in Hl as (Hd & l1 & l2 & Hc & Hl1).
    exists (set_fields upd d). rewrite Hc, (update_first_at _ _ l1 d l2) by done.
    unfold lookup. rewrite coll_set_coll, decide_True by done. split.
    + apply head_filter_at; [done | by apply Hkeep].
    + intros k v Hk. simpl. by rewrite (lookup_union_Some_l _ _ _ _ Hk).
  - rewrite update_first_None by (by apply lookup_None_Forall).
    exists (Document (ObjectId (next_oid s)) (upd ∪ eq_fields f)).
    rewrite lookup_insert_one, Hl, decide_True by done. split; [done|].
    intros k v Hk. simpl. by rewrite (lookup_union_Some_l _ _ _ _ Hk).
Qed.

Lemma lookup_enrollment_written s u c percent :
  ∃ e, lookup (apply_update "enrollment" (pair_filter u c)
                 {[ "progress" := VFloat percent ]} true s)
         "enrollment" (pair_filter u c) = Some e ∧
       doc_body e !! "progress" = Some (VFloat percent).
Proof.
  destruct (lookup_upsert s "enrollment" (pair_filter u c) {[ "progress" := VFloat percent ]})
    as (e & He & Hupd).
  - intros d. rewrite !Matches_pair. unfold set_fields; simpl.
    by rewrite !lookup_union_r.
  - by apply Matches_pair.
  - exists e. split; [done|]. by apply Hupd.
Qed.



Lemma lookup_apply_update_ne s name f upd upsert name' g :
  name ≠ name' → lookup (apply_update name f upd upsert s) name' g = lookup s name' g.
Proof. intros Hn. unfold lookup. by rewrite coll_apply_update_ne. Qed.

Lemma mark_progress_outcome s p now :
  store_ok s →
  let u := pu_user_id p in
  let c := pu_course_id p in
  let completed := completed_of s u c ∪ {[ pu_lesson_id p ]} in
  let percent := percent_of (size completed) (lesson_count s c) in
  ∃ s', mark_progress p now (Some s) = (Ok {[ "progress" := VFloat percent ]}, Some s') ∧
        store_ok s' ∧
        completed_of s' u c = completed ∧
        lesson_count s' c = lesson_count s c ∧
        ∃ e, lookup s' "enrollment" (pair_filter u c) = Some e ∧
             doc_body e !! "progress" = Some (VFloat percent).
Proof.
  intros Hok u c completed percent.
  eexists. split; [apply mark_progress_run, Hok|].
  split; [|split; [|split]].
  - apply store_ok_apply_update; [|done]. by apply store_ok_progress_written.
  - unfold completed_of at 1. rewrite lookup_apply_update_ne by done.
    destruct (lookup_progress_written s p completed now Hok) as (d & Hd & Hcl).
    fold u c in Hd. fold u c. fold completed. rewrite Hd, Hcl. apply list_to_set_elements_L.
  - unfold lesson_count.
    by rewrite coll_apply_update_ne, coll_progress_written_ne.
  - apply lookup_enrollment_written.
Qed.

(** The percent and the score are correctly rounded: [x] is the double
    nearest to the quotient, [k] the number of hundredths nearest to [x],
    and the result is the double nearest to [k / 100]. *)
Lemma percent_of_spec n total :
  (0 <= total)%Z →
  let t := if Z.eqb total 0 then 1%Z else total in
  let x := PyFloat.truediv (100 * Z.of_nat n) t in
  let k := PyFloat.hundredths x in
  percent_of n total = PyFloat.truediv k 100 ∧ (0 <= k)%Z ∧
  (Qabs (x * inject_Z t - inject_Z (100 * Z.of_nat n)) * inject_Z (2 ^ 53)
   <= inject_Z (100 * Z.of_nat n))%Q ∧
  (Qabs (100 * x - inject_Z k) <= 1 # 2)%Q ∧
  (Qabs (percent_of n total * inject_Z 100 - inject_Z k) * inject_Z (2 ^ 53) <= inject_Z k)%Q.
Proof.
  intros Ht. apply PyFloatFacts.round2_truediv_spec; [lia|].
  destruct (Z.eqb_spec total 0); lia.
Qed.

Lemma quiz_score_spec answers (qs : list question) :
  let t := Z.max 1 (Z.of_nat (length qs)) in
  let x := PyFloat.truediv (100 * hits answers qs) t in
  let k := PyFloat.hundredths x in
  quiz_score answers qs = PyFloat.truediv k 100 ∧ (0 <= k)%Z ∧
  (Qabs (x * inject_Z t - inject_Z (100 * hits answers qs)) * inject_Z (2 ^ 53)
   <= inject_Z (100 * hits answers qs))%Q ∧
  (Qabs (100 * x - inject_Z k) <= 1 # 2)%Q ∧
  (Qabs (quiz_score answers qs * inject_Z 100 - inject_Z k) * inject_Z (2 ^ 53) <= inject_Z k)%Q.
Proof. apply PyFloatFacts.round2_truediv_spec; unfold hits; lia. Qed.

(** C3.  On a well-formed store, [mark_progress] adds the lesson to the
    completed set of the pair, returns 100 * |completed| / total rounded to
    two decimals (total is the number of lessons of the course, or 1 when
    there is none) and writes that percent to the enrollment of the pair.
    Marking the same lesson again changes neither the set nor the percent.
    On a course with 4 lessons and nothing completed, one lesson gives 25.0
    and a second, different lesson gives 50.0. *)
Theorem mark_progress_spec s p now :
  store_ok s →
  let u := pu_user_id p in
  let c := pu_course_id p in
  let completed := completed_of s u c ∪ {[ pu_lesson_id p ]} in
  let percent := percent_of (size completed) (lesson_count s c) in
  ∃ s',
    mark_progress p now (Some s) = (Ok {[ "progress" := VFloat percent ]}, Some s') ∧
    completed_of s' u c = completed ∧
    (∃ e, lookup s' "enrollment" (pair_filter u c) = Some e ∧
          doc_body e !! "progress" = Some (VFloat percent)) ∧
    (∀ now', ∃ s'',
       mark_progress p now' (Some s') = (Ok {[ "progress" := VFloat percent ]}, Some s'') ∧
       completed_of s'' u c = completed) ∧
    (completed_of s u c = ∅ → lesson_count s c = 4%Z →
     percent = 25%Q ∧
     ∀ lesson2 now2, lesson2 ≠ pu_lesson_id p → ∃ s2,
       mark_progress {| pu_user_id := u; pu_course_id := c; pu_lesson_id := lesson2 |} now2
         (Some s')
       = (Ok {[ "progress" := VFloat 50 ]}, Some s2)).
Proof.
  intros Hok. cbv zeta.
  destruct (mark_progress_outcome s p now Hok) as (s' & Hrun & Hok' & Hc' & Hn' & He').
  exists s'. split; [done|]. split; [done|]. split; [done|]. split.
  - intros now'.
    destruct (mark_progress_outcome s' p now' Hok') as (s'' & Hrun' & _ & Hc'' & _).
    exists s''. rewrite Hc', Hn' in Hrun'. rewrite Hc' in Hc''.
    set (completed := completed_of s (pu_user_id p) (pu_course_id p) ∪ {[pu_lesson_id p]}) in *.
    assert (completed ∪ {[pu_lesson_id p]} = completed) as Hidem.
    { subst completed. by rewrite <- (assoc_L (∪)), (idemp_L (∪)). }
    rewrite Hidem in Hrun', Hc''. done.
  - intros Hempty H4. rewrite Hempty, H4, (left_id_L ∅ (∪)), size_singleton.
    split; [reflexivity|]. intros lesson2 now2 Hne.
    destruct (mark_progress_outcome s'
                {| pu_user_id := pu_user_id p; pu_course_id := pu_course_id p;
                   pu_lesson_id := lesson2 |} now2 Hok') as (s2 & Hrun2 & _).
    exists s2. cbn [pu_user_id pu_course_id pu_lesson_id] in Hrun2.
    rewrite Hc', Hn', Hempty, H4, (left_id_L ∅ (∪)) in Hrun2.
    rewrite size_union, !size_singleton in Hrun2 by set_solver.
    exact Hrun2.
Qed.

(** C10 (amended).  [mark_progress] accepts any lesson id.  When the
    completed set, the new id included, has more elements than the course
    has lessons (at least one), the percent returned and written to the
    enrollment is at least 100, and it is above 100 when the course has
    fewer than 20000 lessons. *)
Theorem mark_progress_unvalidated s p now :
  store_ok s →
  let u := pu_user_id p in
  let c := pu_course_id p in
  let completed := completed_of s u c ∪ {[ pu_lesson_id p ]} in
  let percent := percent_of (size completed) (lesson_count s c) in
  (1 <= lesson_count s c)%Z →
  (lesson_count s c < Z.of_nat (size completed))%Z →
  ∃ s',
    mark_progress p now (Some s) = (Ok {[ "progress" := VFloat percent ]}, Some s') ∧
    (∃ e, lookup s' "enrollment" (pair_filter u c) = Some e ∧
          doc_body e !! "progress" = Some (VFloat percent)) ∧
    (100 <= percent)%Q ∧
    ((lesson_count s c < 20000)%Z → (100 < percent)%Q).
Proof.
  intros Hok. cbv zeta. intros H1 Hgt.
  destruct (mark_progress_outcome s p now Hok) as (s' & Hrun & _ & _ & _ & He').
  exists s'. split; [done|]. split; [done|].
  unfold percent_of, py_round2.
  destruct (Z.eqb_spec (lesson_count s (pu_course_id p)) 0) as [|_]; [lia|]. split.
  - apply PyFloatFacts.round2_truediv_ge_100; lia.
  - intros Hlt. apply PyFloatFacts.round2_truediv_gt_100; lia.
Qed.


Lemma list_ascii_of_string_app a b :
  list_ascii_of_string (a +:+ b) = list_ascii_of_string a ++ list_ascii_of_string b.
Proof. induction a as [|c a IH]; [done|]. simpl. by rewrite IH. Qed.

Lemma parse_literal p :
  Forall (λ c, is_meta c = false) p → parse_pattern p = Some (Lit <$> p).
Proof.
  induction 1 as [|c p Hc _ IH]; [done|]. cbn [parse_pattern].
  destruct (Ascii.eqb_spec c ".") as [->|_]; [done|].
  by rewrite Hc, IH.
Qed.

Lemma match_here_lit p s :
  match_here true (Lit <$> p) s = true ↔ ∃ post, lower <$> s = (lower <$> p) ++ post.
Proof.
  revert s. induction p as [|c p IH]; intros s; cbn [fmap list_fmap match_here].
  - split; [intros _; by eexists | done].
  - destruct s as [|x s]; cbn [fmap list_fmap app].
    + split; [done | by intros [post ?]].
    + rewrite andb_true_iff, IH. cbn [atom_matches]. rewrite Ascii.eqb_eq. split.
      * intros [Hx [post Hs]]. exists post. by rewrite Hx, Hs.
      * intros [post [= Hx Hs]]. split; [done | by exists post].
Qed.

Lemma search_from_lit p s :
  search_from true (Lit <$> p) s = true
  ↔ ∃ pre post, lower <$> s = pre ++ (lower <$> p) ++ post.
Proof.
  induction s as [|x s IH]; cbn [search_from]; rewrite orb_true_iff, match_here_lit.
  - split.
    + intros [[post Hp]|?]; [by exists [], post | done].
    + intros (pre & post & Hp). left. exists post.
      destruct pre; [done | discriminate].
  - rewrite IH. split.
    + intros [[post Hp]|(pre & post & Hp)]; [by exists [], post|].
      exists (lower x :: pre), post. cbn [fmap list_fmap app]. by rewrite Hp.
    + intros (pre & post & Hp). destruct pre as [|y pre]; [left; by exists post|].
      right. exists pre, post. cbn [fmap list_fmap app] in Hp. by injection Hp.
Qed.

Lemma ci_substring_search q t :
  ci_substring q t
  ↔ search_from true (Lit <$> list_ascii_of_string q) (list_ascii_of_string t) = true.
Proof. unfold ci_substring. by rewrite search_from_lit. Qed.

Lemma regex_lite_literal p t :
  literal p → regex_lite p "i" t = true ↔ ci_substring p t.
Proof.
  intros Hp. unfold regex_lite. rewrite (parse_literal _ Hp), ci_substring_search.
  by rewrite bool_decide_eq_true_2 by apply list_elem_of_here.
Qed.


Lemma get_documents_run s name f limit :
  get_documents name f limit (Some s)
  = (Ok (to_dict <$> take limit (filter (Matches f) (coll s name))), Some s).
Proof. reflexivity. Qed.

Lemma given_nonempty c : c ≠ "" → given (Some c) = Some c.
Proof. by destruct c. Qed.

Lemma to_dict_lookup d k : k ≠ "_id" → to_dict d !! k = doc_body d !! k.
Proof. intros Hk. unfold to_dict. by rewrite lookup_insert_ne. Qed.

Lemma cond_holds_regex p o fv :
  cond_holds (CRegex p o) fv = true ↔ ∃ t, fv = Some (VStr t) ∧ regex_search p o t = true.
Proof.
  destruct fv as [[]|]; simpl; try (split; [done | by intros (? & ? & ?)]).
  split; [by eexists | by intros (? & [= <-] & ?)].
Qed.

Lemma Matches_course_filter_category c q d :
  c ≠ "" → Matches (course_filter (Some c) q) d → has_str "category" c d.
Proof.
  intros Hc. unfold course_filter. rewrite (given_nonempty c Hc).
  destruct (given q) as [p|].
  - unfold Matches. rewrite map_Forall_insert by done.
    intros [_ Hm]. by apply (Matches_eq_str "category") in Hm.
  - intros Hm. by apply (Matches_eq_str "category") in Hm.
Qed.

Lemma Matches_course_filter_search category q d :
  q ≠ "" →
  Matches (course_filter category (Some q)) d
  ↔ in_category category d ∧
    ∃ t, has_str "title" t d ∧ regex_search q "i" t = true.
Proof.
  intros Hq. unfold course_filter, in_category, has_str. rewrite (given_nonempty q Hq).
  destruct (given category) as [c|].
  - unfold Matches. rewrite map_Forall_insert by done.
    rewrite insert_empty, map_Forall_singleton, cond_holds_regex, cond_holds_str.
    change (doc_get d "title") with (doc_body d !! "title").
    change (doc_get d "category") with (doc_body d !! "category").
    split; intros [H1 H2]; by split.
  - rewrite insert_empty, Matches_singleton, cond_holds_regex.
    change (doc_get d "title") with (doc_body d !! "title").
    split; [intros Ht; by split | by intros [_ Ht]].
Qed.

(** C6 (amended).  For a non-empty category, [list_courses] returns at most
    100 documents of the course collection, each with exactly that string
    in its category field; without a search pattern they are the first 100
    such documents.  An empty category is treated as no category. *)
Theorem list_courses_by_category s c q :
  c ≠ "" →
  ∃ docs,
    list_courses (Some c) q (Some s) = (Ok (to_dict <$> docs), Some s) ∧
    length docs ≤ 100 ∧
    docs `sublist_of` coll s "course" ∧
    Forall (has_str "category" c) docs ∧
    (∀ r, r ∈ to_dict <$> docs → r !! "category" = Some (VStr c)) ∧
    (given q = None → docs = take 100 (filter (has_str "category" c) (coll s "course"))) ∧
    list_courses (Some "") q (Some s) = list_courses None q (Some s).
Proof.
  intros Hc.
  exists (take 100 (filter (Matches (course_filter (Some c) q)) (coll s "course"))).
  assert (Forall (has_str "category" c)
            (take 100 (filter (Matches (course_filter (Some c) q)) (coll s "course")))) as Hall.
  { apply Forall_take, Forall_forall. intros d Hd.
    apply list_elem_of_filter in Hd as [Hd _]. by apply (Matches_course_filter_category c q). }
  split; [apply get_documents_run|]. split; [|split; [|split; [|split; [|split]]]].
  - rewrite length_take. lia.
  - etrans; [apply sublist_take | apply sublist_filter].
  - done.
  - intros r Hr. apply list_elem_of_fmap in Hr as (d & -> & Hd).
    rewrite to_dict_lookup by done. rewrite Forall_forall in Hall. by apply Hall.
  - intros Hq. f_equal. apply list_filter_iff. intros d.
    unfold course_filter. rewrite (given_nonempty c Hc), Hq.
    by apply (Matches_eq_str "category").
  - reflexivity.
Qed.

(** C7 (amended).  For a non-empty [q], with or without a category,
    [list_courses] returns the first 100 courses that pass the category
    filter and whose title the store matches against [q] as a
    case-insensitive pattern.  On a store that reads a pattern without
    metacharacters literally, such a [q] selects, among the courses that
    pass the category filter, the titles that contain it as a substring
    ignoring case; so "ielts" selects every such title that contains
    "IELTS".  An empty [q] is treated as no [q]. *)
Theorem list_courses_search s category q :
  q ≠ "" →
  list_courses category (Some q) (Some s)
  = (Ok (to_dict <$> take 100 (filter (Matches (course_filter category (Some q)))
                                 (coll s "course"))),
     Some s) ∧
  (∀ d, Matches (course_filter category (Some q)) d
        ↔ in_category category d ∧ ∃ t, has_str "title" t d ∧ regex_search q "i" t = true) ∧
  ((∀ p t, literal p → regex_search p "i" t = true ↔ ci_substring p t) →
   (literal q →
    ∀ d, Matches (course_filter category (Some q)) d
         ↔ in_category category d ∧ ∃ t, has_str "title" t d ∧ ci_substring q t) ∧
   (∀ d t pre post,
      in_category category d → has_str "title" t d → t = pre +:+ "IELTS" +:+ post →
      Matches (course_filter category (Some "ielts")) d)) ∧
  list_courses category (Some "") (Some s) = list_courses category None (Some s).
Proof.
  intros Hq. split; [apply get_documents_run|]. split; [|split; [|reflexivity]].
  - intros d. by apply Matches_course_filter_search.
  - intros Hlaw. split.
    + intros Hlit d. rewrite (Matches_course_filter_search category q d Hq).
      by setoid_rewrite (Hlaw q _ Hlit).
    + intros d t pre post Hcat Ht ->. apply Matches_course_filter_search; [done|].
      split; [done|]. eexists. split; [exact Ht|]. apply Hlaw.
      * unfold literal. by repeat constructor.
      * exists (lower <$> list_ascii_of_string pre), (lower <$> list_ascii_of_string post).
        rewrite !list_ascii_of_string_app. by rewrite !fmap_app.
Qed.


Lemma size_many_completed n : size (list_to_set (many_completed n) ∪ {[ "extra" ]} : gset string) = S n.
Proof.
  rewrite size_union.
  - rewrite size_singleton, size_list_to_set.
    + unfold many_completed. rewrite length_fmap, length_seq. lia.
    + unfold many_completed. apply NoDup_fmap_2; [|apply NoDup_seq].
      intros i j Hij. simpl in Hij. injection Hij as Hij. by apply (inj pretty).
  - intros x Hx Hx'. apply elem_of_singleton in Hx'. subst x.
    apply elem_of_list_to_set, list_elem_of_fmap in Hx as (i & Hi & _).
    simpl in Hi. discriminate Hi.
Qed.

Lemma filter_all {A} (P : A → Prop) `{!∀ x, Decision (P x)} (l : list A) :
  Forall P l → filter P l = l.
Proof.
  induction 1 as [|x l Hx _ IH]; [done|]. by rewrite filter_cons, decide_True, IH.
Qed.


Lemma lesson_count_crowded n : lesson_count (crowded_store n) "c1" = Z.of_nat n.
Proof.
  unfold lesson_count. f_equal.
  change (coll (crowded_store n) "lesson") with (many_lessons n).
  rewrite filter_all; [unfold many_lessons; by rewrite length_fmap, length_seq|].
  apply Forall_forall. intros d Hd. apply list_elem_of_fmap in Hd as (i & -> & _).
  by apply (Matches_eq_str "course_id").
Qed.

Lemma completed_of_crowded n :
  completed_of (crowded_store n) "u1" "c1" = list_to_set (many_completed n).
Proof.
  unfold completed_of, lookup.
  change (coll (crowded_store n) "progress") with [crowded_progress n].
  rewrite filter_cons, decide_True by (by apply Matches_pair). reflexivity.
Qed.

Lemma mark_progress_crowded n :
  (mark_progress {| pu_user_id := "u1"; pu_course_id := "c1"; pu_lesson_id := "extra" |} 0
     (Some (crowded_store n))).1
  = Ok {[ "progress" := VFloat (percent_of (S n) (Z.of_nat n)) ]}.
Proof.
  rewrite mark_progress_run.
  - cbn [fst pu_user_id pu_course_id pu_lesson_id].
    by rewrite completed_of_crowded, lesson_count_crowded, size_many_completed.
  - change (coll (crowded_store n) "progress") with [crowded_progress n].
    by repeat constructor.
Qed.

Lemma store_ok_foldl_insert s name (l : list (gmap string value)) :
  name ≠ "progress" → store_ok s → store_ok (foldl (λ s c, insert_one name c s) s l).
Proof.
  intros Hn. revert s. induction l as [|c l IH]; intros s Hok; cbn [foldl]; [done|].
  apply IH, store_ok_insert_one; [done|]. by intros ->.
Qed.

Lemma seed_data_run s :
  seed_data (Some s)
  = (Ok tt, Some (match coll s "course" with [] => seeded s | _ :: _ => s end)).
Proof.
  unfold seed_data. rewrite bind_run, count_documents_run.
  destruct (coll s "course") as [|d c].
  - cbn [filter list_filter length Z.of_nat Z.eqb]. apply for_each_create.
  - rewrite filter_cons, decide_True by apply Matches_empty. reflexivity.
Qed.

(** Every handler that writes keeps the store well formed. *)
Lemma store_ok_invariant s s' :
  store_ok s →
  (∃ r, seed_data (Some s) = (r, Some s')) ∨
  (∃ enr r, enroll enr (Some s) = (r, Some s')) ∨
  (∃ p now r, mark_progress p now (Some s) = (r, Some s')) ∨
  (∃ c r, get_quiz c (Some s) = (r, Some s')) ∨
  (∃ u c rnd now r, issue_certificate u c rnd now (Some s) = (r, Some s')) ∨
  (∃ payload r, admin_create_lesson payload (Some s) = (r, Some s')) →
  store_ok s'.
Proof.
  intros Hok [(r & Hr)|[(enr & r & Hr)|[(p & now & r & Hr)|[(c & r & Hr)|
    [(u & c & rnd & now & r & Hr)|(payload & r & Hr)]]]]].
  - rewrite seed_data_run in Hr. injection Hr as _ <-.
    destruct (coll s "course"); [by apply store_ok_foldl_insert | done].
  - unfold enroll in Hr. rewrite bind_run, find_one_run in Hr.
    destruct (lookup s "enrollment" _); [by injection Hr as _ <-|].
    rewrite bind_run, create_document_run in Hr. injection Hr as _ <-.
    apply store_ok_insert_one; [done|]. intros [=].
  - destruct (mark_progress_outcome s p now Hok) as (s1 & Hrun & Hok1 & _).
    rewrite Hrun in Hr. by injection Hr as _ <-.
  - unfold get_quiz in Hr. rewrite bind_run, find_one_run in Hr.
    destruct (lookup s "quiz" _); [by injection Hr as _ <-|].
    rewrite bind_run, create_document_run, bind_run, or_else_run, !find_one_run in Hr.
    assert (store_ok (insert_one "quiz"
              {[ "course_id" := VStr c; "title" := VStr "Quick Check";
                 "questions" := VDicts seed_questions ]} s)) as Hok1.
    { apply store_ok_insert_one; [done|]. intros [=]. }
    destruct (lookup _ "quiz" {[ "_id" := _ ]}); [by injection Hr as _ <-|].
    destruct (lookup _ "quiz" _); by injection Hr as _ <-.
  - unfold issue_certificate in Hr. rewrite bind_run, find_one_run in Hr.
    destruct (lookup s "certificate" _); [by injection Hr as _ <-|].
    rewrite bind_run, create_document_run in Hr. injection Hr as _ <-.
    apply store_ok_insert_one; [done|]. intros [=].
  - unfold admin_create_lesson in Hr. rewrite bind_run, create_document_run in Hr.
    injection Hr as _ <-. apply store_ok_insert_one; [done|]. intros [=].
Qed.

Lemma coll_crowded n name :
  coll (crowded_store n) name
  = if decide (name = "lesson") then many_lessons n
    else if decide (name = "progress") then [crowded_progress n] else [].
Proof.
  unfold coll, crowded_store; cbn [colls]. case_decide as H1; [subst; by rewrite lookup_insert_eq|].
  rewrite lookup_insert_ne by done.
  case_decide as H2; [subst; by rewrite lookup_singleton_eq|].
  by rewrite lookup_singleton_ne.
Qed.

Lemma store_ok_crowded n : store_ok (crowded_store n).
Proof.
  split.
  - intros name. rewrite coll_crowded. cbn [next_oid crowded_store].
    repeat case_decide.
    + split.
      * unfold many_lessons. rewrite <- list_fmap_compose.
        apply NoDup_fmap_2; [|apply NoDup_seq].
        intros i j [= Hij]. lia.
      * intros m Hm. unfold many_lessons in Hm. rewrite <- list_fmap_compose in Hm.
        apply list_elem_of_fmap in Hm as (i & [= ->] & Hi). apply elem_of_seq in Hi. lia.
    + split; [apply NoDup_singleton|].
      intros m Hm. apply list_elem_of_singleton in Hm. injection Hm as ->. lia.
    + split; [apply NoDup_nil_2 | intros m Hm; by apply not_elem_of_nil in Hm].
  - rewrite coll_crowded. repeat case_decide; try done. by repeat constructor.
Qed.

End Facts.

(** ** Runs on the example stores *)

Lemma enroll_twice_witness :
  @lookup ref_ops empty_store "enrollment" (pair_filter "u1" "c1") = None ∧
  @enroll ref_ops {| enr_user_id := "u1"; enr_course_id := "c1" |} (Some empty_store)
  = (Ok {[ "_id" := VStr (oid_hex 0); "status" := VStr "enrolled" ]},
     Some (insert_one "enrollment" (enrollment_doc "u1" "c1") empty_store)) ∧
  ∃ d2,
    @enroll ref_ops {| enr_user_id := "u1"; enr_course_id := "c1" |}
      (Some (insert_one "enrollment" (enrollment_doc "u1" "c1") empty_store))
    = (Ok d2, Some (insert_one "enrollment" (enrollment_doc "u1" "c1") empty_store)) ∧
    d2 !! "_id" = Some (VOid 0) ∧ d2 !! "user_id" = Some (VStr "u1") ∧
    d2 !! "course_id" = Some (VStr "c1") ∧ d2 !! "status" = Some (VStr "enrolled") ∧
    d2 !! "progress" = Some (VFloat 0).
Proof.
  split; [reflexivity|].
  exact (@enroll_twice ref_ops empty_store {| enr_user_id := "u1"; enr_course_id := "c1" |}
           eq_refl).
Defined.

(** On an empty enrollment collection the first response has no progress
    field, and it is not the record the second call returns. *)
Lemma enroll_first_response_has_no_progress :
  ∃ d1 d2 w1 w2,
    @enroll ref_ops {| enr_user_id := "u1"; enr_course_id := "c1" |} (Some empty_store)
    = (Ok d1, w1) ∧
    @enroll ref_ops {| enr_user_id := "u1"; enr_course_id := "c1" |} w1 = (Ok d2, w2) ∧
    d1 !! "progress" = None ∧ d2 !! "progress" = Some (VFloat 0) ∧ d1 ≠ d2.
Proof.
  eexists _, _, _, _. split; [reflexivity|]. split; [reflexivity|].
  split; [reflexivity|]. split; [reflexivity|].
  intros Heq. apply (f_equal (λ d, d !! "progress")) in Heq. discriminate Heq.
Qed.

Lemma percent_20002_of_20001 : percent_of (S (Z.to_nat 20001)) (Z.of_nat (Z.to_nat 20001)) = 100%Q.
Proof. vm_compute. reflexivity. Qed.

(** With 20001 lessons and 20002 completed ids the quotient is
    100.00499..., which rounds to 100.0. *)
Lemma mark_progress_percent_exactly_100 :
  store_ok (crowded_store (Z.to_nat 20001)) ∧
  @lesson_count ref_ops (crowded_store (Z.to_nat 20001)) "c1" = 20001%Z ∧
  Z.of_nat (size (@completed_of ref_ops (crowded_store (Z.to_nat 20001)) "u1" "c1" ∪ {[ "extra" ]}))
  = 20002%Z ∧
  (@mark_progress ref_ops
     {| pu_user_id := "u1"; pu_course_id := "c1"; pu_lesson_id := "extra" |} 0
     (Some (crowded_store (Z.to_nat 20001)))).1
  = Ok {[ "progress" := VFloat 100 ]}.
Proof.
  split; [apply store_ok_crowded|]. split; [|split].
  - rewrite lesson_count_crowded. apply Z2Nat.id. done.
  - rewrite completed_of_crowded, size_many_completed. rewrite Nat2Z.inj_succ, Z2Nat.id; done.
  - rewrite mark_progress_crowded. by rewrite percent_20002_of_20001.
Qed.

Lemma store_ok_four_lessons : store_ok four_lessons.
Proof. apply store_ok_foldl_insert; [done | apply store_ok_empty]. Qed.

Lemma store_ok_one_lesson_done : store_ok one_lesson_done.
Proof.
  unfold one_lesson_done. apply store_ok_insert_one; [|by eexists].
  apply store_ok_insert_one; [apply store_ok_empty | intros [=]].
Qed.

Lemma mark_progress_spec_witness :
  store_ok four_lessons ∧
  ∃ s',
    @mark_progress ref_ops
      {| pu_user_id := "u1"; pu_course_id := "c1"; pu_lesson_id := "L1" |} 0 (Some four_lessons)
    = (Ok {[ "progress" := VFloat 25 ]}, Some s') ∧
    ∃ s2,
      @mark_progress ref_ops
        {| pu_user_id := "u1"; pu_course_id := "c1"; pu_lesson_id := "L2" |} 1 (Some s')
      = (Ok {[ "progress" := VFloat 50 ]}, Some s2).
Proof.
  split; [exact store_ok_four_lessons|].
  destruct (@mark_progress_spec ref_ops four_lessons
              {| pu_user_id := "u1"; pu_course_id := "c1"; pu_lesson_id := "L1" |} 0
              store_ok_four_lessons) as (s' & Hrun & _ & _ & _ & Hex).
  destruct Hex as [H25 H50]; [vm_compute; reflexivity | vm_compute; reflexivity |].
  exists s'. rewrite H25 in Hrun. split; [exact Hrun|].
  apply (H50 "L2" 1%Z). discriminate.
Defined.

Lemma mark_progress_unvalidated_witness :
  store_ok one_lesson_done ∧
  (1 <= @lesson_count ref_ops one_lesson_done "c1")%Z ∧
  (@lesson_count ref_ops one_lesson_done "c1"
   < Z.of_nat (size (@completed_of ref_ops one_lesson_done "u1" "c1" ∪ {[ "L2" ]})))%Z ∧
  ∃ s',
    @mark_progress ref_ops
      {| pu_user_id := "u1"; pu_course_id := "c1"; pu_lesson_id := "L2" |} 0
      (Some one_lesson_done)
    = (Ok {[ "progress" := VFloat 200 ]}, Some s').
Proof.
  assert (1 <= @lesson_count ref_ops one_lesson_done "c1")%Z as H1 by (vm_compute; discriminate).
  assert (@lesson_count ref_ops one_lesson_done "c1"
          < Z.of_nat (size (@completed_of ref_ops one_lesson_done "u1" "c1" ∪ {[ "L2" ]})))%Z
    as H2 by (vm_compute; reflexivity).
  split; [exact store_ok_one_lesson_done|]. split; [exact H1|]. split; [exact H2|].
  destruct (@mark_progress_unvalidated ref_ops one_lesson_done
              {| pu_user_id := "u1"; pu_course_id := "c1"; pu_lesson_id := "L2" |} 0
              store_ok_one_lesson_done H1 H2) as (s' & Hrun & _).
  exists s'. exact Hrun.
Defined.

Lemma submit_quiz_spec_witness :
  @quiz_lookup ref_ops seeded_quiz (oid_hex 0)
  = Some (Document (ObjectId 0)
            {[ "course_id" := VStr "c1"; "title" := VStr "Quick Check";
               "questions" := VDicts seed_questions ]}) ∧
  @get_quiz ref_ops "c1" (Some empty_store)
  = (Ok (Some {[ "_id" := VOid 0; "course_id" := VStr "c1"; "title" := VStr "Quick Check";
                 "questions" := VDicts seed_questions ]}), Some seeded_quiz) ∧
  @submit_quiz ref_ops {| qs_quiz_id := oid_hex 0; qs_answers := [1; 0]%Z |} (Some seeded_quiz)
  = (Ok {[ "quiz_id" := VStr (oid_hex 0); "score" := VFloat 100 ]}, Some seeded_quiz) ∧
  @submit_quiz ref_ops {| qs_quiz_id := oid_hex 0; qs_answers := [0; 0]%Z |} (Some seeded_quiz)
  = (Ok {[ "quiz_id" := VStr (oid_hex 0); "score" := VFloat 50 ]}, Some seeded_quiz).
Proof.
  assert (@quiz_lookup ref_ops seeded_quiz (oid_hex 0)
          = Some (Document (ObjectId 0)
                    {[ "course_id" := VStr "c1"; "title" := VStr "Quick Check";
                       "questions" := VDicts seed_questions ]})) as Hl
    by (vm_compute; reflexivity).
  split; [exact Hl|]. split; [vm_compute; reflexivity|]. split.
  - exact (proj1 (@submit_quiz_spec ref_ops seeded_quiz
                    {| qs_quiz_id := oid_hex 0; qs_answers := [1; 0]%Z |} _ seed_questions
                    Hl eq_refl)).
  - exact (proj1 (@submit_quiz_spec ref_ops seeded_quiz
                    {| qs_quiz_id := oid_hex 0; qs_answers := [0; 0]%Z |} _ seed_questions
                    Hl eq_refl)).
Defined.

Lemma list_courses_by_category_witness :
  "IELTS" ≠ "" ∧
  ∃ docs,
    @list_courses ref_ops (Some "IELTS") None (Some (seeded empty_store))
    = (Ok (to_dict <$> docs), Some (seeded empty_store)) ∧
    length docs ≤ 100 ∧
    Forall (has_str "category" "IELTS") docs.
Proof.
  split; [discriminate|].
  destruct (@list_courses_by_category ref_ops (seeded empty_store) "IELTS" None)
    as (docs & Hrun & Hlen & _ & Hcat & _); [discriminate|].
  exists docs. split; [exact Hrun|]. split; [exact Hlen | exact Hcat].
Defined.

(** An empty category is no filter: all five seeded courses come back. *)
Lemma list_courses_empty_category :
  @list_courses ref_ops (Some "") None (Some (seeded empty_store))
  = (Ok (to_dict <$> coll (seeded empty_store) "course"), Some (seeded empty_store)) ∧
  length (coll (seeded empty_store) "course") = 5 ∧
  ∃ r, (to_dict <$> coll (seeded empty_store) "course") !! 0%nat = Some r ∧
       r !! "category" = Some (VStr "IELTS").
Proof.
  split; [vm_compute; reflexivity|]. split; [reflexivity|].
  eexists. split; [vm_compute; reflexivity|]. vm_compute. reflexivity.
Qed.

(** On the seeded courses: category IELTS with q = ielts gives the IELTS
    course; category IELTS with q = accent gives nothing, although a
    title of another category matches. *)
Lemma list_courses_search_witness :
  "ielts" ≠ "" ∧
  (∀ p t, literal p → @regex_search ref_ops p "i" t = true ↔ ci_substring p t) ∧
  @list_courses ref_ops (Some "IELTS") (Some "ielts") (Some (seeded empty_store))
  = (Ok (to_dict <$> take 100 (filter (@Matches ref_ops
                                         (course_filter (Some "IELTS") (Some "ielts")))
                                 (coll (seeded empty_store) "course"))),
     Some (seeded empty_store)) ∧
  (∀ d, in_category (Some "IELTS") d → has_str "title" "IELTS Mastery Program" d →
        @Matches ref_ops (course_filter (Some "IELTS") (Some "ielts")) d) ∧
  (∃ r, @list_courses ref_ops (Some "IELTS") (Some "ielts") (Some (seeded empty_store))
        = (Ok [r], Some (seeded empty_store)) ∧
        r !! "title" = Some (VStr "IELTS Mastery Program")) ∧
  @list_courses ref_ops (Some "IELTS") (Some "accent") (Some (seeded empty_store))
  = (Ok [], Some (seeded empty_store)).
Proof.
  assert ("ielts" ≠ "") as Hq by discriminate.
  destruct (@list_courses_search ref_ops (seeded empty_store) (Some "IELTS") "ielts" Hq)
    as (Hrun & _ & Hlaw & _).
  destruct (Hlaw regex_lite_literal) as [_ Hielts].
  split; [exact Hq|]. split; [exact regex_lite_literal|]. split; [exact Hrun|].
  split; [|split].
  - intros d Hcat Ht. exact (Hielts d _ "" " Mastery Program" Hcat Ht eq_refl).
  - eexists. split; [vm_compute; reflexivity|]. vm_compute. reflexivity.
  - vm_compute. reflexivity.
Defined.

(** The pattern ie.ts selects the IELTS course, whose title does not
    contain the five characters of the pattern. *)
Lemma list_courses_pattern_not_substring :
  (∃ r, @list_courses ref_ops None (Some "ie.ts") (Some (seeded empty_store))
        = (Ok [r], Some (seeded empty_store)) ∧
        r !! "title" = Some (VStr "IELTS Mastery Program")) ∧
  ¬ ci_substring "ie.ts" "IELTS Mastery Program".
Proof.
  split.
  - eexists. split; [vm_compute; reflexivity|]. vm_compute. reflexivity.
  - rewrite ci_substring_search. vm_compute. discriminate.
Qed.

(** * Beyond the claims *)

(** ** Binary64: upper bounds and exact quotients *)

Module PyFloatBounds.
Import PyFloat PyFloatFacts.
Local Open Scope Z_scope.

Lemma div_rhe_upper a b n : 0 < b → 2 * a < (2 * n + 1) * b → div_rhe a b <= n.
Proof.
  intros Hb H. unfold div_rhe.
  pose proof (Z.div_mod a b ltac:(lia)) as Hdm.
  pose proof (Z.mod_pos_bound a b Hb) as Hm.
  destruct (Z.compare_spec (2 * (a mod b)) b) as [Hc|Hc|Hc]; [destruct (Z.even (a / b)) |..]; nia.
Qed.

Lemma div_rhe_le a b n : 0 < b → a <= n * b → div_rhe a b <= n.
Proof. intros Hb H. apply div_rhe_upper; [done | nia]. Qed.

Lemma nearest_sig_le a b M J m e :
  0 < a → 0 < b → 0 < M < 2 ^ 53 → 0 <= J → a * 2 ^ J <= M * b →
  nearest a b = (m, e) →
  (0 <= e → m * 2 ^ e * 2 ^ J <= M) ∧ (e < 0 → m * 2 ^ J <= M * 2 ^ (- e)).
Proof.
  intros Ha Hb HM HJ Hle. unfold nearest.
  assert (0 < 2 ^ J) as HpJ by (apply Z.pow_pos_nonneg; lia).
  destruct (Z.eqb_spec a 0) as [|_]; [lia|].
  rewrite (Z.abs_eq a) by lia.
  destruct (ilog2_spec a b Ha Hb) as [Hs H52].
  set (e0 := ilog2 a b - 52) in *. set (s := Z.log2 b + 53) in *.
  intros [= <- <-].
  assert (0 <= s) as Hs0 by (pose proof (Z.log2_nonneg b); lia).
  assert (0 < 2 ^ s) as Hps by (apply Z.pow_pos_nonneg; lia).
  assert (0 < 2 ^ (e0 + s)) as HpE by (apply Z.pow_pos_nonneg; lia).
  assert (0 < b * 2 ^ (e0 + s)) as HD by nia.
  set (m := div_rhe (a * 2 ^ s) (b * 2 ^ (e0 + s))).
  split; intros He.
  - assert (0 < 2 ^ e0) as Hpe by (apply Z.pow_pos_nonneg; lia).
    assert (2 ^ (e0 + s) = 2 ^ e0 * 2 ^ s) as Hsplit by (apply Z.pow_add_r; lia).
    rewrite Hsplit in H52.
    assert (2 ^ 52 * b * 2 ^ e0 <= a) as Hlow by nia.
    assert (2 ^ 52 * (2 ^ e0 * 2 ^ J) <= M) as HMlow.
    { apply (Z.mul_le_mono_pos_r _ _ b); [done|].
      transitivity (a * 2 ^ J); [|done].
      replace (2 ^ 52 * (2 ^ e0 * 2 ^ J) * b) with (2 ^ 52 * b * 2 ^ e0 * 2 ^ J) by ring.
      apply Z.mul_le_mono_nonneg_r; lia. }
    destruct (decide (e0 = 0 ∧ J = 0)) as [[He0 HJ0]|Hne].
    + assert (m <= M) as HMm.
      { apply div_rhe_le; [exact HD|]. replace (e0 + s) with s by lia.
        rewrite HJ0, Z.pow_0_r in Hle. nia. }
      rewrite He0, HJ0, !Z.pow_0_r. lia.
    + assert (2 <= 2 ^ e0 * 2 ^ J) as H2.
      { rewrite <- Z.pow_add_r by lia.
        change 2 with (2 ^ 1) at 1. apply Z.pow_le_mono_r; lia. }
      change (2 ^ 53) with (2 ^ 52 * 2) in HM. nia.
  - assert (0 < 2 ^ (- e0)) as Hpe by (apply Z.pow_pos_nonneg; lia).
    destruct (Z.le_gt_cases J (- e0)) as [Hc|Hc].
    + assert (m <= M * 2 ^ (- e0 - J)) as HN.
      { apply div_rhe_le; [exact HD|].
        assert (2 ^ s = 2 ^ (e0 + s) * 2 ^ (- e0 - J) * 2 ^ J) as ->.
        { rewrite <- !Z.pow_add_r by lia. f_equal. lia. }
        assert (0 < 2 ^ (- e0 - J)) by (apply Z.pow_pos_nonneg; lia).
        nia. }
      assert (2 ^ (- e0) = 2 ^ (- e0 - J) * 2 ^ J) as ->.
      { rewrite <- Z.pow_add_r by lia. f_equal. lia. }
      nia.
    + exfalso.
      assert (2 ^ s = 2 ^ (e0 + s) * 2 ^ (- e0)) as Hsplit.
      { rewrite <- Z.pow_add_r by lia. f_equal. lia. }
      rewrite Hsplit in H52.
      assert (2 ^ 52 * b <= a * 2 ^ (- e0)) as Hlow by nia.
      assert (2 ^ J = 2 ^ (J + e0) * 2 ^ (- e0)) as HsJ.
      { rewrite <- Z.pow_add_r by lia. f_equal. lia. }
      assert (2 <= 2 ^ (J + e0)) as H2.
      { change 2 with (2 ^ 1) at 1. apply Z.pow_le_mono_r; lia. }
      assert (2 ^ 52 * 2 ^ (J + e0) <= M) as HMlow.
      { apply (Z.mul_le_mono_pos_r _ _ b); [done|].
        transitivity (a * 2 ^ J); [|done]. rewrite HsJ.
        replace (2 ^ 52 * 2 ^ (J + e0) * b) with (2 ^ 52 * b * 2 ^ (J + e0)) by ring.
        replace (a * (2 ^ (J + e0) * 2 ^ (- e0))) with (a * 2 ^ (- e0) * 2 ^ (J + e0)) by ring.
        apply Z.mul_le_mono_nonneg_r; lia. }
      change (2 ^ 53) with (2 ^ 52 * 2) in HM. nia.
Qed.

Lemma nearest_le a b M J :
  0 <= a → 0 < b → 0 < M < 2 ^ 53 → 0 <= J → a * 2 ^ J <= M * b →
  (to_Q (nearest a b) <= M # Z.to_pos (2 ^ J))%Q.
Proof.
  intros Ha Hb HM HJ Hle.
  destruct (Z.eq_dec a 0) as [->|Hne].
  { unfold nearest. cbn [Z.eqb]. unfold to_Q. rewrite Qred_correct.
    unfold Qle, inject_Z; cbn. lia. }
  destruct (nearest a b) as [m e] eqn:Hn.
  destruct (nearest_sig_le a b M J m e ltac:(lia) Hb HM HJ Hle Hn) as [H1 H2].
  assert (0 < 2 ^ J) as HpJ by (apply Z.pow_pos_nonneg; lia).
  unfold to_Q. rewrite Qred_correct.
  destruct (Z.leb_spec 0 e) as [He|He].
  - unfold Qle, inject_Z; cbn [Qnum Qden]. rewrite Z2Pos.id by done.
    specialize (H1 He). lia.
  - assert (0 < 2 ^ (- e)) as Hpe by (apply Z.pow_pos_nonneg; lia).
    unfold Qle; cbn [Qnum Qden]. rewrite !Z2Pos.id by done.
    specialize (H2 He). lia.
Qed.

Lemma hundredths_le x M J K :
  0 <= J → 200 * M < (2 * K + 1) * 2 ^ J →
  (x <= M # Z.to_pos (2 ^ J))%Q → hundredths x <= K.
Proof.
  intros HJ HK Hx. unfold hundredths.
  assert (0 < 2 ^ J) as HpJ by (apply Z.pow_pos_nonneg; lia).
  destruct x as [p q]. unfold Qle in Hx; cbn [Qnum Qden] in *.
  rewrite Z2Pos.id in Hx by done.
  apply div_rhe_upper; [lia|]. nia.
Qed.

Lemma Qred_inject_Z c : Qred (inject_Z c) = inject_Z c.
Proof.
  unfold Qred, inject_Z.
  pose proof (Z.ggcd_gcd c 1) as Hg. pose proof (Z.ggcd_correct_divisors c 1) as Hd.
  destruct (Z.ggcd c 1) as [g [aa bb]]. cbn [fst snd] in *.
  rewrite Z.gcd_1_r in Hg. subst g. destruct Hd as [H1 H2].
  rewrite Z.mul_1_l in H1, H2. by subst.
Qed.

(** A double is kept in lowest terms: one that equals an integer is that
    integer. *)
Lemma to_Q_eq p (c : Z) : (to_Q p == inject_Z c)%Q → to_Q p = inject_Z c.
Proof.
  intros Heq. destruct p as [m e]. unfold to_Q in *.
  rewrite Qred_correct in Heq. by rewrite (Qred_complete _ _ Heq), Qred_inject_Z.
Qed.

Lemma truediv_pos a b : 0 <= a → 0 < b → truediv a b = to_Q (nearest a b).
Proof. intros Ha Hb. unfold truediv. by rewrite Z.sgn_pos, Z.abs_eq, Z.mul_1_r by lia. Qed.

(** An exact quotient below 2^53 is a double: [a / b] is that integer. *)
Lemma truediv_exact q b : 0 <= q < 2 ^ 53 → 0 < b → truediv (q * b) b = inject_Z q.
Proof.
  intros Hq Hb. rewrite truediv_pos by nia.
  destruct (Z.eq_dec q 0) as [->|Hne]; [reflexivity|].
  apply to_Q_eq. apply Qle_antisym.
  - change (inject_Z q) with (q # Z.to_pos (2 ^ 0)). apply nearest_le; [nia|lia..].
  - change (inject_Z q) with (q # Z.to_pos (2 ^ 0)). apply nearest_ge; lia.
Qed.

Lemma hundredths_int q : hundredths (inject_Z q) = 100 * q.
Proof.
  unfold hundredths, inject_Z; cbn [Qnum Qden].
  apply Z.le_antisymm; [apply div_rhe_le | apply div_rhe_ge]; lia.
Qed.

(** [round(a / b, 2)] of an exact quotient is that integer. *)
Lemma round2_truediv_exact q b :
  0 <= q → 100 * q < 2 ^ 53 → 0 < b → round2 (truediv (q * b) b) = inject_Z q.
Proof.
  intros Hq Hlt Hb. rewrite truediv_exact by lia.
  unfold round2. rewrite hundredths_int.
  rewrite <- (truediv_pos (100 * q) 100) by lia.
  rewrite (Z.mul_comm 100 q). apply truediv_exact; lia.
Qed.

(** [round(100 * n / t, 2)] is at most 100 when [n] is at most [t]. *)
Lemma round2_truediv_le_100 n t :
  0 <= n → n <= t → 0 < t → (round2 (truediv (100 * n) t) <= 100)%Q.
Proof.
  intros Hn Hle Ht. rewrite truediv_pos by lia.
  destruct (round2_truediv_spec (100 * n) t ltac:(lia) Ht) as (_ & Hk & _).
  cbv zeta in Hk. rewrite truediv_pos in Hk by lia.
  assert (hundredths (to_Q (nearest (100 * n) t)) <= 10000) as Hh.
  { apply (hundredths_le _ 100 0); [lia | lia |].
    apply (nearest_le _ _ 100 0); lia. }
  unfold round2. apply (nearest_le _ _ 100 0); lia.
Qed.

Lemma round2_truediv_nonneg a b : 0 <= a → 0 < b → (0 <= round2 (truediv a b))%Q.
Proof.
  intros Ha Hb. destruct (round2_truediv_spec a b Ha Hb) as (Hr & Hk & _).
  cbv zeta in Hr, Hk. rewrite Hr. apply truediv_nonneg; lia.
Qed.
End PyFloatBounds.

(** ** More on the handlers *)

Ltac other_coll :=
  let Hin := fresh in
  intros Hin; repeat (apply elem_of_cons in Hin as [Hin|Hin]; [discriminate Hin|]);
  by apply elem_of_nil in Hin.

Section MoreFacts.
Context `{!StoreOps}.

(** *** Without a database *)

(** X1.  Without a database, every handler that asks for a collection
    raises the 500 error "Database not available" before doing anything
    else; [create_payment_session] too, before it reaches [float]. *)
Theorem handlers_without_database :
  (∀ course_id, course_detail course_id None = (Raise unavailable, None)) ∧
  (∀ enr, enroll enr None = (Raise unavailable, None)) ∧
  (∀ p now, mark_progress p now None = (Raise unavailable, None)) ∧
  (∀ course_id, get_quiz course_id None = (Raise unavailable, None)) ∧
  (∀ payload, submit_quiz payload None = (Raise unavailable, None)) ∧
  (∀ u c r now, issue_certificate u c r now None = (Raise unavailable, None)) ∧
  (∀ req r, create_payment_session req r None = (Raise unavailable, None)).
Proof.
  assert (∀ name f, find_one name f None = (Raise unavailable, None)) as Hfind by done.
  split; [intros; unfold course_detail; by rewrite bind_run, or_else_run, Hfind|].
  split; [intros; unfold enroll; by rewrite bind_run, Hfind|].
  split; [intros; unfold mark_progress; by rewrite bind_run, Hfind|].
  split; [intros; unfold get_quiz; by rewrite bind_run, Hfind|].
  split; [intros; unfold submit_quiz; by rewrite bind_run, or_else_run, Hfind|].
  split; [intros; unfold issue_certificate; by rewrite bind_run, Hfind|].
  intros. unfold create_payment_session. by rewrite bind_run, Hfind.
Qed.

(** *** Handlers that only read *)

Lemma py_iter_outcome v w :
  (∃ l, py_iter v w = (Ok l, w)) ∨ (∃ e, py_iter v w = (Raise e, w)).
Proof. destruct v; cbn [py_iter]; (by left; eexists) || (by right; eexists). Qed.

Lemma py_set_outcome v w :
  (∃ x, py_set v w = (Ok x, w)) ∨ (∃ e, py_set v w = (Raise e, w)).
Proof.
  destruct v as [| | | | | | | |[|q l]]; cbn [py_set];
    (by left; eexists) || (by right; eexists).
Qed.

Lemma course_detail_world w course_id : (course_detail course_id w).2 = w.
Proof.
  destruct w as [s|]; [|done].
  pose proof (course_detail_run s course_id) as Hrun.
  destruct (lookup s "course" {[ "_id" := COid course_id ]}),
           (lookup s "course" {[ "_id" := CEq (VStr course_id) ]}); by rewrite Hrun.
Qed.

Lemma submit_quiz_world w payload : (submit_quiz payload w).2 = w.
Proof.
  destruct w as [s|]; [|done].
  rewrite submit_quiz_lookup. destruct (quiz_lookup s (qs_quiz_id payload)) as [d|]; [|done].
  rewrite bind_run.
  destruct (py_iter_outcome (default (VStrs []) (doc_body d !! "questions")) (Some s))
    as [[l ->]|[e ->]]; [|done].
  rewrite bind_run.
  destruct (count_correct_outcome (qs_answers payload) 0 l 0%Z (Some s)) as [[n ->]| ->]; [|done].
  by rewrite bind_run, py_truediv_run by lia.
Qed.

Lemma create_payment_session_world s req r :
  (create_payment_session req r (Some s)).2 = Some s.
Proof.
  unfold create_payment_session. rewrite bind_run, find_one_run.
  destruct (lookup s "course" {[ "_id" := COid (pay_course_id req) ]}); by rewrite bind_run.
Qed.

(** X2.  [list_courses], [course_detail], [lessons] and [submit_quiz]
    leave the database as it is, whether they return or raise. *)
Theorem read_handlers_write_nothing w :
  (∀ category q, (list_courses category q w).2 = w) ∧
  (∀ course_id, (course_detail course_id w).2 = w) ∧
  (∀ course_id, (lessons course_id w).2 = w) ∧
  (∀ payload, (submit_quiz payload w).2 = w).
Proof.
  split; [|split; [|split]].
  - intros category q. by destruct w.
  - intros course_id. apply course_detail_world.
  - intros course_id. by destruct w.
  - intros payload. apply submit_quiz_world.
Qed.

(** *** What one call does to the database *)

(** Without any assumption on the store: either [mark_progress] raises
    before it writes, or it writes the progress record and the enrollment. *)
Lemma mark_progress_cases s p now :
  (∃ e, mark_progress p now (Some s) = (Raise e, Some s)) ∨
  (∃ completed,
     let percent := percent_of (size completed) (lesson_count s (pu_course_id p)) in
     mark_progress p now (Some s)
     = (Ok {[ "progress" := VFloat percent ]},
        Some (apply_update "enrollment" (pair_filter (pu_user_id p) (pu_course_id p))
                {[ "progress" := VFloat percent ]} true
                (progress_written p completed now s)))).
Proof.
  unfold mark_progress. rewrite bind_run, find_one_run.
  set (u := pu_user_id p). set (c := pu_course_id p).
  assert ((∃ x, (match lookup s "progress" (pair_filter u c) with
     | Some d => py_set (default (VStrs []) (doc_body d !! "completed_lessons"))
     | None => mret ∅
     end) (Some s) = (Ok x, Some s)) ∨
     (∃ e, (match lookup s "progress" (pair_filter u c) with
     | Some d => py_set (default (VStrs []) (doc_body d !! "completed_lessons"))
     | None => mret ∅
     end) (Some s) = (Raise e, Some s))) as [[x Hset]|[e Hset]].
  { destruct (lookup s "progress" (pair_filter u c)) as [d|]; [apply py_set_outcome|].
    left. by eexists. }
  - right. rewrite bind_run, Hset.
    exists (x ∪ {[ pu_lesson_id p ]}).
    set (completed := x ∪ {[ pu_lesson_id p ]}).
    rewrite bind_run.
    assert ((match lookup s "progress" (pair_filter u c) with
       | Some d => update_one "progress" {[ "_id" := CEq (id_value (doc_id d)) ]}
                     (progress_data p completed now) false
       | None => _ ← create_document "progress" (progress_data p completed now); mret tt
       end) (Some s) = (Ok tt, Some (progress_written p completed now s))) as ->.
    { unfold progress_written. fold u c.
      destruct (lookup s "progress" (pair_filter u c)) as [d|]; reflexivity. }
    rewrite bind_run, count_documents_run.
    rewrite coll_progress_written_ne by done.
    fold (lesson_count s c).
    rewrite bind_run, py_truediv_run
      by (destruct (Z.eqb_spec (lesson_count s c) 0); unfold lesson_count in *; lia).
    rewrite bind_run, update_one_run. reflexivity.
  - left. exists e. by rewrite bind_run, Hset.
Qed.

Lemma get_quiz_run s course_id :
  get_quiz course_id (Some s)
  = match lookup s "quiz" {[ "course_id" := CEq (VStr course_id) ]} with
    | Some d => (Ok (Some (to_dict d)), Some s)
    | None =>
        let d := Document (ObjectId (next_oid s)) (seed_quiz_doc course_id) in
        (Ok (Some (to_dict
               (default d (lookup s "quiz" {[ "_id" := CEq (VStr (oid_hex (next_oid s))) ]})))),
         Some (insert_one "quiz" (seed_quiz_doc course_id) s))
    end.
Proof.
  unfold get_quiz. rewrite bind_run, find_one_run.
  destruct (lookup s "quiz" {[ "course_id" := CEq (VStr course_id) ]}) as [d|] eqn:Hl; [done|].
  rewrite bind_run, create_document_run, bind_run, or_else_run, !find_one_run.
  fold (seed_quiz_doc course_id).
  rewrite !lookup_insert_one, Hl.
  destruct (lookup s "quiz" {[ "_id" := CEq (VStr (oid_hex (next_oid s))) ]}) as [d'|]; [done|].
  rewrite decide_False; [|by intros Hm; apply (Matches_id (StrId _)) in Hm].
  rewrite decide_True; [done|]. by apply (Matches_eq_str "course_id").
Qed.

Lemma handler_step_outcome s s' :
  handler_step s s' →
  s' = s ∨
  (coll s "course" = [] ∧ s' = seeded s) ∨
  (∃ u c, lookup s "enrollment" (pair_filter u c) = None ∧
          s' = insert_one "enrollment" (enrollment_doc u c) s) ∨
  (∃ p now completed v,
     s' = apply_update "enrollment" (pair_filter (pu_user_id p) (pu_course_id p))
            {[ "progress" := v ]} true (progress_written p completed now s)) ∨
  (∃ c, s' = insert_one "quiz" (seed_quiz_doc c) s) ∨
  (∃ u c rnd now, lookup s "certificate" (pair_filter u c) = None ∧
                  s' = insert_one "certificate" (certificate_doc u c rnd now) s) ∨
  (∃ payload, s' = insert_one "course" (course_doc payload) s) ∨
  (∃ payload, s' = insert_one "lesson" (lesson_doc payload) s) ∨
  (∃ payload, s' = insert_one "quiz" (quiz_doc payload) s).
Proof.
  intros [r Hr|category q r Hr|course_id r Hr|enr r Hr|course_id r Hr|p now r Hr|course_id r Hr
         |payload r Hr|u c rnd now r Hr|req rnd r Hr|payload r Hr|payload r Hr|payload r Hr].
  - rewrite seed_data_run in Hr. injection Hr as _ <-.
    destruct (coll s "course"); [right; by left | by left].
  - left. unfold list_courses in Hr. rewrite get_documents_run in Hr. by injection Hr as _ <-.
  - left. apply (f_equal snd) in Hr. rewrite course_detail_world in Hr. by injection Hr as <-.
  - unfold enroll in Hr. rewrite bind_run, find_one_run in Hr.
    destruct (lookup s "enrollment" _) eqn:Hl; [left; by injection Hr as _ <-|].
    rewrite bind_run, create_document_run in Hr. injection Hr as _ <-.
    do 2 right. left. by eexists _, _.
  - left. unfold lessons in Hr. rewrite get_documents_run in Hr. by injection Hr as _ <-.
  - destruct (mark_progress_cases s p now) as [[e He]|(completed & Hrun)].
    + left. rewrite He in Hr. by injection Hr as _ <-.
    + do 3 right. left. rewrite Hrun in Hr. injection Hr as _ <-. by eexists _, _, _, _.
  - rewrite get_quiz_run in Hr.
    destruct (lookup s "quiz" _); injection Hr as _ <-; [by left|].
    do 4 right. left. by eexists.
  - left. apply (f_equal snd) in Hr. rewrite submit_quiz_world in Hr. by injection Hr as <-.
  - unfold issue_certificate in Hr. rewrite bind_run, find_one_run in Hr.
    destruct (lookup s "certificate" _) eqn:Hl; [left; by injection Hr as _ <-|].
    rewrite bind_run, create_document_run in Hr. injection Hr as _ <-.
    do 5 right. left. by eexists _, _, _, _.
  - left. apply (f_equal snd) in Hr. rewrite create_payment_session_world in Hr.
    by injection Hr as <-.
  - unfold admin_create_course in Hr. rewrite bind_run, create_document_run in Hr.
    injection Hr as _ <-. do 6 right. left. by eexists.
  - unfold admin_create_lesson in Hr. rewrite bind_run, create_document_run in Hr.
    injection Hr as _ <-. do 7 right. left. by eexists.
  - unfold admin_create_quiz in Hr. rewrite bind_run, create_document_run in Hr.
    injection Hr as _ <-. do 8 right. by eexists.
Qed.

(** *** Documents are never removed *)

Lemma keeps_ids_refl s : keeps_ids s s.
Proof. split; [lia | done]. Qed.

Lemma keeps_ids_trans s1 s2 s3 : keeps_ids s1 s2 → keeps_ids s2 s3 → keeps_ids s1 s3.
Proof.
  intros [Hn1 H1] [Hn2 H2]. split; [lia|]. intros name. etrans; [apply H1 | apply H2].
Qed.

Lemma keeps_ids_insert_one s name body : keeps_ids s (insert_one name body s).
Proof.
  split; [cbn [next_oid insert_one]; lia|].
  intros name'. rewrite coll_insert_one. case_decide; [subst|done].
  rewrite fmap_app. by apply prefix_app_r.
Qed.

Lemma keeps_ids_apply_update s name f upd upsert :
  keeps_ids s (apply_update name f upd upsert s).
Proof.
  unfold apply_update. destruct (update_first f upd (coll s name)) as [c'|] eqn:Hu.
  - split; [done|]. intros name'. rewrite coll_set_coll. case_decide; [subst|done].
    by rewrite (update_first_ids _ _ _ _ Hu).
  - destruct upsert; [apply keeps_ids_insert_one | apply keeps_ids_refl].
Qed.

Lemma keeps_ids_foldl_insert s name (l : list (gmap string value)) :
  keeps_ids s (foldl (λ s c, insert_one name c s) s l).
Proof.
  revert s. induction l as [|c l IH]; intros s; cbn [foldl]; [apply keeps_ids_refl|].
  eapply keeps_ids_trans; [apply keeps_ids_insert_one | apply IH].
Qed.

Lemma keeps_ids_progress_written s p completed now :
  keeps_ids s (progress_written p completed now s).
Proof.
  unfold progress_written. destruct (lookup s "progress" _).
  - apply keeps_ids_apply_update.
  - apply keeps_ids_insert_one.
Qed.

Lemma handler_step_keeps_ids s s' : handler_step s s' → keeps_ids s s'.
Proof.
  intros Hstep.
  destruct (handler_step_outcome s s' Hstep)
    as [->|[[_ ->]|[(u & c & _ & ->)|[(p & now & completed & v & ->)|[(c & ->)|
       [(u & c & rnd & now & _ & ->)|[(payload & ->)|[(payload & ->)|(payload & ->)]]]]]]]];
    try apply keeps_ids_insert_one.
  - apply keeps_ids_refl.
  - apply keeps_ids_foldl_insert.
  - eapply keeps_ids_trans; [apply keeps_ids_progress_written | apply keeps_ids_apply_update].
Qed.

(** X3.  Whatever the sequence of calls, no handler removes a document
    or changes an identifier: in every collection the documents that
    were there are still there, in the same order, before the new ones. *)
Theorem handlers_keep_documents s s' : rtc handler_step s s' → keeps_ids s s'.
Proof.
  induction 1 as [s|s s1 s' Hstep _ IH]; [apply keeps_ids_refl|].
  eapply keeps_ids_trans; [by apply handler_step_keeps_ids | exact IH].
Qed.

(** *** The store stays well formed *)

Lemma handler_step_store_ok s s' : store_ok s → handler_step s s' → store_ok s'.
Proof.
  intros Hok Hstep.
  destruct (handler_step_outcome s s' Hstep)
    as [->|[[_ ->]|[(u & c & _ & ->)|[(p & now & completed & v & ->)|[(c & ->)|
       [(u & c & rnd & now & _ & ->)|[(payload & ->)|[(payload & ->)|(payload & ->)]]]]]]]];
    try (apply store_ok_insert_one; [done | intros [=]]).
  - done.
  - by apply store_ok_foldl_insert.
  - apply store_ok_apply_update; [|done]. by apply store_ok_progress_written.
Qed.

(** X4.  Whatever the sequence of calls, a well-formed store stays well
    formed: identifiers stay unique in each collection, and
    completed_lessons stays a list of strings, so that [mark_progress]
    can always read back what it wrote. *)
Theorem handlers_keep_store_ok s s' : store_ok s → rtc handler_step s s' → store_ok s'.
Proof.
  intros Hok Hrtc. induction Hrtc as [s|s s1 s' Hstep _ IH]; [done|].
  apply IH. by apply (handler_step_store_ok s).
Qed.

(** *** One record for each pair *)

Lemma apply_update_shape name f upd upsert s :
  (∃ l1 d l2, coll s name = l1 ++ d :: l2 ∧ Forall (λ x, ¬ Matches f x) l1 ∧ Matches f d ∧
     lookup s name f = Some d ∧
     apply_update name f upd upsert s = set_coll name (l1 ++ set_fields upd d :: l2) s) ∨
  (lookup s name f = None ∧
   apply_update name f upd upsert s
   = if upsert then insert_one name (upd ∪ eq_fields f) s else s).
Proof.
  destruct (lookup s name f) as [d|] eqn:Hl.
  - left. destruct (lookup_Some_split _ _ _ _ Hl) as (Hd & l1 & l2 & Hc & Hl1).
    exists l1, d, l2. split; [done|]. split; [done|]. split; [done|]. split; [done|].
    unfold apply_update. by rewrite Hc, (update_first_at _ _ l1 d l2).
  - right. split; [done|]. unfold apply_update.
    by rewrite update_first_None by (by apply lookup_None_Forall).
Qed.

Lemma progress_written_shape s p completed now :
  store_ok s →
  (∃ l1 d l2, coll s "progress" = l1 ++ d :: l2 ∧
     Forall (λ x, ¬ Matches (pair_filter (pu_user_id p) (pu_course_id p)) x) l1 ∧
     Matches (pair_filter (pu_user_id p) (pu_course_id p)) d ∧
     lookup s "progress" (pair_filter (pu_user_id p) (pu_course_id p)) = Some d ∧
     progress_written p completed now s
     = set_coll "progress" (l1 ++ set_fields (progress_data p completed now) d :: l2) s) ∨
  (lookup s "progress" (pair_filter (pu_user_id p) (pu_course_id p)) = None ∧
   progress_written p completed now s = insert_one "progress" (progress_data p completed now) s).
Proof.
  intros [Hids _]. unfold progress_written.
  destruct (lookup s "progress" (pair_filter (pu_user_id p) (pu_course_id p))) as [d|] eqn:Hl.
  - left. destruct (lookup_Some_split _ _ _ _ Hl) as (Hd & l1 & l2 & Hc & Hl1).
    exists l1, d, l2. split; [done|]. split; [done|]. split; [done|]. split; [done|].
    destruct (Hids "progress") as [Hnd _]. rewrite Hc in Hnd.
    unfold apply_update. rewrite Hc.
    by rewrite (update_first_at _ _ l1 d l2);
      [| by apply (id_filter_at l1 d l2) | by apply Matches_id].
  - by right.
Qed.

Lemma eq_fields_pair u c :
  eq_fields (pair_filter u c) = {[ "user_id" := VStr u; "course_id" := VStr c ]}.
Proof. reflexivity. Qed.

Lemma filter_replace_out {A} (P : A → Prop) `{!∀ x, Decision (P x)} l1 x y l2 :
  ¬ P x → ¬ P y → filter P (l1 ++ x :: l2) = filter P (l1 ++ y :: l2).
Proof. intros Hx Hy. by rewrite !filter_app, !filter_cons, !decide_False by done. Qed.

Lemma filter_replace_length {A} (P : A → Prop) `{!∀ x, Decision (P x)} l1 x y l2 :
  (P x ↔ P y) → length (filter P (l1 ++ x :: l2)) = length (filter P (l1 ++ y :: l2)).
Proof.
  intros Hxy. rewrite !filter_app, !filter_cons, !length_app.
  destruct (decide (P x)) as [Hx|Hx].
  - by rewrite decide_True by (by apply Hxy).
  - by rewrite decide_False by (by rewrite <- Hxy).
Qed.

Lemma filter_snoc_out {A} (P : A → Prop) `{!∀ x, Decision (P x)} l x :
  ¬ P x → filter P (l ++ [x]) = filter P l.
Proof.
  intros Hx. by rewrite filter_app, filter_cons, decide_False, filter_nil, app_nil_r.
Qed.

Lemma filter_snoc_in {A} (P : A → Prop) `{!∀ x, Decision (P x)} l x :
  P x → filter P (l ++ [x]) = filter P l ++ [x].
Proof. intros Hx. by rewrite filter_app, filter_cons, decide_True, filter_nil. Qed.

Lemma Matches_pair_set u c upd d :
  upd !! "user_id" = None → upd !! "course_id" = None →
  Matches (pair_filter u c) (set_fields upd d) ↔ Matches (pair_filter u c) d.
Proof.
  intros Hu Hc. rewrite !Matches_pair. unfold set_fields; cbn [doc_body].
  by rewrite !lookup_union_r.
Qed.

Lemma Matches_pair_body u c i body u' c' :
  body !! "user_id" = Some (VStr u) → body !! "course_id" = Some (VStr c) →
  Matches (pair_filter u' c') (Document i body) ↔ u' = u ∧ c' = c.
Proof.
  intros Hu Hc. rewrite Matches_pair; cbn [doc_body]. rewrite Hu, Hc.
  split; [by intros [[= ->] [= ->]] | by intros [-> ->]].
Qed.

Lemma Matches_pair_same u c u' c' d :
  Matches (pair_filter u c) d → Matches (pair_filter u' c') d → u' = u ∧ c' = c.
Proof. rewrite !Matches_pair. intros [Hu Hc] [Hu' Hc']. split; congruence. Qed.

Lemma filter_pair_insert_other s name body u c u' c' :
  body !! "user_id" = Some (VStr u) → body !! "course_id" = Some (VStr c) →
  ¬ (u' = u ∧ c' = c) →
  filter (Matches (pair_filter u' c')) (coll (insert_one name body s) name)
  = filter (Matches (pair_filter u' c')) (coll s name).
Proof.
  intros Hu Hc Hne. rewrite coll_insert_one, decide_True by done.
  apply (filter_snoc_out (Matches (pair_filter u' c'))).
  by rewrite (Matches_pair_body u c).
Qed.

Lemma filter_pair_progress_written s p completed now u' c' :
  store_ok s → ¬ (u' = pu_user_id p ∧ c' = pu_course_id p) →
  filter (Matches (pair_filter u' c')) (coll (progress_written p completed now s) "progress")
  = filter (Matches (pair_filter u' c')) (coll s "progress").
Proof.
  intros Hok Hne.
  destruct (progress_written_shape s p completed now Hok)
    as [(l1 & d & l2 & Hc & _ & Hd & _ & ->)|[_ ->]].
  - rewrite coll_set_coll, decide_True, Hc by done.
    apply (filter_replace_out (Matches (pair_filter u' c'))).
    + intros Hm. apply Hne. unfold set_fields in Hm.
      apply (Matches_pair_body (pu_user_id p) (pu_course_id p)) in Hm;
        [done | by apply lookup_union_Some_l..].
    + intros Hm. apply Hne. by apply (Matches_pair_same _ _ _ _ d).
  - by apply (filter_pair_insert_other _ _ _ (pu_user_id p) (pu_course_id p)).
Qed.

Lemma filter_pair_enrollment_written s u c v u' c' :
  ¬ (u' = u ∧ c' = c) →
  filter (Matches (pair_filter u' c'))
    (coll (apply_update "enrollment" (pair_filter u c) {[ "progress" := v ]} true s) "enrollment")
  = filter (Matches (pair_filter u' c')) (coll s "enrollment").
Proof.
  intros Hne.
  destruct (apply_update_shape "enrollment" (pair_filter u c) {[ "progress" := v ]} true s)
    as [(l1 & d & l2 & Hc & _ & Hd & _ & ->)|[_ ->]].
  - rewrite coll_set_coll, decide_True, Hc by done.
    apply (filter_replace_out (Matches (pair_filter u' c'))).
    + intros Hm. apply Hne. apply Matches_pair_set in Hm; [|done..].
      by apply (Matches_pair_same _ _ _ _ d).
    + intros Hm. apply Hne. by apply (Matches_pair_same _ _ _ _ d).
  - by apply (filter_pair_insert_other _ _ _ u c).
Qed.

Lemma count_pair_insert s name body u c u' c' :
  body !! "user_id" = Some (VStr u) → body !! "course_id" = Some (VStr c) →
  lookup s name (pair_filter u c) = None →
  length (filter (Matches (pair_filter u' c')) (coll s name)) ≤ 1 →
  length (filter (Matches (pair_filter u' c')) (coll (insert_one name body s) name)) ≤ 1.
Proof.
  intros Hu Hc Hl Hle. destruct (decide (u' = u ∧ c' = c)) as [[-> ->]|Hne].
  - rewrite coll_insert_one, decide_True, filter_app by done.
    rewrite (head_filter_None (Matches (pair_filter u c)) _ Hl).
    rewrite filter_cons, filter_nil. case_decide; simpl; lia.
  - by rewrite (filter_pair_insert_other _ _ _ u c).
Qed.

Lemma one_per_pair_insert_pair s name body u c :
  body !! "user_id" = Some (VStr u) → body !! "course_id" = Some (VStr c) →
  lookup s name (pair_filter u c) = None →
  one_per_pair s → one_per_pair (insert_one name body s).
Proof.
  intros Hu Hc Hl Hone name' u' c' Hin.
  destruct (decide (name = name')) as [<-|Hn].
  - apply (count_pair_insert _ _ _ u c); [done..|]. by apply Hone.
  - rewrite coll_insert_one, decide_False by done. by apply Hone.
Qed.

Lemma one_per_pair_insert_other s name body :
  name ∉ ["enrollment"; "progress"; "certificate"] →
  one_per_pair s → one_per_pair (insert_one name body s).
Proof.
  intros Hn Hone name' u' c' Hin.
  rewrite coll_insert_one, decide_False by (intros ->; done). by apply Hone.
Qed.

Lemma one_per_pair_foldl_insert s name (l : list (gmap string value)) :
  name ∉ ["enrollment"; "progress"; "certificate"] →
  one_per_pair s → one_per_pair (foldl (λ s c, insert_one name c s) s l).
Proof.
  intros Hn. revert s. induction l as [|c l IH]; intros s Hone; cbn [foldl]; [done|].
  by apply IH, one_per_pair_insert_other.
Qed.

Lemma count_pair_progress_written s p completed now u' c' :
  store_ok s →
  length (filter (Matches (pair_filter u' c')) (coll s "progress")) ≤ 1 →
  length (filter (Matches (pair_filter u' c'))
            (coll (progress_written p completed now s) "progress")) ≤ 1.
Proof.
  intros Hok Hle.
  destruct (progress_written_shape s p completed now Hok)
    as [(l1 & d & l2 & Hc & _ & Hd & _ & ->)|[Hl ->]].
  - rewrite coll_set_coll, decide_True by done. rewrite Hc in Hle.
    rewrite <- (filter_replace_length (Matches (pair_filter u' c')) l1 d); [done|].
    unfold set_fields.
    rewrite (Matches_pair_body (pu_user_id p) (pu_course_id p));
      [| by apply lookup_union_Some_l..].
    split; [by apply Matches_pair_same | by intros [-> ->]].
  - by apply (count_pair_insert _ _ _ (pu_user_id p) (pu_course_id p)).
Qed.

Lemma count_pair_upsert s name u c v u' c' :
  length (filter (Matches (pair_filter u' c')) (coll s name)) ≤ 1 →
  length (filter (Matches (pair_filter u' c'))
            (coll (apply_update name (pair_filter u c) {[ "progress" := v ]} true s) name)) ≤ 1.
Proof.
  intros Hle.
  destruct (apply_update_shape name (pair_filter u c) {[ "progress" := v ]} true s)
    as [(l1 & d & l2 & Hc & _ & Hd & _ & ->)|[Hl ->]].
  - rewrite coll_set_coll, decide_True by done. rewrite Hc in Hle.
    rewrite <- (filter_replace_length (Matches (pair_filter u' c')) l1 d); [done|].
    symmetry. by apply Matches_pair_set.
  - by apply (count_pair_insert _ _ _ u c).
Qed.

Lemma handler_step_one_per_pair s s' :
  store_ok s → one_per_pair s → handler_step s s' → one_per_pair s'.
Proof.
  intros Hok Hone Hstep.
  destruct (handler_step_outcome s s' Hstep)
    as [->|[[_ ->]|[(u & c & Hl & ->)|[(p & now & completed & v & ->)|[(c & ->)|
       [(u & c & rnd & now & Hl & ->)|[(payload & ->)|[(payload & ->)|(payload & ->)]]]]]]]];
    try (apply one_per_pair_insert_other; [other_coll | done]).
  - done.
  - apply one_per_pair_foldl_insert; [other_coll | done].
  - by apply (one_per_pair_insert_pair _ _ _ u c).
  - intros name u' c' Hin.
    destruct (decide (name = "enrollment")) as [->|Hn].
    + apply count_pair_upsert. rewrite coll_progress_written_ne by done. by apply Hone.
    + rewrite coll_apply_update_ne by done.
      destruct (decide (name = "progress")) as [->|Hn'].
      * apply count_pair_progress_written; [done|]. by apply Hone.
      * rewrite coll_progress_written_ne by done. by apply Hone.
  - by apply (one_per_pair_insert_pair _ _ _ u c).
Qed.

(** X5.  Whatever the sequence of calls, on a well-formed store that has
    at most one enrollment, one progress record and one certificate for
    each pair of a user and a course, it stays so: [enroll],
    [mark_progress] and [issue_certificate] never add a second one. *)
Theorem handlers_keep_one_per_pair s s' :
  store_ok s → one_per_pair s → rtc handler_step s s' → one_per_pair s'.
Proof.
  intros Hok Hone Hrtc. induction Hrtc as [s|s s1 s' Hstep _ IH]; [done|].
  apply IH; [by apply (handler_step_store_ok s) | by apply (handler_step_one_per_pair s)].
Qed.

(** *** Identifiers given as strings *)

Lemma generated_ids_insert_one s name body name' :
  generated_ids s name' → generated_ids (insert_one name body s) name'.
Proof.
  unfold generated_ids. rewrite coll_insert_one. case_decide; [subst|done].
  intros Hg. apply Forall_app. split; [done|]. apply Forall_singleton. by eexists.
Qed.

Lemma generated_ids_keeps s s' name :
  doc_id <$> coll s' name = doc_id <$> coll s name → generated_ids s name → generated_ids s' name.
Proof.
  unfold generated_ids. intros Heq Hg.
  apply (Forall_fmap doc_id (λ i, ∃ n, i = ObjectId n)).
  rewrite Heq. by apply Forall_fmap.
Qed.

Lemma generated_ids_apply_update s name f upd upsert name' :
  generated_ids s name' → generated_ids (apply_update name f upd upsert s) name'.
Proof.
  unfold apply_update. destruct (update_first f upd (coll s name)) as [c'|] eqn:Hu.
  - apply generated_ids_keeps. rewrite coll_set_coll. case_decide; [subst|done].
    by rewrite (update_first_ids _ _ _ _ Hu).
  - destruct upsert; [apply generated_ids_insert_one | done].
Qed.

Lemma generated_ids_foldl_insert s name (l : list (gmap string value)) name' :
  generated_ids s name' → generated_ids (foldl (λ s c, insert_one name c s) s l) name'.
Proof.
  revert s. induction l as [|c l IH]; intros s Hg; cbn [foldl]; [done|].
  by apply IH, generated_ids_insert_one.
Qed.

Lemma handler_step_generated_ids s s' name :
  generated_ids s name → handler_step s s' → generated_ids s' name.
Proof.
  intros Hg Hstep.
  destruct (handler_step_outcome s s' Hstep)
    as [->|[[_ ->]|[(u & c & _ & ->)|[(p & now & completed & v & ->)|[(c & ->)|
       [(u & c & rnd & now & _ & ->)|[(payload & ->)|[(payload & ->)|(payload & ->)]]]]]]]];
    try (by apply generated_ids_insert_one).
  - done.
  - by apply generated_ids_foldl_insert.
  - apply generated_ids_apply_update. unfold progress_written.
    destruct (lookup s "progress" _);
      [by apply generated_ids_apply_update | by apply generated_ids_insert_one].
Qed.

Lemma lookup_string_id_generated s name id :
  generated_ids s name → lookup s name {[ "_id" := CEq (VStr id) ]} = None.
Proof.
  intros Hgen. destruct (lookup s name {[ "_id" := CEq (VStr id) ]}) as [d|] eqn:Hl; [|done].
  apply lookup_Some_split in Hl as (Hm & l1 & l2 & Hc & _).
  apply (Matches_id (StrId _)) in Hm.
  unfold generated_ids in Hgen. rewrite Hc in Hgen.
  apply Forall_app in Hgen as [_ Hgen]. apply Forall_cons in Hgen as [[n Hn] _]. congruence.
Qed.

(** X6.  The handlers create documents under generated identifiers only.
    So on a database that started with generated identifiers, after any
    sequence of calls, the lookups by the plain string ({"_id": id}) of
    [course_detail] and [submit_quiz] find nothing: what these handlers
    answer is decided by their {"$oid": id} lookup alone. *)
Theorem string_id_lookups_find_nothing s0 s :
  (∀ name, generated_ids s0 name) → rtc handler_step s0 s →
  (∀ name, generated_ids s name) ∧
  (∀ course_id,
     course_detail course_id (Some s)
     = match lookup s "course" {[ "_id" := COid course_id ]} with
       | Some d => (Ok (to_dict d), Some s)
       | None => (Raise (HTTPException 404 "Course not found"), Some s)
       end) ∧
  (∀ payload,
     quiz_lookup s (qs_quiz_id payload) = lookup s "quiz" {[ "_id" := COid (qs_quiz_id payload) ]} ∧
     (lookup s "quiz" {[ "_id" := COid (qs_quiz_id payload) ]} = None →
      submit_quiz payload (Some s) = (Raise (HTTPException 404 "Quiz not found"), Some s))).
Proof.
  intros Hg0 Hrtc.
  assert (∀ name, generated_ids s name) as Hg.
  { induction Hrtc as [s|s s1 s' Hstep _ IH]; [done|].
    apply IH. intros name. by apply (handler_step_generated_ids s). }
  split; [done|]. split.
  - intros course_id. pose proof (course_detail_run s course_id) as Hrun.
    rewrite (lookup_string_id_generated s "course" course_id (Hg _)) in Hrun.
    by destruct (lookup s "course" {[ "_id" := COid course_id ]}).
  - intros payload.
    assert (quiz_lookup s (qs_quiz_id payload)
            = lookup s "quiz" {[ "_id" := COid (qs_quiz_id payload) ]}) as Hql.
    { unfold quiz_lookup. by rewrite (lookup_string_id_generated s "quiz" _ (Hg _)). }
    split; [done|]. intros Hnone. by rewrite submit_quiz_lookup, Hql, Hnone.
Qed.

(** *** Seeding *)

(** X7.  [seed_data] is idempotent: it never raises, it leaves a course
    collection that is not empty, and running it again changes nothing. *)
Theorem seed_data_idempotent w :
  ∃ w1, seed_data w = (Ok tt, w1) ∧ seed_data w1 = (Ok tt, w1) ∧
        ∀ s1, w1 = Some s1 → coll s1 "course" ≠ [].
Proof.
  destruct w as [s|]; [|by exists None].
  rewrite seed_data_run. destruct (coll s "course") as [|d c] eqn:Hc.
  - assert (coll (seeded s) "course" ≠ []) as Hne.
    { unfold seeded. rewrite coll_foldl_insert, decide_True, Hc by done. done. }
    exists (Some (seeded s)). split; [done|]. split; [|by intros ? [= <-]].
    rewrite seed_data_run. by destruct (coll (seeded s) "course").
  - exists (Some s). split; [done|]. split; [|intros ? [= <-]; by rewrite Hc].
    by rewrite seed_data_run, Hc.
Qed.

(** *** Quizzes *)

(** X8.  [get_quiz] always returns a quiz, never null.  When the course
    has one it returns the first and writes nothing; otherwise it stores
    the two-question quiz for the course and, on a collection with
    generated identifiers, returns it.  Either way a second call returns
    the first quiz of the course and writes nothing. *)
Theorem get_quiz_fetch_or_seed s course_id :
  ∃ r s1 d,
    get_quiz course_id (Some s) = (Ok (Some r), Some s1) ∧
    lookup s1 "quiz" {[ "course_id" := CEq (VStr course_id) ]} = Some d ∧
    get_quiz course_id (Some s1) = (Ok (Some (to_dict d)), Some s1) ∧
    match lookup s "quiz" {[ "course_id" := CEq (VStr course_id) ]} with
    | Some d0 => s1 = s ∧ d = d0 ∧ r = to_dict d0
    | None =>
        s1 = insert_one "quiz" (seed_quiz_doc course_id) s ∧
        d = Document (ObjectId (next_oid s)) (seed_quiz_doc course_id) ∧
        (generated_ids s "quiz" → r = to_dict d)
    end.
Proof.
  rewrite get_quiz_run.
  destruct (lookup s "quiz" {[ "course_id" := CEq (VStr course_id) ]}) as [d0|] eqn:Hl.
  - exists (to_dict d0), s, d0. split; [done|]. split; [done|].
    by rewrite get_quiz_run, Hl.
  - cbv zeta. eexists _, _, (Document (ObjectId (next_oid s)) (seed_quiz_doc course_id)).
    split; [reflexivity|].
    assert (lookup (insert_one "quiz" (seed_quiz_doc course_id) s) "quiz"
              {[ "course_id" := CEq (VStr course_id) ]}
            = Some (Document (ObjectId (next_oid s)) (seed_quiz_doc course_id))) as Hl1.
    { rewrite lookup_insert_one, Hl. rewrite decide_True; [done|].
      by apply (Matches_eq_str "course_id"). }
    split; [done|]. split; [by rewrite get_quiz_run, Hl1|].
    split; [done|]. split; [done|]. intros Hgen.
    by rewrite (lookup_string_id_generated s "quiz" _ Hgen).
Qed.

(** X9.  [admin_create_quiz] stores the quiz and returns its identifier;
    [get_quiz] then serves the first quiz of the course: the new one when
    the course had none (nothing is seeded), the older one otherwise. *)
Theorem get_quiz_serves_first_quiz s payload :
  let d := Document (ObjectId (next_oid s)) (quiz_doc payload) in
  let s1 := insert_one "quiz" (quiz_doc payload) s in
  admin_create_quiz payload (Some s)
  = (Ok {[ "_id" := VStr (oid_hex (next_oid s)) ]}, Some s1) ∧
  get_quiz (cq_course_id payload) (Some s1)
  = (Ok (Some (to_dict
           (default d (lookup s "quiz" {[ "course_id" := CEq (VStr (cq_course_id payload)) ]})))),
     Some s1) ∧
  to_dict d !! "questions" = Some (VDicts (cq_questions payload)).
Proof.
  intros d s1. split; [reflexivity|]. split; [|reflexivity].
  rewrite get_quiz_run. unfold s1. rewrite lookup_insert_one.
  destruct (lookup s "quiz" {[ "course_id" := CEq (VStr (cq_course_id payload)) ]}); [done|].
  rewrite decide_True; [done|]. by apply (Matches_eq_str "course_id").
Qed.

(** *** Listings *)

Lemma take_snoc_listing {A} n (l : list A) x :
  take n (l ++ [x]) = if decide (length (take n l) < n) then take n l ++ [x] else take n l.
Proof.
  destruct (decide (length l < n)) as [Hlt|Hge].
  - rewrite (take_ge l) by lia. rewrite decide_True by done.
    apply take_ge. rewrite length_app. cbn [length]. lia.
  - rewrite decide_False by (rewrite length_take; lia).
    apply take_app_le. lia.
Qed.

Lemma get_documents_insert_one s name body f limit :
  Matches f (Document (ObjectId (next_oid s)) body) →
  ∃ docs,
    get_documents name f limit (Some s) = (Ok docs, Some s) ∧
    get_documents name f limit (Some (insert_one name body s))
    = (Ok (if decide (length docs < limit)
           then docs ++ [to_dict (Document (ObjectId (next_oid s)) body)] else docs),
       Some (insert_one name body s)).
Proof.
  intros Hm. eexists. split; [apply get_documents_run|].
  rewrite get_documents_run, coll_insert_one, decide_True by done.
  rewrite (filter_snoc_in (Matches f)) by done.
  rewrite take_snoc_listing, length_fmap.
  case_decide; [|done]. by rewrite fmap_app.
Qed.

(** X10.  [lessons] returns the lessons of the course in the order of the
    collection, the first 200 of them: their number is the smaller of 200
    and the number of lessons [mark_progress] divides by. *)
Theorem lessons_listing s course_id :
  ∃ docs,
    lessons course_id (Some s) = (Ok (to_dict <$> docs), Some s) ∧
    docs = take 200 (filter (has_str "course_id" course_id) (coll s "lesson")) ∧
    Z.of_nat (length docs) = Z.min 200 (lesson_count s course_id) ∧
    ∀ r, r ∈ to_dict <$> docs → r !! "course_id" = Some (VStr course_id).
Proof.
  exists (take 200 (filter (Matches {[ "course_id" := CEq (VStr course_id) ]}) (coll s "lesson"))).
  split; [apply get_documents_run|]. split; [|split].
  - f_equal. apply list_filter_iff. intros d. by apply (Matches_eq_str "course_id").
  - rewrite length_take. unfold lesson_count. lia.
  - intros r Hr. apply list_elem_of_fmap in Hr as (d & -> & Hd).
    apply elem_of_take in Hd as (i & Hd & _). apply list_elem_of_lookup_2 in Hd.
    apply list_elem_of_filter in Hd as [Hd _].
    rewrite to_dict_lookup by done. by apply (Matches_eq_str "course_id") in Hd.
Qed.

(** X11.  [admin_create_lesson] stores the lesson and returns its
    identifier.  The lesson count of its course grows by one, the count of
    every other course stays; [lessons] lists the new lesson last when it
    listed fewer than 200 before, and does not list it otherwise. *)
Theorem admin_create_lesson_round_trip s payload :
  let d := Document (ObjectId (next_oid s)) (lesson_doc payload) in
  let s1 := insert_one "lesson" (lesson_doc payload) s in
  admin_create_lesson payload (Some s)
  = (Ok {[ "_id" := VStr (oid_hex (next_oid s)) ]}, Some s1) ∧
  (∀ c, lesson_count s1 c
        = (lesson_count s c + if decide (c = cl_course_id payload) then 1 else 0)%Z) ∧
  ∃ docs,
    lessons (cl_course_id payload) (Some s) = (Ok docs, Some s) ∧
    lessons (cl_course_id payload) (Some s1)
    = (Ok (if decide (length docs < 200) then docs ++ [to_dict d] else docs), Some s1).
Proof.
  intros d s1. split; [reflexivity|]. split.
  - intros c. unfold lesson_count, s1. rewrite coll_insert_one, decide_True by done.
    case_decide as Hc.
    + rewrite (filter_snoc_in (Matches _)) by (subst c; by apply (Matches_eq_str "course_id")).
      rewrite length_app. cbn [length]. lia.
    + rewrite (filter_snoc_out (Matches _)); [lia|].
      intros Hm. apply (Matches_eq_str "course_id") in Hm; [|done].
      apply Hc. cbn [doc_body] in Hm.
      assert (lesson_doc payload !! "course_id" = Some (VStr (cl_course_id payload))) as Hd
        by reflexivity.
      congruence.
  - apply get_documents_insert_one. by apply (Matches_eq_str "course_id").
Qed.

(** X12.  [admin_create_course] stores the course and returns its
    identifier.  For a non-empty category, [list_courses] with that
    category lists the new course last when it listed fewer than 100
    before, and does not list it otherwise.  [seed_data] inserts nothing
    afterwards. *)
Theorem admin_create_course_round_trip s payload :
  cc_category payload ≠ "" →
  let d := Document (ObjectId (next_oid s)) (course_doc payload) in
  let s1 := insert_one "course" (course_doc payload) s in
  admin_create_course payload (Some s)
  = (Ok {[ "_id" := VStr (oid_hex (next_oid s)) ]}, Some s1) ∧
  (∃ docs,
     list_courses (Some (cc_category payload)) None (Some s) = (Ok docs, Some s) ∧
     list_courses (Some (cc_category payload)) None (Some s1)
     = (Ok (if decide (length docs < 100) then docs ++ [to_dict d] else docs), Some s1)) ∧
  seed_data (Some s1) = (Ok tt, Some s1).
Proof.
  intros Hcat d s1. split; [reflexivity|]. split.
  - apply get_documents_insert_one.
    unfold course_filter. rewrite (given_nonempty _ Hcat). cbn [given].
    by apply (Matches_eq_str "category").
  - rewrite seed_data_run. unfold s1. rewrite coll_insert_one, decide_True by done.
    by destruct (coll s "course").
Qed.

(** *** Progress *)

(** X13.  [mark_progress] for one pair leaves the records of every other
    pair alone: their progress record, their completed lessons and their
    enrollment are what they were, and so is every other collection. *)
Theorem mark_progress_other_pairs s p now u' c' :
  store_ok s → ¬ (u' = pu_user_id p ∧ c' = pu_course_id p) →
  ∃ r s',
    mark_progress p now (Some s) = (Ok r, Some s') ∧
    lookup s' "progress" (pair_filter u' c') = lookup s "progress" (pair_filter u' c') ∧
    completed_of s' u' c' = completed_of s u' c' ∧
    lookup s' "enrollment" (pair_filter u' c') = lookup s "enrollment" (pair_filter u' c') ∧
    ∀ name, name ≠ "progress" → name ≠ "enrollment" → coll s' name = coll s name.
Proof.
  intros Hok Hne. eexists _, _. split; [apply mark_progress_run, Hok|].
  set (completed := completed_of s (pu_user_id p) (pu_course_id p) ∪ {[pu_lesson_id p]}).
  set (percent := percent_of (size completed) (lesson_count s (pu_course_id p))).
  assert (lookup (apply_update "enrollment" (pair_filter (pu_user_id p) (pu_course_id p))
                    {[ "progress" := VFloat percent ]} true (progress_written p completed now s))
            "progress" (pair_filter u' c')
          = lookup s "progress" (pair_filter u' c')) as Hpr.
  { rewrite lookup_apply_update_ne by done. unfold lookup.
    by rewrite filter_pair_progress_written. }
  split; [done|]. split; [by unfold completed_of; rewrite Hpr|]. split.
  - unfold lookup. rewrite filter_pair_enrollment_written by done.
    by rewrite coll_progress_written_ne.
  - intros name Hn1 Hn2. by rewrite coll_apply_update_ne, coll_progress_written_ne.
Qed.

(** X14.  [mark_progress] on an enrolled pair changes the progress field
    of the enrollment and nothing else of it: same document, same status
    (a status is never set to "completed"), and no enrollment is added. *)
Theorem mark_progress_keeps_enrollment s p now e :
  store_ok s →
  lookup s "enrollment" (pair_filter (pu_user_id p) (pu_course_id p)) = Some e →
  ∃ percent s' e',
    mark_progress p now (Some s) = (Ok {[ "progress" := VFloat percent ]}, Some s') ∧
    lookup s' "enrollment" (pair_filter (pu_user_id p) (pu_course_id p)) = Some e' ∧
    doc_id e' = doc_id e ∧
    doc_body e' !! "progress" = Some (VFloat percent) ∧
    (∀ k, k ≠ "progress" → doc_body e' !! k = doc_body e !! k) ∧
    length (coll s' "enrollment") = length (coll s "enrollment").
Proof.
  intros Hok He. eexists _, _, _. split; [apply mark_progress_run, Hok|].
  set (completed := completed_of s (pu_user_id p) (pu_course_id p) ∪ {[pu_lesson_id p]}).
  set (percent := percent_of (size completed) (lesson_count s (pu_course_id p))).
  set (s1 := progress_written p completed now s).
  assert (lookup s1 "enrollment" (pair_filter (pu_user_id p) (pu_course_id p)) = Some e) as He1.
  { unfold lookup, s1. by rewrite coll_progress_written_ne. }
  assert (coll s1 "enrollment" = coll s "enrollment") as Hc1.
  { unfold s1. by rewrite coll_progress_written_ne. }
  destruct (apply_update_shape "enrollment" (pair_filter (pu_user_id p) (pu_course_id p))
              {[ "progress" := VFloat percent ]} true s1)
    as [(l1 & d & l2 & Hc & Hl1 & Hd & Hl & ->)|[Hl _]]; [|congruence].
  assert (d = e) as -> by congruence.
  unfold lookup. rewrite coll_set_coll, decide_True by done.
  split; [|split; [|split; [|split]]].
  - apply head_filter_at; [done|]. by apply Matches_pair_set.
  - reflexivity.
  - cbn [set_fields doc_body]. apply lookup_union_Some_l, lookup_singleton_eq.
  - intros k Hk. cbn [set_fields doc_body]. rewrite lookup_union_r; [done|].
    by apply lookup_singleton_ne.
  - rewrite <- Hc1, Hc. by rewrite !length_app.
Qed.

(** X15.  [mark_progress] on a pair that is not enrolled creates the
    enrollment by upsert, with the user, the course and the percent it
    returns as progress, but without a status; [enroll] then returns
    that record as it is, and creates nothing. *)
Theorem enroll_after_mark_progress s p now :
  store_ok s →
  lookup s "enrollment" (pair_filter (pu_user_id p) (pu_course_id p)) = None →
  ∃ percent s' e,
    mark_progress p now (Some s) = (Ok {[ "progress" := VFloat percent ]}, Some s') ∧
    enroll {| enr_user_id := pu_user_id p; enr_course_id := pu_course_id p |} (Some s')
    = (Ok (to_dict e), Some s') ∧
    doc_body e = {[ "progress" := VFloat percent; "user_id" := VStr (pu_user_id p);
                    "course_id" := VStr (pu_course_id p) ]} ∧
    to_dict e !! "status" = None.
Proof.
  intros Hok He. eexists _, _, _. split; [apply mark_progress_run, Hok|].
  set (completed := completed_of s (pu_user_id p) (pu_course_id p) ∪ {[pu_lesson_id p]}).
  set (percent := percent_of (size completed) (lesson_count s (pu_course_id p))).
  set (s1 := progress_written p completed now s).
  assert (lookup s1 "enrollment" (pair_filter (pu_user_id p) (pu_course_id p)) = None) as He1.
  { unfold lookup, s1. by rewrite coll_progress_written_ne. }
  destruct (apply_update_shape "enrollment" (pair_filter (pu_user_id p) (pu_course_id p))
              {[ "progress" := VFloat percent ]} true s1)
    as [(l1 & d & l2 & Hc & Hl1 & Hd & Hl & _)|[_ ->]]; [congruence|].
  rewrite eq_fields_pair.
  unfold enroll. cbn [enr_user_id enr_course_id]. rewrite bind_run, find_one_run.
  rewrite lookup_insert_one, He1.
  rewrite decide_True by (by apply Matches_pair).
  split; [reflexivity|]. split; [reflexivity|]. reflexivity.
Qed.

(** X16.  The progress record [mark_progress] leaves for the pair holds
    every completed lesson once, the new one included, the lesson as
    last_lesson_id and the time of the call.  An existing record is
    updated in place, under its identifier; no second record is made. *)
Theorem mark_progress_record s p now :
  store_ok s →
  ∃ r s' d l,
    mark_progress p now (Some s) = (Ok r, Some s') ∧
    lookup s' "progress" (pair_filter (pu_user_id p) (pu_course_id p)) = Some d ∧
    doc_body d !! "completed_lessons" = Some (VStrs l) ∧
    NoDup l ∧ pu_lesson_id p ∈ l ∧
    doc_body d !! "last_lesson_id" = Some (VStr (pu_lesson_id p)) ∧
    doc_body d !! "updated_at" = Some (VDate now) ∧
    match lookup s "progress" (pair_filter (pu_user_id p) (pu_course_id p)) with
    | Some d0 => doc_id d = doc_id d0 ∧ length (coll s' "progress") = length (coll s "progress")
    | None => doc_id d = ObjectId (next_oid s)
    end.
Proof.
  intros Hok.
  set (completed := completed_of s (pu_user_id p) (pu_course_id p) ∪ {[pu_lesson_id p]}).
  assert (NoDup (elements completed) ∧ pu_lesson_id p ∈ elements completed) as [Hnd Hin].
  { split; [apply NoDup_elements|]. apply elem_of_elements. set_solver. }
  destruct (progress_written_shape s p completed now Hok)
    as [(l1 & d & l2 & Hc & Hl1 & Hd & Hl & Heq)|[Hl Heq]].
  - eexists _, _, (set_fields (progress_data p completed now) d), (elements completed).
    split; [apply mark_progress_run, Hok|]. fold completed.
    rewrite Hl. unfold lookup. rewrite coll_apply_update_ne, Heq by done.
    rewrite coll_set_coll, decide_True by done.
    split; [|split; [|split; [|split; [|split; [|split; [|split]]]]]]; try done.
    + apply head_filter_at; [done|]. unfold set_fields.
      apply (Matches_pair_body (pu_user_id p) (pu_course_id p));
        [by apply lookup_union_Some_l.. | done].
    + cbn [set_fields doc_body]. by apply lookup_union_Some_l.
    + cbn [set_fields doc_body]. by apply lookup_union_Some_l.
    + cbn [set_fields doc_body]. by apply lookup_union_Some_l.
    + rewrite Hc. by rewrite !length_app.
  - eexists _, _, (Document (ObjectId (next_oid s)) (progress_data p completed now)),
      (elements completed).
    split; [apply mark_progress_run, Hok|]. fold completed.
    rewrite Hl. rewrite lookup_apply_update_ne, Heq by done.
    rewrite lookup_insert_one, Hl, decide_True by (by apply Matches_pair).
    done.
Qed.

Lemma size_add_pos (X : gset string) a : 1 ≤ size (X ∪ {[ a ]}).
Proof.
  rewrite <- (size_singleton (C:=gset string) a). apply subseteq_size. set_solver.
Qed.

Lemma percent_of_no_lessons n :
  (10000 * Z.of_nat n < 2 ^ 53)%Z → percent_of n 0 = inject_Z (100 * Z.of_nat n).
Proof.
  intros Hn. unfold percent_of, py_round2. cbn [Z.eqb].
  rewrite <- (Z.mul_1_r (100 * Z.of_nat n)) at 1.
  apply PyFloatBounds.round2_truediv_exact; lia.
Qed.

Lemma percent_of_range n total :
  (0 <= total)%Z →
  (0 <= percent_of n total)%Q ∧
  ((Z.of_nat n <= total)%Z → (percent_of n total <= 100)%Q) ∧
  ((0 < total)%Z → Z.of_nat n = total → percent_of n total = 100%Q).
Proof.
  intros Ht. unfold percent_of, py_round2.
  split; [|split].
  - apply PyFloatBounds.round2_truediv_nonneg; [lia|]. destruct (Z.eqb_spec total 0); lia.
  - intros Hle. apply PyFloatBounds.round2_truediv_le_100; destruct (Z.eqb_spec total 0); lia.
  - intros Hpos Heq. destruct (Z.eqb_spec total 0) as [|_]; [lia|]. rewrite Heq.
    apply (PyFloatBounds.round2_truediv_exact 100); lia.
Qed.

(** X17.  For a course without lesson documents the denominator is 1:
    [mark_progress] returns exactly 100 times the number of completed
    lesson ids of the pair, 100.0 for the first and 200.0 for the second. *)
Theorem mark_progress_without_lessons s p now :
  store_ok s →
  lesson_count s (pu_course_id p) = 0%Z →
  let n := Z.of_nat (size (completed_of s (pu_user_id p) (pu_course_id p) ∪ {[ pu_lesson_id p ]})) in
  (10000 * n < 2 ^ 53)%Z →
  ∃ s', mark_progress p now (Some s)
        = (Ok {[ "progress" := VFloat (inject_Z (100 * n)) ]}, Some s') ∧ (1 <= n)%Z.
Proof.
  intros Hok H0 n Hn. eexists. split.
  - rewrite mark_progress_run by apply Hok. rewrite H0.
    rewrite percent_of_no_lessons by exact Hn. reflexivity.
  - subst n.
    pose proof (size_add_pos (completed_of s (pu_user_id p) (pu_course_id p)) (pu_lesson_id p)).
    lia.
Qed.

(** X18.  The percent [mark_progress] returns is never negative; it is at
    most 100 when the completed ids of the pair are no more than the
    lessons of the course, and exactly 100.0 when they are as many. *)
Theorem mark_progress_percent_range s p now :
  store_ok s →
  let n := Z.of_nat (size (completed_of s (pu_user_id p) (pu_course_id p) ∪ {[ pu_lesson_id p ]})) in
  let t := lesson_count s (pu_course_id p) in
  ∃ percent s',
    mark_progress p now (Some s) = (Ok {[ "progress" := VFloat percent ]}, Some s') ∧
    (0 <= percent)%Q ∧
    ((n <= t)%Z → (percent <= 100)%Q) ∧
    (n = t → percent = 100%Q).
Proof.
  intros Hok n t. eexists _, _. split; [apply mark_progress_run, Hok|].
  fold t.
  assert (0 <= t)%Z as Ht by (unfold t, lesson_count; lia).
  assert (1 <= n)%Z as Hn1.
  { subst n.
    pose proof (size_add_pos (completed_of s (pu_user_id p) (pu_course_id p)) (pu_lesson_id p)).
    lia. }
  destruct (percent_of_range
              (size (completed_of s (pu_user_id p) (pu_course_id p) ∪ {[ pu_lesson_id p ]}))
              t Ht) as (H1 & H2 & H3).
  split; [done|]. split; [done|]. intros Heq. apply H3; [lia | done].
Qed.

(** *** Scores *)

Lemma hits_le answers (qs : list question) : (0 <= hits answers qs <= Z.of_nat (length qs))%Z.
Proof.
  unfold hits. split; [lia|]. apply Nat2Z.inj_le.
  etrans; [apply length_filter|]. rewrite length_zip_with. lia.
Qed.

Lemma quiz_score_range answers (qs : list question) :
  (0 <= quiz_score answers qs)%Q ∧ (quiz_score answers qs <= 100)%Q ∧
  (hits answers qs = 0%Z → quiz_score answers qs = 0%Q) ∧
  (qs ≠ [] → hits answers qs = Z.of_nat (length qs) → quiz_score answers qs = 100%Q).
Proof.
  pose proof (hits_le answers qs) as Hh. unfold quiz_score, py_round2.
  split; [|split; [|split]].
  - apply PyFloatBounds.round2_truediv_nonneg; lia.
  - apply PyFloatBounds.round2_truediv_le_100; lia.
  - intros ->. apply (PyFloatBounds.round2_truediv_exact 0); lia.
  - intros Hne ->. destruct qs as [|q qs]; [done|].
    rewrite Z.max_r by (cbn [length]; lia).
    apply (PyFloatBounds.round2_truediv_exact 100); cbn [length]; lia.
Qed.

(** X19.  The score [submit_quiz] returns for a quiz of dicts lies
    between 0 and 100: it is 0.0 when no answer is submitted or the quiz
    has no question, and 100.0 when the quiz has questions and every one
    is answered correctly. *)
Theorem submit_quiz_score_range s payload d (qs : list question) :
  quiz_lookup s (qs_quiz_id payload) = Some d →
  default (VDicts []) (doc_body d !! "questions") = VDicts qs →
  ∃ score,
    submit_quiz payload (Some s)
    = (Ok {[ "quiz_id" := VStr (id_str (doc_id d)); "score" := VFloat score ]}, Some s) ∧
    (0 <= score)%Q ∧ (score <= 100)%Q ∧
    (qs_answers payload = [] ∨ qs = [] → score = 0%Q) ∧
    (qs ≠ [] → hits (qs_answers payload) qs = Z.of_nat (length qs) → score = 100%Q).
Proof.
  intros Hd Hq. exists (quiz_score (qs_answers payload) qs).
  destruct (quiz_score_range (qs_answers payload) qs) as (H0 & H100 & Hz & Hall).
  split; [by apply submit_quiz_run|]. split; [done|]. split; [done|]. split; [|done].
  intros [Ha|Hqs]; apply Hz; unfold hits.
  - by rewrite Ha.
  - by rewrite Hqs, zip_with_nil_r.
Qed.

Lemma zip_app_short {A B} (l1 e : list A) (l2 : list B) :
  length l2 ≤ length l1 → zip (l1 ++ e) l2 = zip l1 l2.
Proof.
  revert l1. induction l2 as [|y l2 IH]; intros l1 Hle.
  - by rewrite !zip_with_nil_r.
  - destruct l1 as [|x l1]; cbn [length] in Hle; [lia|].
    cbn [app zip_with]. f_equal. apply IH. lia.
Qed.

(** X20.  Answers beyond the last question are ignored: submitting more
    answers than the quiz has questions gives the response of the
    submission without the extra ones. *)
Theorem submit_quiz_extra_answers s quiz_id answers extra d (qs : list question) :
  quiz_lookup s quiz_id = Some d →
  default (VDicts []) (doc_body d !! "questions") = VDicts qs →
  length qs ≤ length answers →
  submit_quiz {| qs_quiz_id := quiz_id; qs_answers := answers ++ extra |} (Some s)
  = submit_quiz {| qs_quiz_id := quiz_id; qs_answers := answers |} (Some s).
Proof.
  intros Hd Hq Hlen.
  rewrite (submit_quiz_run s {| qs_quiz_id := quiz_id; qs_answers := answers ++ extra |} d qs)
    by done.
  rewrite (submit_quiz_run s {| qs_quiz_id := quiz_id; qs_answers := answers |} d qs) by done.
  cbn [qs_answers]. unfold hits. by rewrite zip_app_short.
Qed.

(** *** Certificates *)

(** X21.  Nothing makes certificate codes unique: when the random draw
    is the same for two different pairs without a certificate, both calls
    succeed and two certificate documents carry the same code and the
    same url. *)
Theorem certificate_codes_not_unique s u1 c1 u2 c2 r now1 now2 :
  ¬ (u2 = u1 ∧ c2 = c1) →
  lookup s "certificate" (pair_filter u1 c1) = None →
  lookup s "certificate" (pair_filter u2 c2) = None →
  ∃ r1 r2 s1 s2 d1 d2,
    issue_certificate u1 c1 r now1 (Some s) = (Ok r1, Some s1) ∧
    issue_certificate u2 c2 r now2 (Some s1) = (Ok r2, Some s2) ∧
    r1 !! "certificate_code" = Some (VStr ("FO-" +:+ str_of_int r)) ∧
    r2 !! "certificate_code" = Some (VStr ("FO-" +:+ str_of_int r)) ∧
    lookup s2 "certificate" (pair_filter u1 c1) = Some d1 ∧
    lookup s2 "certificate" (pair_filter u2 c2) = Some d2 ∧
    doc_id d1 ≠ doc_id d2 ∧
    doc_body d1 !! "certificate_code" = doc_body d2 !! "certificate_code" ∧
    doc_body d1 !! "url" = doc_body d2 !! "url".
Proof.
  intros Hne Hl1 Hl2.
  set (s1 := insert_one "certificate" (certificate_doc u1 c1 r now1) s).
  set (s2 := insert_one "certificate" (certificate_doc u2 c2 r now2) s1).
  assert (lookup s1 "certificate" (pair_filter u1 c1)
          = Some (Document (ObjectId (next_oid s)) (certificate_doc u1 c1 r now1))) as Hs1.
  { unfold s1. rewrite lookup_insert_one, Hl1, decide_True; [done | by apply Matches_pair]. }
  assert (lookup s1 "certificate" (pair_filter u2 c2) = None) as Hs1'.
  { unfold s1. rewrite lookup_insert_one, Hl2, decide_False; [done|].
    intros Hm. by apply (Matches_pair_body u1 c1) in Hm. }
  exists {[ "_id" := VStr (oid_hex (next_oid s));
            "certificate_code" := VStr ("FO-" +:+ str_of_int r) ]},
         {[ "_id" := VStr (oid_hex (next_oid s1));
            "certificate_code" := VStr ("FO-" +:+ str_of_int r) ]}, s1, s2,
         (Document (ObjectId (next_oid s)) (certificate_doc u1 c1 r now1)),
         (Document (ObjectId (next_oid s1)) (certificate_doc u2 c2 r now2)).
  split; [|split; [|split; [|split; [|split; [|split; [|split; [|split]]]]]]].
  - unfold issue_certificate. by rewrite bind_run, find_one_run, Hl1.
  - unfold issue_certificate. by rewrite bind_run, find_one_run, Hs1'.
  - reflexivity.
  - reflexivity.
  - unfold s2. by rewrite lookup_insert_one, Hs1.
  - unfold s2. rewrite lookup_insert_one, Hs1', decide_True; [done | by apply Matches_pair].
  - cbn [doc_id s1 insert_one next_oid]. intros [= Heq]. lia.
  - reflexivity.
  - reflexivity.
Qed.

Lemma one_per_pair_empty : one_per_pair empty_store.
Proof.
  intros name u c _. unfold coll, empty_store; cbn [colls]. rewrite lookup_empty.
  cbn. lia.
Qed.

Lemma generated_ids_empty name : generated_ids empty_store name.
Proof.
  unfold generated_ids, coll, empty_store; cbn [colls]. rewrite lookup_empty.
  by apply Forall_nil.
Qed.

End MoreFacts.

(** ** More runs on the example stores *)

Section MoreRuns.
#[local] Existing Instance ref_ops.

Lemma store_ok_four_lessons_enrolled : store_ok four_lessons_enrolled.
Proof.
  unfold four_lessons_enrolled. apply store_ok_insert_one; [|intros [=]].
  apply store_ok_foldl_insert; [done | apply store_ok_empty].
Qed.

(** One call of [enroll] on the empty database. *)
Lemma enroll_on_empty_store :
  rtc handler_step empty_store (insert_one "enrollment" (enrollment_doc "u1" "c1") empty_store).
Proof.
  apply rtc_once.
  apply (step_enroll _ _ {| enr_user_id := "u1"; enr_course_id := "c1" |}
           (Ok {[ "_id" := VStr (oid_hex 0); "status" := VStr "enrolled" ]})).
  reflexivity.
Qed.

Lemma handlers_keep_documents_witness :
  rtc handler_step empty_store (insert_one "enrollment" (enrollment_doc "u1" "c1") empty_store) ∧
  keeps_ids empty_store (insert_one "enrollment" (enrollment_doc "u1" "c1") empty_store).
Proof.
  split; [exact enroll_on_empty_store|].
  exact (handlers_keep_documents _ _ enroll_on_empty_store).
Defined.

Lemma handlers_keep_store_ok_witness :
  store_ok empty_store ∧
  rtc handler_step empty_store (insert_one "enrollment" (enrollment_doc "u1" "c1") empty_store) ∧
  store_ok (insert_one "enrollment" (enrollment_doc "u1" "c1") empty_store).
Proof.
  split; [exact store_ok_empty|]. split; [exact enroll_on_empty_store|].
  exact (handlers_keep_store_ok _ _ store_ok_empty enroll_on_empty_store).
Defined.

Lemma handlers_keep_one_per_pair_witness :
  store_ok empty_store ∧ one_per_pair empty_store ∧
  rtc handler_step empty_store (insert_one "enrollment" (enrollment_doc "u1" "c1") empty_store) ∧
  one_per_pair (insert_one "enrollment" (enrollment_doc "u1" "c1") empty_store).
Proof.
  split; [exact store_ok_empty|]. split; [exact one_per_pair_empty|].
  split; [exact enroll_on_empty_store|].
  exact (handlers_keep_one_per_pair _ _ store_ok_empty one_per_pair_empty enroll_on_empty_store).
Defined.

Lemma string_id_lookups_find_nothing_witness :
  (∀ name, generated_ids empty_store name) ∧
  rtc handler_step empty_store (insert_one "enrollment" (enrollment_doc "u1" "c1") empty_store) ∧
  lookup (insert_one "enrollment" (enrollment_doc "u1" "c1") empty_store) "course"
    {[ "_id" := COid "c1" ]} = None ∧
  course_detail "c1" (Some (insert_one "enrollment" (enrollment_doc "u1" "c1") empty_store))
  = (Raise (HTTPException 404 "Course not found"),
     Some (insert_one "enrollment" (enrollment_doc "u1" "c1") empty_store)).
Proof.
  split; [exact generated_ids_empty|]. split; [exact enroll_on_empty_store|].
  split; [reflexivity|].
  exact (proj1 (proj2 (string_id_lookups_find_nothing _ _ generated_ids_empty
                         enroll_on_empty_store)) "c1").
Defined.

Lemma admin_create_course_round_trip_witness :
  cc_category demo_course ≠ "" ∧
  admin_create_course demo_course (Some empty_store)
  = (Ok {[ "_id" := VStr (oid_hex 0) ]},
     Some (insert_one "course" (course_doc demo_course) empty_store)) ∧
  seed_data (Some (insert_one "course" (course_doc demo_course) empty_store))
  = (Ok tt, Some (insert_one "course" (course_doc demo_course) empty_store)).
Proof.
  assert (cc_category demo_course ≠ "") as Hcat by discriminate.
  destruct (admin_create_course_round_trip empty_store demo_course Hcat) as (H1 & _ & H3).
  split; [exact Hcat|]. split; [exact H1 | exact H3].
Defined.

Lemma mark_progress_other_pairs_witness :
  store_ok four_lessons ∧ ¬ ("u2" = "u1" ∧ "c1" = "c1") ∧
  ∃ r s',
    mark_progress {| pu_user_id := "u1"; pu_course_id := "c1"; pu_lesson_id := "L1" |} 0
      (Some four_lessons) = (Ok r, Some s') ∧
    completed_of s' "u2" "c1" = completed_of four_lessons "u2" "c1" ∧
    lookup s' "enrollment" (pair_filter "u2" "c1") = None.
Proof.
  assert (¬ ("u2" = "u1" ∧ "c1" = "c1")) as Hne by (intros [[=] _]).
  split; [exact store_ok_four_lessons|]. split; [exact Hne|].
  destruct (mark_progress_other_pairs four_lessons
              {| pu_user_id := "u1"; pu_course_id := "c1"; pu_lesson_id := "L1" |} 0 "u2" "c1"
              store_ok_four_lessons Hne) as (r & s' & Hrun & _ & Hc & He & _).
  exists r, s'. split; [exact Hrun|]. split; [exact Hc|]. exact He.
Defined.

Lemma mark_progress_keeps_enrollment_witness :
  store_ok four_lessons_enrolled ∧
  lookup four_lessons_enrolled "enrollment" (pair_filter "u1" "c1")
  = Some (Document (ObjectId 4) (enrollment_doc "u1" "c1")) ∧
  ∃ percent s' e',
    mark_progress {| pu_user_id := "u1"; pu_course_id := "c1"; pu_lesson_id := "L1" |} 0
      (Some four_lessons_enrolled) = (Ok {[ "progress" := VFloat percent ]}, Some s') ∧
    lookup s' "enrollment" (pair_filter "u1" "c1") = Some e' ∧
    doc_body e' !! "progress" = Some (VFloat percent) ∧
    doc_body e' !! "status" = Some (VStr "enrolled").
Proof.
  assert (lookup four_lessons_enrolled "enrollment" (pair_filter "u1" "c1")
          = Some (Document (ObjectId 4) (enrollment_doc "u1" "c1"))) as Hl
    by (vm_compute; reflexivity).
  split; [exact store_ok_four_lessons_enrolled|]. split; [exact Hl|].
  destruct (mark_progress_keeps_enrollment four_lessons_enrolled
              {| pu_user_id := "u1"; pu_course_id := "c1"; pu_lesson_id := "L1" |} 0 _
              store_ok_four_lessons_enrolled Hl)
    as (percent & s' & e' & Hrun & He' & _ & Hp & Hk & _).
  exists percent, s', e'. split; [exact Hrun|]. split; [exact He'|]. split; [exact Hp|].
  rewrite (Hk "status") by discriminate. reflexivity.
Defined.

Lemma enroll_after_mark_progress_witness :
  store_ok four_lessons ∧
  lookup four_lessons "enrollment" (pair_filter "u1" "c1") = None ∧
  ∃ percent s' e,
    mark_progress {| pu_user_id := "u1"; pu_course_id := "c1"; pu_lesson_id := "L1" |} 0
      (Some four_lessons) = (Ok {[ "progress" := VFloat percent ]}, Some s') ∧
    enroll {| enr_user_id := "u1"; enr_course_id := "c1" |} (Some s') = (Ok (to_dict e), Some s') ∧
    to_dict e !! "status" = None.
Proof.
  assert (lookup four_lessons "enrollment" (pair_filter "u1" "c1") = None) as Hl
    by (vm_compute; reflexivity).
  split; [exact store_ok_four_lessons|]. split; [exact Hl|].
  destruct (enroll_after_mark_progress four_lessons
              {| pu_user_id := "u1"; pu_course_id := "c1"; pu_lesson_id := "L1" |} 0
              store_ok_four_lessons Hl) as (percent & s' & e & Hrun & Henr & _ & Hst).
  exists percent, s', e. split; [exact Hrun|]. split; [exact Henr | exact Hst].
Defined.

Lemma mark_progress_record_witness :
  store_ok one_lesson_done ∧
  ∃ r s' d l,
    mark_progress {| pu_user_id := "u1"; pu_course_id := "c1"; pu_lesson_id := "L2" |} 7
      (Some one_lesson_done) = (Ok r, Some s') ∧
    lookup s' "progress" (pair_filter "u1" "c1") = Some d ∧
    doc_body d !! "completed_lessons" = Some (VStrs l) ∧ NoDup l ∧ "L2" ∈ l ∧
    doc_body d !! "updated_at" = Some (VDate 7).
Proof.
  split; [exact store_ok_one_lesson_done|].
  destruct (mark_progress_record one_lesson_done
              {| pu_user_id := "u1"; pu_course_id := "c1"; pu_lesson_id := "L2" |} 7
              store_ok_one_lesson_done) as (r & s' & d & l & Hrun & Hd & Hl & Hnd & Hin & _ & Hat & _).
  exists r, s', d, l. split; [exact Hrun|]. split; [exact Hd|]. split; [exact Hl|].
  split; [exact Hnd|]. split; [exact Hin | exact Hat].
Defined.

Lemma mark_progress_without_lessons_witness :
  store_ok empty_store ∧ lesson_count empty_store "c1" = 0%Z ∧
  (10000 * Z.of_nat (size (completed_of empty_store "u1" "c1" ∪ {[ "L1" ]})) < 2 ^ 53)%Z ∧
  ∃ s',
    mark_progress {| pu_user_id := "u1"; pu_course_id := "c1"; pu_lesson_id := "L1" |} 0
      (Some empty_store) = (Ok {[ "progress" := VFloat 100 ]}, Some s').
Proof.
  assert (10000 * Z.of_nat (size (completed_of empty_store "u1" "c1" ∪ {[ "L1" ]})) < 2 ^ 53)%Z
    as Hn by (vm_compute; reflexivity).
  split; [exact store_ok_empty|]. split; [reflexivity|]. split; [exact Hn|].
  destruct (mark_progress_without_lessons empty_store
              {| pu_user_id := "u1"; pu_course_id := "c1"; pu_lesson_id := "L1" |} 0
              store_ok_empty eq_refl Hn) as (s' & Hrun & _).
  exists s'. exact Hrun.
Defined.

Lemma mark_progress_percent_range_witness :
  store_ok four_lessons ∧
  ∃ percent s',
    mark_progress {| pu_user_id := "u1"; pu_course_id := "c1"; pu_lesson_id := "L1" |} 0
      (Some four_lessons) = (Ok {[ "progress" := VFloat percent ]}, Some s') ∧
    (0 <= percent)%Q ∧ (percent <= 100)%Q.
Proof.
  split; [exact store_ok_four_lessons|].
  destruct (mark_progress_percent_range four_lessons
              {| pu_user_id := "u1"; pu_course_id := "c1"; pu_lesson_id := "L1" |} 0
              store_ok_four_lessons) as (percent & s' & Hrun & H0 & H100 & _).
  exists percent, s'. split; [exact Hrun|]. split; [exact H0|].
  apply H100. vm_compute. discriminate.
Defined.

Lemma submit_quiz_score_range_witness :
  quiz_lookup seeded_quiz (oid_hex 0)
  = Some (Document (ObjectId 0) (seed_quiz_doc "c1")) ∧
  ∃ score,
    submit_quiz {| qs_quiz_id := oid_hex 0; qs_answers := [] |} (Some seeded_quiz)
    = (Ok {[ "quiz_id" := VStr (oid_hex 0); "score" := VFloat score ]}, Some seeded_quiz) ∧
    score = 0%Q.
Proof.
  assert (quiz_lookup seeded_quiz (oid_hex 0)
          = Some (Document (ObjectId 0) (seed_quiz_doc "c1"))) as Hl
    by (vm_compute; reflexivity).
  split; [exact Hl|].
  destruct (submit_quiz_score_range seeded_quiz
              {| qs_quiz_id := oid_hex 0; qs_answers := [] |} _ seed_questions Hl eq_refl)
    as (score & Hrun & _ & _ & Hz & _).
  exists score. split; [exact Hrun|]. apply Hz. left. reflexivity.
Defined.

Lemma submit_quiz_extra_answers_witness :
  quiz_lookup seeded_quiz (oid_hex 0)
  = Some (Document (ObjectId 0) (seed_quiz_doc "c1")) ∧
  length seed_questions ≤ length [1; 0]%Z ∧
  submit_quiz {| qs_quiz_id := oid_hex 0; qs_answers := [1; 0; 3; 2]%Z |} (Some seeded_quiz)
  = submit_quiz {| qs_quiz_id := oid_hex 0; qs_answers := [1; 0]%Z |} (Some seeded_quiz).
Proof.
  assert (quiz_lookup seeded_quiz (oid_hex 0)
          = Some (Document (ObjectId 0) (seed_quiz_doc "c1"))) as Hl
    by (vm_compute; reflexivity).
  assert (length seed_questions ≤ length [1; 0]%Z) as Hlen by (vm_compute; lia).
  split; [exact Hl|]. split; [exact Hlen|].
  exact (submit_quiz_extra_answers seeded_quiz (oid_hex 0) [1; 0]%Z [3; 2]%Z _ seed_questions
           Hl eq_refl Hlen).
Defined.

Lemma certificate_codes_not_unique_witness :
  ¬ ("u2" = "u1" ∧ "c1" = "c1") ∧
  lookup empty_store "certificate" (pair_filter "u1" "c1") = None ∧
  lookup empty_store "certificate" (pair_filter "u2" "c1") = None ∧
  ∃ r1 r2 s1 s2,
    issue_certificate "u1" "c1" 123456 0 (Some empty_store) = (Ok r1, Some s1) ∧
    issue_certificate "u2" "c1" 123456 1 (Some s1) = (Ok r2, Some s2) ∧
    r1 !! "certificate_code" = Some (VStr "FO-123456") ∧
    r2 !! "certificate_code" = Some (VStr "FO-123456").
Proof.
  assert (¬ ("u2" = "u1" ∧ "c1" = "c1")) as Hne by (intros [[=] _]).
  split; [exact Hne|]. split; [reflexivity|]. split; [reflexivity|].
  destruct (certificate_codes_not_unique empty_store "u1" "c1" "u2" "c1" 123456 0 1
              Hne eq_refl eq_refl) as (r1 & r2 & s1 & s2 & d1 & d2 & H1 & H2 & Hc1 & Hc2 & _).
  exists r1, r2, s1, s2. split; [exact H1|]. split; [exact H2|]. split; [exact Hc1 | exact Hc2].
Defined.

End MoreRuns.
